(** * MovieLens analytics: a shallow embedding of
    [scripts/movielens_data_loader.py] and [scripts/movielens_analyzer.py].

    The pandas frames are lists of row records, in load order, with typed
    columns: identifiers, ages and ratings are integers.  A text column
    keeps each field as it is in the file, and a field that pandas reads as
    a missing value is recognised by [Frame.isna].

    Values that the code rounds to a fixed number of decimals are exact
    rationals ([Q]), rounded on the exact value; pandas rounds the binary64
    value, so for a value half way between two neighbours it may report the
    other neighbour, and the properties below state a rounded value by its
    distance to the exact one.  The Pearson correlation of the similarity
    search, which is not rounded, is a real number extended with the IEEE
    special values the code tests for ([NP.float]).  The search is defined
    twice: on exact reals, and with the rounding of binary64 and the outcome
    of compiling a pattern left open ([similar_movies_fl]); the first is an
    instance of the second. *)

From Stdlib Require Import ZArith QArith Qround Qabs List String Ascii Bool Lia.
From Stdlib Require Import Sorting.Sorted Sorting.Permutation.
From Stdlib Require Import Reals Psatz.
Import ListNotations.

Open Scope Z_scope.

(** ** Ordered keys *)

(** Group keys and sort keys are ordered the way Python and pandas order
    them: integers numerically, strings by code unit, tuples
    lexicographically. *)
Class Ord (K : Type) := { cmp : K -> K -> comparison }.

Class OrdLaws (K : Type) `{Ord K} := {
  cmp_eq : forall a b : K, cmp a b = Eq <-> a = b;
  cmp_antisym : forall a b : K, cmp b a = CompOpp (cmp a b);
  cmp_trans : forall a b c : K, cmp a b = Lt -> cmp b c = Lt -> cmp a c = Lt
}.

#[global] Instance Ord_Z : Ord Z := {| cmp := Z.compare |}.
#[global] Instance Ord_string : Ord string := {| cmp := String.compare |}.
#[global] Instance Ord_pair (A B : Type) `{Ord A} `{Ord B} : Ord (A * B) :=
  {| cmp := fun x y =>
       match cmp (fst x) (fst y) with
       | Eq => cmp (snd x) (snd y)
       | c => c
       end |}.

Definition key_eqb {K} `{Ord K} (a b : K) : bool :=
  match cmp a b with Eq => true | _ => false end.

Definition key_ltb {K} `{Ord K} (a b : K) : bool :=
  match cmp a b with Lt => true | _ => false end.

Definition key_lt {K} `{Ord K} (a b : K) : Prop := cmp a b = Lt.

(** ** Frame operations *)

Module Frame.

Section Keyed.
Context {K : Type} `{Ord K}.

(** Insertion of a key into an ascending list without repetition. *)
Fixpoint insert_key (k : K) (ks : list K) : list K :=
  match ks with
  | [] => [k]
  | k' :: t =>
      match cmp k k' with
      | Lt => k :: ks
      | Eq => ks
      | Gt => k' :: insert_key k t
      end
  end.

(** The distinct keys of a column, ascending: the group labels of
    [DataFrame.groupby] (with its default [sort=True]). *)
Definition sorted_keys (l : list K) : list K := fold_right insert_key [] l.

(** [df.groupby(key)]: one group per distinct key, groups in ascending key
    order, the rows of a group in their original order. *)
Definition groupby {A} (key : A -> K) (rows : list A) : list (K * list A) :=
  map (fun k => (k, filter (fun r => key_eqb (key r) k) rows))
      (sorted_keys (map key rows)).
End Keyed.

Section Sorting.
Context {A : Type}.

Fixpoint insert_by (le : A -> A -> bool) (x : A) (l : list A) : list A :=
  match l with
  | [] => [x]
  | y :: t => if le x y then x :: l else y :: insert_by le x t
  end.

(** A stable sort: [x] stays before a later [y] whenever [le x y].  Python's
    [list.sort] and [sorted] are stable, also with [reverse=True]. *)
Definition sort_by (le : A -> A -> bool) (l : list A) : list A :=
  fold_right (insert_by le) [] l.

(** The order a stable sort produces from a list ordered by [R0]:
    by [le], and by [R0] among elements that [le] does not separate. *)
Definition lex (le : A -> A -> bool) (R0 : A -> A -> Prop) (x y : A) : Prop :=
  le x y = true /\ (le y x = true -> R0 x y).

(** [df.head(n)] and the slice [l[:n]]: the first [n] rows, and for a
    negative [n] all rows but the last [-n]. *)
Definition head (n : Z) (l : list A) : list A :=
  if 0 <=? n then firstn (Z.to_nat n) l
  else firstn (List.length l - Z.to_nat (- n)) l.
End Sorting.

(** [left.merge(right, on=key)]: the inner join, in the order of the left
    rows; a left row pairs with every right row of the same key. *)
Definition merge {K} `{Ord K} {A B} (lkey : A -> K) (rkey : B -> K)
    (left : list A) (right : list B) : list (A * B) :=
  flat_map (fun a => map (pair a) (filter (fun b => key_eqb (lkey a) (rkey b)) right))
           left.

(** The field texts that [read_csv] reads as a missing value, its default
    [na_values].  A text column of a frame keeps the field as it is in the
    file; a cell holding one of these texts is NaN in the pandas frame. *)
Definition na_values : list string :=
  [ ""; "#N/A"; "#N/A N/A"; "#NA"; "-1.#IND"; "-1.#QNAN"; "-NaN"; "-nan";
    "1.#IND"; "1.#QNAN"; "<NA>"; "N/A"; "NA"; "NULL"; "NaN"; "None"; "n/a";
    "nan"; "null" ]%string.

Definition isna (field : string) : bool := existsb (String.eqb field) na_values.

(** The rows a [groupby] keeps: with its default [dropna=True] it leaves
    out every row whose key is NaN. *)
Definition dropna {A} (key : A -> string) (rows : list A) : list A :=
  filter (fun r => negb (isna (key r))) rows.

(** [set(l)] as a duplicate-free list. *)
Definition to_set (l : list Z) : list Z := nodup Z.eq_dec l.

Definition mem (x : Z) (s : list Z) : bool := existsb (Z.eqb x) s.

(** [a & b] on sets. *)
Definition inter (a b : list Z) : list Z := filter (fun x => mem x b) a.

End Frame.

(** ** Exact statistics on integer columns *)

Module Stats.

Definition sum (l : list Z) : Z := fold_right Z.add 0 l.

Definition count (l : list Z) : Z := Z.of_nat (List.length l).

(** [Series.mean()] of a non-empty integer column. *)
Definition mean (l : list Z) : Q := inject_Z (sum l) / inject_Z (count l).

Definition Qsum (l : list Q) : Q := fold_right Qplus 0%Q l.

(** Sum of squared deviations from the mean. *)
Definition sq_dev (l : list Z) : Q :=
  Qsum (map (fun x => (inject_Z x - mean l) * (inject_Z x - mean l))%Q l).

(** The sample variance (ddof = 1) under [Series.std()]; pandas yields NaN
    for fewer than two observations, here [None]. *)
Definition var (l : list Z) : option Q :=
  if count l <? 2 then None
  else Some (sq_dev l / inject_Z (count l - 1))%Q.

Definition min (l : list Z) : Z :=
  match l with [] => 0 | x :: t => fold_right Z.min x t end.

Definition max (l : list Z) : Z :=
  match l with [] => 0 | x :: t => fold_right Z.max x t end.

(** Round half to even, the rule of [numpy.round], on the exact value. *)
Definition round_half_even (q : Q) : Z :=
  let f := Qfloor q in
  match Qcompare (q - inject_Z f) (1 # 2) with
  | Lt => f
  | Gt => f + 1
  | Eq => if Z.even f then f else f + 1
  end.

Definition pow10 (d : nat) : Z := 10 ^ Z.of_nat d.

(** [x.round(d)]: the multiple of [10^-d] nearest to [x]. *)
Definition round (d : nat) (q : Q) : Q :=
  Qmake (round_half_even (q * inject_Z (pow10 d))) (Z.to_pos (pow10 d)).

(** [sqrt(v).round(d)] for a non-negative rational [v].  The square root is
    irrational in general, so the two steps are computed together: with
    [s = 4 * 10^(2d) * v] and [m = floor (sqrt s)], the value
    [10^d * sqrt v] lies in [[m/2, (m+1)/2)], and it is a tie exactly when
    [m] is odd and [s = m^2]. *)
Definition round_sqrt_units (d : nat) (v : Q) : Z :=
  let s := (inject_Z (4 * pow10 d * pow10 d) * v)%Q in
  let m := Z.sqrt (Qfloor s) in
  let k := m / 2 in
  if Z.even m then k
  else if Qeq_bool s (inject_Z (m * m)) then (if Z.even k then k else k + 1)
  else k + 1.

Definition round_sqrt (d : nat) (v : Q) : Q :=
  Qmake (round_sqrt_units d v) (Z.to_pos (pow10 d)).

(** [k / 10^d] is at distance at most [1 / (2 * 10^d)] from the square root
    of [v], stated on the squares. *)
Definition nearest_to_sqrt (d : nat) (k : Z) (v : Q) : Prop :=
  let s := (inject_Z (4 * pow10 d * pow10 d) * v)%Q in
  0 <= k /\
  (s <= inject_Z ((2 * k + 1) * (2 * k + 1)))%Q /\
  (1 <= k -> (inject_Z ((2 * k - 1) * (2 * k - 1)) <= s)%Q).

(** [Series.std()] followed by [.round(d)]; NaN stays NaN. *)
Definition std_round (d : nat) (l : list Z) : option Q :=
  option_map (round_sqrt d) (var l).

End Stats.

(** ** The dataset and its loader ([movielens_data_loader.py]) *)

Inductive Result (A : Type) : Type :=
| Ok (a : A)
| Raise (e : string).
Arguments Ok {A} a.
Arguments Raise {A} e.

Module Loader.

(** A row of [u.data]. *)
Record Rating := {
  r_user_id : Z;
  r_movie_id : Z;
  rating : Z;
  timestamp : Z
}.

(** A row of [u.user].  The text columns hold the fields as they are in the
    file; an occupation that [Frame.isna] recognises is NaN in the pandas
    frame. *)
Record User := {
  u_user_id : Z;
  age : Z;
  gender : string;
  occupation : string;
  zip_code : string
}.

(** A row of [u.item]; [flags] are the 19 genre indicator columns in file
    order, a missing release date is [None]. *)
Record Movie := {
  m_movie_id : Z;
  m_title : string;
  m_release_date : option string;
  flags : list Z
}.

Record Genre := { g_genre : string; genre_id : Z }.

(** A row of the derived movie-genre frame. *)
Record MovieGenre := {
  mg_movie_id : Z;
  mg_title : string;
  mg_genre : string
}.

(** Display name of each genre column, in column order: the value of
    [genre_col.replace('_', '-').title()] after the special cases of
    [get_movie_genres]. *)
Definition genre_names : list string :=
  [ "Unknown"; "Action"; "Adventure"; "Animation"; "Children's"; "Comedy";
    "Crime"; "Documentary"; "Drama"; "Fantasy"; "Film-Noir"; "Horror";
    "Musical"; "Mystery"; "Romance"; "Sci-Fi"; "Thriller"; "War";
    "Western" ]%string.

Definition get_movie_genres (movies_df : list Movie) : list MovieGenre :=
  flat_map
    (fun movie =>
       flat_map
         (fun fg : Z * string =>
            if fst fg =? 1
            then [ {| mg_movie_id := m_movie_id movie;
                      mg_title := m_title movie;
                      mg_genre := snd fg |} ]
            else [])
         (combine (flags movie) genre_names))
    movies_df.

(** What reading one source file gives. *)
Inductive File (A : Type) : Type :=
| Absent
| Malformed
| Content (rows : A).
Arguments Absent {A}.
Arguments Malformed {A}.
Arguments Content {A} rows.

(** The data directory as the loader sees it. *)
Record FileSystem := {
  data_dir_exists : bool;
  f_data : File (list Rating);
  f_user : File (list User);
  f_item : File (list Movie);
  f_genre : File (list Genre);
  f_occupation : File (list string)
}.

(** The module-level variables holding the loaded frames; all are bound to
    [None] when the module is imported. *)
Record Globals := {
  RATINGS_DF : option (list Rating);
  USERS_DF : option (list User);
  MOVIES_DF : option (list Movie);
  GENRES_DF : option (list Genre);
  OCCUPATIONS_DF : option (list string);
  MOVIE_GENRES_DF : option (list MovieGenre)
}.

Definition initial_globals : Globals :=
  {| RATINGS_DF := None; USERS_DF := None; MOVIES_DF := None;
     GENRES_DF := None; OCCUPATIONS_DF := None; MOVIE_GENRES_DF := None |}.

(** Computations that read and assign the globals and may raise. *)
Definition M (A : Type) : Type := Globals -> Result A * Globals.

Definition ret {A} (a : A) : M A := fun g => (Ok a, g).

Definition raise {A} (e : string) : M A := fun g => (Raise e, g).

Definition bind {A B} (m : M A) (k : A -> M B) : M B :=
  fun g =>
    match m g with
    | (Ok a, g') => k a g'
    | (Raise e, g') => (Raise e, g')
    end.

(** [try: body except Exception: handler]. *)
Definition try_except {A} (body handler : M A) : M A :=
  fun g =>
    match body g with
    | (Ok a, g') => (Ok a, g')
    | (Raise _, g') => handler g'
    end.

Definition lift {A} (r : Result A) : M A := fun g => (r, g).

Definition put (g : Globals) : M unit := fun _ => (Ok tt, g).

Declare Scope monad_scope.
Notation "x <- m ;; k" := (bind m (fun x => k))
  (at level 61, m at next level, right associativity) : monad_scope.
Notation "m ;;; k" := (bind m (fun _ => k))
  (at level 61, right associativity) : monad_scope.
Open Scope monad_scope.

Definition DataDirectoryNotFound : string := "Data directory not found".
Definition RequiredFileNotFound : string := "Required data file not found".
Definition ParserError : string := "ParserError".
Definition FileNotFoundError : string := "FileNotFoundError".
Definition ZeroDivisionError : string := "ZeroDivisionError".
Definition DataNotLoaded : string :=
  "Data not loaded. Call download_and_load_data() first.".

(** [MovieLensDataLoader.__init__]: the directory and the four required
    files must exist. *)
Definition exists_file {A} (f : File A) : bool :=
  match f with Absent => false | _ => true end.

Definition MovieLensDataLoader (fs : FileSystem) : Result unit :=
  if negb (data_dir_exists fs) then Raise DataDirectoryNotFound
  else if negb (exists_file (f_data fs)) then Raise RequiredFileNotFound
  else if negb (exists_file (f_user fs)) then Raise RequiredFileNotFound
  else if negb (exists_file (f_item fs)) then Raise RequiredFileNotFound
  else if negb (exists_file (f_genre fs)) then Raise RequiredFileNotFound
  else Ok tt.

(** [load_ratings], [load_users], [load_movies], [load_genres],
    [load_occupations]: [pd.read_csv] or [open] on one file. *)
Definition load {A} (f : File A) : Result A :=
  match f with
  | Absent => Raise FileNotFoundError
  | Malformed => Raise ParserError
  | Content rows => Ok rows
  end.

Record DataInfo := {
  total_ratings : Z;
  total_users : Z;
  total_movies : Z;
  total_genres : Z;
  total_occupations : Z;
  unique_users : Z;
  unique_movies : Z;
  avg_rating : option Q;
  sparsity : Q
}.

Definition len {A} (l : list A) : Z := Z.of_nat (List.length l).

(** The statistics dictionary; the sparsity divides by
    [len(users_df) * len(movies_df)].  The rating column is a column of
    integers; on a column that [read_csv] left as text the minimum, the
    maximum and the mean would raise [TypeError] here, after the globals
    are assigned, which a typed frame cannot show. *)
Definition data_info (ratings_df : list Rating) (users_df : list User)
    (movies_df : list Movie) (genres_df : list Genre)
    (occupations_df : list string) : Result DataInfo :=
  if len users_df * len movies_df =? 0 then Raise ZeroDivisionError
  else Ok {|
    total_ratings := len ratings_df;
    total_users := len users_df;
    total_movies := len movies_df;
    total_genres := len genres_df;
    total_occupations := len occupations_df;
    unique_users := len (Frame.to_set (map r_user_id ratings_df));
    unique_movies := len (Frame.to_set (map r_movie_id ratings_df));
    avg_rating :=
      match ratings_df with
      | [] => None
      | _ => Some (Stats.round 2 (Stats.mean (map rating ratings_df)))
      end;
    sparsity :=
      Stats.round 4
        (1 - inject_Z (len ratings_df)
             / inject_Z (len users_df * len movies_df))%Q
  |}.

(** [download_and_load_data]: the globals are assigned once every file has
    been read, and before the statistics are computed. *)
Definition download_and_load_data (fs : FileSystem) : M DataInfo :=
  lift (MovieLensDataLoader fs) ;;;
  ratings_df <- lift (load (f_data fs)) ;;
  users_df <- lift (load (f_user fs)) ;;
  movies_df <- lift (load (f_item fs)) ;;
  genres_df <- lift (load (f_genre fs)) ;;
  occupations_df <- lift (load (f_occupation fs)) ;;
  let movie_genres_df := get_movie_genres movies_df in
  put {| RATINGS_DF := Some ratings_df; USERS_DF := Some users_df;
         MOVIES_DF := Some movies_df; GENRES_DF := Some genres_df;
         OCCUPATIONS_DF := Some occupations_df;
         MOVIE_GENRES_DF := Some movie_genres_df |} ;;;
  lift (data_info ratings_df users_df movies_df genres_df occupations_df).

(** The tuple [get_data] returns. *)
Record Frames := {
  ratings_df : option (list Rating);
  users_df : option (list User);
  movies_df : option (list Movie);
  genres_df : option (list Genre);
  movie_genres_df : option (list MovieGenre)
}.

(** [get_data]: returns the globals as they are.  Its [except NameError]
    branch, which raises [DataNotLoaded], needs an unbound global; the module
    binds all of them, so the branch is never taken. *)
Definition get_data : M Frames :=
  fun g =>
    (Ok {| ratings_df := RATINGS_DF g; users_df := USERS_DF g;
           movies_df := MOVIES_DF g; genres_df := GENRES_DF g;
           movie_genres_df := MOVIE_GENRES_DF g |}, g).

End Loader.

(** ** The analyses ([movielens_analyzer.py]) *)

Import Loader.

Definition AttributeError : string := "AttributeError".
Definition IndexError : string := "IndexError".
Definition KeyError : string := "KeyError".

(** The opening of every analysis: read the globals, and load the dataset
    when a frame the analysis needs is [None]; any exception raised on the
    way, a failed load included, is answered by loading again. *)
Definition ensure_loaded (fs : FileSystem) (missing : Frames -> bool) : M Frames :=
  try_except
    (t <- get_data ;;
     if missing t
     then (download_and_load_data fs ;;; get_data)
     else ret t)
    (download_and_load_data fs ;;; get_data).

Definition is_none {A} (o : option A) : bool :=
  match o with None => true | Some _ => false end.

(** Using a frame that is still [None] raises. *)
Definition frame {A} (o : option A) : Result A :=
  match o with Some df => Ok df | None => Raise AttributeError end.

(** [df.iloc[0]]. *)
Definition iloc0 {A} (df : list A) : Result A :=
  match df with x :: _ => Ok x | [] => Raise IndexError end.

(** Running a fallible loop body over a list, stopping at the first raise. *)
Fixpoint for_each {A B} (f : A -> Result B) (l : list A) : Result (list B) :=
  match l with
  | [] => Ok []
  | x :: t =>
      match f x with
      | Raise e => Raise e
      | Ok y =>
          match for_each f t with
          | Raise e => Raise e
          | Ok ys => Ok (y :: ys)
          end
      end
  end.

(** [sort(key, reverse=True)] on a rational key: descending, ties in their
    previous order.  It also stands for [sort_values(col, ascending=False)],
    for which pandas promises the descending order but not the order of
    ties; no property below depends on the order of ties of a frame. *)
Definition sort_desc {A} (key : A -> Q) (l : list A) : list A :=
  Frame.sort_by (fun x y => Qle_bool (key y) (key x)) l.

(** [sort(key=...)] ascending on an ordered key. *)
Definition sort_asc {A K} `{Ord K} (key : A -> K) (l : list A) : list A :=
  Frame.sort_by (fun x y => negb (key_ltb (key y) (key x))) l.

(** *** Task 1: mean age by occupation *)

Module MeanAge.
Record t := {
  occupation : string;
  mean_age : Q;
  user_count : Z;
  std_dev : Q;
  min_age : Z;
  max_age : Z
}.
End MeanAge.

(** A row of [groupby(...)[col].agg(['mean', 'count', 'std', 'min', 'max'])
    .round(d)]: the integer columns are not changed by the rounding. *)
Record AggRow := {
  agg_mean : Q;
  agg_count : Z;
  agg_std : option Q;
  agg_min : Z;
  agg_max : Z
}.

Definition agg (d : nat) (col : list Z) : AggRow :=
  {| agg_mean := Stats.round d (Stats.mean col);
     agg_count := Stats.count col;
     agg_std := Stats.std_round d col;
     agg_min := Stats.min col;
     agg_max := Stats.max col |}.

(** [float(stats['std']) if not pd.isna(stats['std']) else 0.0]. *)
Definition std_or_zero (s : option Q) : Q :=
  match s with Some x => x | None => 0%Q end.

Definition occupation_age_stats (users_df : list User) : list (string * AggRow) :=
  map (fun g => (fst g, agg 2 (map age (snd g))))
      (Frame.groupby occupation (Frame.dropna occupation users_df)).

(** The dictionary appended for one row of the statistics. *)
Definition mean_age_result (row : string * AggRow) : MeanAge.t :=
  {| MeanAge.occupation := fst row;
     MeanAge.mean_age := agg_mean (snd row);
     MeanAge.user_count := agg_count (snd row);
     MeanAge.std_dev := std_or_zero (agg_std (snd row));
     MeanAge.min_age := agg_min (snd row);
     MeanAge.max_age := agg_max (snd row) |}.

Definition mean_age_by_occupation (users_df : list User) : list MeanAge.t :=
  let results := map mean_age_result (occupation_age_stats users_df) in
  sort_desc MeanAge.mean_age results.

(** What a record says about the ages of its occupation: the count, the
    mean rounded to 2 decimals, the extremes, and for the standard deviation
    0 below two members and else the sample standard deviation rounded to 2
    decimals.  A value rounded to 2 decimals is a number of hundredths at
    distance at most 0.005 from the exact value; which of the two nearest
    hundredths is reported for a value half way between them is not
    stated, since that depends on the binary representation of the value
    that pandas rounds. *)
Definition age_statistics (r : MeanAge.t) (ages : list Z) : Prop :=
  let n := Z.of_nat (List.length ages) in
  let mean := (inject_Z (Stats.sum ages) / inject_Z n)%Q in
  MeanAge.user_count r = n /\
  (exists k : Z, MeanAge.mean_age r = Qmake k 100) /\
  (Qabs (MeanAge.mean_age r - mean) <= 1 # 200)%Q /\
  (In (MeanAge.min_age r) ages /\ Forall (fun a => MeanAge.min_age r <= a) ages) /\
  (In (MeanAge.max_age r) ages /\ Forall (fun a => a <= MeanAge.max_age r) ages) /\
  (n < 2 -> MeanAge.std_dev r = 0%Q) /\
  (2 <= n ->
   exists k : Z,
     MeanAge.std_dev r = Qmake k 100 /\
     Stats.nearest_to_sqrt 2 k (Stats.sq_dev ages / inject_Z (n - 1))%Q).

Definition analyze_mean_age_by_occupation (fs : FileSystem) : M (list MeanAge.t) :=
  t <- ensure_loaded fs (fun t => is_none (users_df t)) ;;
  users_df <- lift (frame (users_df t)) ;;
  ret (mean_age_by_occupation users_df).

(** *** Task 2: top rated movies *)

Module TopMovie.
Record t := {
  movie_id : Z;
  title : string;
  avg_rating : Q;
  rating_count : Z;
  rating_std : Q;
  release_date : string
}.
End TopMovie.

(** [movie_info['release_date'] if pd.notna(...) else 'Unknown']. *)
Definition release_date_or_unknown (d : option string) : string :=
  match d with Some s => s | None => "Unknown"%string end.

(** [movies_df[movies_df['movie_id'] == movie_id].iloc[0]]. *)
Definition movie_info (movies_df : list Movie) (movie_id : Z) : Result Movie :=
  iloc0 (filter (fun m => m_movie_id m =? movie_id) movies_df).

Definition movie_stats (ratings_df : list Rating) : list (Z * AggRow) :=
  map (fun g => (fst g, agg 3 (map rating (snd g))))
      (Frame.groupby r_movie_id ratings_df).

Definition top_movies (ratings_df : list Rating) (min_ratings top_n : Z)
    : list (Z * AggRow) :=
  let qualified_movies :=
    filter (fun row => min_ratings <=? agg_count (snd row)) (movie_stats ratings_df) in
  Frame.head top_n (sort_desc (fun row => agg_mean (snd row)) qualified_movies).

(** The dictionary appended for one row of [top_movies]; the look-up of the
    movie raises when the movie is not in the movies frame. *)
Definition top_movie_result (movies_df : list Movie) (row : Z * AggRow)
    : Result TopMovie.t :=
  match movie_info movies_df (fst row) with
  | Raise e => Raise e
  | Ok info =>
      Ok {| TopMovie.movie_id := fst row;
            TopMovie.title := m_title info;
            TopMovie.avg_rating := agg_mean (snd row);
            TopMovie.rating_count := agg_count (snd row);
            TopMovie.rating_std := std_or_zero (agg_std (snd row));
            TopMovie.release_date :=
              release_date_or_unknown (m_release_date info) |}
  end.

Definition top_rated_movies (ratings_df : list Rating) (movies_df : list Movie)
    (min_ratings top_n : Z) : Result (list TopMovie.t) :=
  for_each (top_movie_result movies_df) (top_movies ratings_df min_ratings top_n).

Definition analyze_top_rated_movies (fs : FileSystem) (min_ratings top_n : Z)
    : M (list TopMovie.t) :=
  t <- ensure_loaded fs
         (fun t => is_none (ratings_df t) || is_none (movies_df t)) ;;
  ratings_df <- lift (frame (ratings_df t)) ;;
  movies_df <- lift (frame (movies_df t)) ;;
  lift (top_rated_movies ratings_df movies_df min_ratings top_n).

(** *** Task 3: top genres by occupation and age group *)

Definition get_age_group (age : Z) : string :=
  if (20 <=? age) && (age <? 25) then "20-25"
  else if (25 <=? age) && (age <? 35) then "25-35"
  else if (35 <=? age) && (age <? 45) then "35-45"
  else if age >=? 45 then "45+"
  else "Under 20".

Module TopGenres.
(** One entry of [top_genres].  The label the loop takes from
    [top_genres.iterrows()] is the row's whole index entry, the
    (occupation, age_group, genre) triple. *)
Record genre_entry := {
  genre : string * string * string;
  avg_rating : Q;
  rating_count : Z
}.

Record t := {
  occupation : string;
  age_group : string;
  top_genres : list genre_entry;
  total_users : Z
}.
End TopGenres.

(** [users_df] with the [age_group] column added. *)
Definition users_with_age_group (users_df : list User) : list (User * string) :=
  map (fun u => (u, get_age_group (age u))) users_df.

Definition ratings_with_genres (ratings_df : list Rating) (users_df : list User)
    (movie_genres_df : list MovieGenre)
    : list (Rating * (User * string) * MovieGenre) :=
  let ratings_with_demo :=
    Frame.merge r_user_id (fun ua : User * string => u_user_id (fst ua))
                ratings_df (users_with_age_group users_df) in
  Frame.merge (fun rd : Rating * (User * string) => r_movie_id (fst rd))
              mg_movie_id ratings_with_demo movie_genres_df.

(** A row of [genre_stats]: the index triple, the rounded mean and the
    count. *)
Definition genre_stats (ratings_df : list Rating) (users_df : list User)
    (movie_genres_df : list MovieGenre)
    : list (string * string * string * (Q * Z)) :=
  map (fun g =>
         let col := map (fun row : Rating * (User * string) * MovieGenre =>
                           rating (fst (fst row))) (snd g) in
         (fst g, (Stats.round 3 (Stats.mean col), Stats.count col)))
      (Frame.groupby
         (fun row : Rating * (User * string) * MovieGenre =>
            (occupation (fst (snd (fst row))), snd (snd (fst row)), mg_genre (snd row)))
         (Frame.dropna
            (fun row : Rating * (User * string) * MovieGenre =>
               occupation (fst (snd (fst row))))
            (ratings_with_genres ratings_df users_df movie_genres_df))).

Definition genre_entry_of (row : string * string * string * (Q * Z))
    : TopGenres.genre_entry :=
  {| TopGenres.genre := fst row;
     TopGenres.avg_rating := fst (snd row);
     TopGenres.rating_count := snd (snd row) |}.

(** The number of rows of [users_with_age_group] in a segment. *)
Definition segment_users (users_df : list User) (occupation age_group : string)
    : list (User * string) :=
  filter (fun ua : User * string =>
            String.eqb (Loader.occupation (fst ua)) occupation
            && String.eqb (snd ua) age_group)
         (users_with_age_group users_df).

(** The dictionary appended for one (occupation, age_group) group of
    [genre_stats]. *)
Definition segment_result (users_df : list User)
    (g : string * string * list (string * string * string * (Q * Z)))
    : TopGenres.t :=
  let occupation := fst (fst g) in
  let age_group := snd (fst g) in
  let group_data := snd g in
  let top_genres :=
    Frame.head 3 (sort_desc (fun row => fst (snd row)) group_data) in
  {| TopGenres.occupation := occupation;
     TopGenres.age_group := age_group;
     TopGenres.top_genres := map genre_entry_of top_genres;
     TopGenres.total_users := len (segment_users users_df occupation age_group) |}.

Definition top_genres_by_occupation_age (ratings_df : list Rating)
    (users_df : list User) (movie_genres_df : list MovieGenre)
    : list TopGenres.t :=
  let results :=
    map (segment_result users_df)
        (Frame.groupby
           (fun row : string * string * string * (Q * Z) => fst (fst row))
           (genre_stats ratings_df users_df movie_genres_df)) in
  sort_asc (fun r => (TopGenres.occupation r, TopGenres.age_group r)) results.

(** The movie-genre frame is built from a list of row dictionaries; built
    from the empty list it has no columns, and merging on [movie_id]
    raises. *)
Definition analyze_top_genres_by_occupation_age (fs : FileSystem)
    : M (list TopGenres.t) :=
  t <- ensure_loaded fs
         (fun t => is_none (ratings_df t) || is_none (users_df t)
                   || is_none (movie_genres_df t)) ;;
  users_df <- lift (frame (users_df t)) ;;
  ratings_df <- lift (frame (ratings_df t)) ;;
  movie_genres_df <- lift (frame (movie_genres_df t)) ;;
  match movie_genres_df with
  | [] => raise KeyError
  | _ => ret (top_genres_by_occupation_age ratings_df users_df movie_genres_df)
  end.

(** *** Task 4: similar movies *)

(** [numpy.float64] values: a real number, an infinity, or NaN.  The
    operations of this module are exact on the finite values; rounding is
    added by [round_fl] below.  The sign of zero is not modelled. *)
Module NP.

Inductive float : Type :=
| NaN
| Inf (negative : bool)
| Fin (x : R).

Definition Req_b (x y : R) : bool := if Req_dec_T x y then true else false.
Definition Rlt_b (x y : R) : bool := if Rlt_dec x y then true else false.
Definition Rle_b (x y : R) : bool := if Rle_dec x y then true else false.

Definition isnan (a : float) : bool :=
  match a with NaN => true | _ => false end.

Definition add (a b : float) : float :=
  match a, b with
  | NaN, _ | _, NaN => NaN
  | Inf s, Inf s' => if Bool.eqb s s' then Inf s else NaN
  | Inf s, Fin _ | Fin _, Inf s => Inf s
  | Fin x, Fin y => Fin (x + y)
  end.

(** Division: [0/0] is NaN, a non-zero number over zero is an infinity. *)
Definition div (a b : float) : float :=
  match a, b with
  | NaN, _ | _, NaN => NaN
  | Inf _, Inf _ => NaN
  | Inf s, Fin y => Inf (xorb s (Rlt_b y 0))
  | Fin _, Inf _ => Fin 0
  | Fin x, Fin y =>
      if Req_b y 0
      then (if Req_b x 0 then NaN else Inf (Rlt_b x 0))
      else Fin (x / y)
  end.

Definition sqrt (a : float) : float :=
  match a with
  | NaN => NaN
  | Inf true => NaN
  | Inf false => Inf false
  | Fin x => if Rlt_b x 0 then NaN else Fin (R_sqrt.sqrt x)
  end.

(** [numpy.clip(a, lo, hi)]; NaN stays NaN. *)
Definition clip (lo hi : R) (a : float) : float :=
  match a with
  | NaN => NaN
  | Inf true => Fin lo
  | Inf false => Fin hi
  | Fin x => Fin (Rmin hi (Rmax lo x))
  end.

(** [a <= b]; false when either side is NaN. *)
Definition leb (a b : float) : bool :=
  match a, b with
  | NaN, _ | _, NaN => false
  | Inf true, _ => true
  | _, Inf false => true
  | Inf false, _ => false
  | _, Inf true => false
  | Fin x, Fin y => Rle_b x y
  end.

Definition Rsum (l : list R) : R := fold_right Rplus 0%R l.

Definition mean (l : list Z) : R :=
  (Rsum (map IZR l) / INR (List.length l))%R.

(** Deviations from the mean. *)
Definition dev (l : list Z) : list R :=
  map (fun x => (IZR x - mean l)%R) l.

Definition dot (a b : list R) : R :=
  Rsum (map (fun p => (fst p * snd p)%R) (combine a b)).

(** An entry of [numpy.cov] (ddof = 1) for two columns of the same length,
    at least 2. *)
Definition cov (xs ys : list Z) : R :=
  (dot (dev xs) (dev ys) / (INR (List.length xs) - 1))%R.

(** [numpy.corrcoef(xs, ys)[0, 1]]: the covariance divided by the standard
    deviation of [xs], then by that of [ys], then clipped to [-1, 1]. *)
Definition corrcoef (xs ys : list Z) : float :=
  let stddev_x := sqrt (Fin (cov xs xs)) in
  let stddev_y := sqrt (Fin (cov ys ys)) in
  clip (-1) 1 (div (div (Fin (cov xs ys)) stddev_x) stddev_y).

End NP.

Module Similar.
Record t := {
  movie_id : Z;
  title : string;
  similarity_score : NP.float;
  cooccurrence_count : Z;
  correlation : NP.float;
  release_date : string
}.
End Similar.

(** The value stored in [movie_similarities] for a movie. *)
Record similarity_data := {
  sd_similarity_score : NP.float;
  sd_cooccurrence_count : Z;
  sd_correlation : NP.float
}.

(** [d[k] = v] on an insertion-ordered dictionary. *)
Fixpoint dict_set {V} (k : Z) (v : V) (d : list (Z * V)) : list (Z * V) :=
  match d with
  | [] => [(k, v)]
  | (k', v') :: t => if k' =? k then (k, v) :: t else (k', v') :: dict_set k v t
  end.

(** What the search guarantees of a stored entry: a correlation in [-1, 1],
    the similarity [(c + 1) / 2] in [0, 1] and not below the similarity
    threshold, a co-occurrence count not below its threshold. *)
Definition within_thresholds (similarity_threshold : R) (cooccurrence_threshold : Z)
    (score corr : NP.float) (count : Z) : Prop :=
  exists s c : R,
    score = NP.Fin s /\ corr = NP.Fin c /\ s = ((c + 1) / 2)%R /\
    (0 <= s <= 1)%R /\ (-1 <= c <= 1)%R /\
    (similarity_threshold <= s)%R /\ cooccurrence_threshold <= count.

Definition stored_within (similarity_threshold : R) (cooccurrence_threshold : Z)
    (e : Z * similarity_data) : Prop :=
  within_thresholds similarity_threshold cooccurrence_threshold
    (sd_similarity_score (snd e)) (sd_correlation (snd e))
    (sd_cooccurrence_count (snd e)).

Definition MovieNotFound : string := "Could not find movie matching".

Section Similarity.
(** [title.str.contains(pattern, case=False, na=False)] of pandas, a
    case-insensitive regular expression search; any matcher will do.  Here
    every pattern is taken to compile; a pattern that is not a regular
    expression, on which pandas raises, is covered by [find_target_re]
    below. *)
Variable str_contains : string -> string -> bool.

Definition title_match (movies_df : list Movie) (pattern : string) : list Movie :=
  filter (fun m => str_contains pattern (m_title m)) movies_df.

(** The target of the search: the first row matching the given title,
    and when no row does, the first row matching the fixed alternative. *)
Definition find_target (movies_df : list Movie) (target_movie : string)
    : Result Movie :=
  let target_movie_match := title_match movies_df target_movie in
  let target_movie_match :=
    match target_movie_match with
    | [] => title_match movies_df "Usual Suspects"
    | _ => target_movie_match
    end in
  match target_movie_match with
  | [] => Raise MovieNotFound
  | m :: _ => Ok m
  end.

(** The paired ratings of the users who rated both movies. *)
Definition merged_ratings (target_movie_ratings movie_ratings : list Rating)
    (common_users : list Z) : list (Rating * Rating) :=
  let target_ratings_common :=
    filter (fun r => Frame.mem (r_user_id r) common_users) target_movie_ratings in
  let movie_ratings_common :=
    filter (fun r => Frame.mem (r_user_id r) common_users) movie_ratings in
  Frame.merge r_user_id r_user_id target_ratings_common movie_ratings_common.

(** The correlation and the similarity score of two paired columns. *)
Definition correlation_of (target_vals movie_vals : list Z) : NP.float :=
  let correlation := NP.corrcoef target_vals movie_vals in
  if NP.isnan correlation then NP.Fin 0 else correlation.

Definition similarity_of (correlation : NP.float) : NP.float :=
  NP.div (NP.add correlation (NP.Fin 1)) (NP.Fin 2).

(** One turn of the loop over the co-rated movies. *)
Definition score_movie (target_movie_ratings : list Rating) (target_users : list Z)
    (similarity_threshold : R) (cooccurrence_threshold : Z)
    (movie_similarities : list (Z * similarity_data))
    (g : Z * list Rating) : list (Z * similarity_data) :=
  let (movie_id, movie_ratings) := g in
  let common_users :=
    Frame.inter (Frame.to_set (map r_user_id movie_ratings)) target_users in
  let cooccurrence_count := len common_users in
  if cooccurrence_count <? cooccurrence_threshold then movie_similarities
  else
    let merged := merged_ratings target_movie_ratings movie_ratings common_users in
    if len merged <? 2 then movie_similarities
    else
      let target_vals := map (fun p : Rating * Rating => rating (fst p)) merged in
      let movie_vals := map (fun p : Rating * Rating => rating (snd p)) merged in
      let correlation := correlation_of target_vals movie_vals in
      let similarity_score := similarity_of correlation in
      if NP.leb (NP.Fin similarity_threshold) similarity_score
      then dict_set movie_id
             {| sd_similarity_score := similarity_score;
                sd_cooccurrence_count := cooccurrence_count;
                sd_correlation := correlation |}
             movie_similarities
      else movie_similarities.

Definition movie_similarities (ratings_df : list Rating) (target_movie_id : Z)
    (similarity_threshold : R) (cooccurrence_threshold : Z)
    : list (Z * similarity_data) :=
  let target_movie_ratings :=
    filter (fun r => r_movie_id r =? target_movie_id) ratings_df in
  let target_users := Frame.to_set (map r_user_id target_movie_ratings) in
  let corated_movies :=
    filter (fun r => negb (r_movie_id r =? target_movie_id))
      (filter (fun r => Frame.mem (r_user_id r) target_users) ratings_df) in
  fold_left
    (score_movie target_movie_ratings target_users
                 similarity_threshold cooccurrence_threshold)
    (Frame.groupby r_movie_id corated_movies)
    [].

Definition sorted_movies (sims : list (Z * similarity_data)) (top_n : Z)
    : list (Z * similarity_data) :=
  Frame.head top_n
    (Frame.sort_by
       (fun x y => NP.leb (sd_similarity_score (snd y)) (sd_similarity_score (snd x)))
       sims).

(** The dictionary appended for one entry of [sorted_movies]. *)
Definition similar_result (movies_df : list Movie) (item : Z * similarity_data)
    : Result Similar.t :=
  match movie_info movies_df (fst item) with
  | Raise e => Raise e
  | Ok info =>
      Ok {| Similar.movie_id := fst item;
            Similar.title := m_title info;
            Similar.similarity_score := sd_similarity_score (snd item);
            Similar.cooccurrence_count := sd_cooccurrence_count (snd item);
            Similar.correlation := sd_correlation (snd item);
            Similar.release_date :=
              release_date_or_unknown (m_release_date info) |}
  end.

Definition similar_movies (ratings_df : list Rating) (movies_df : list Movie)
    (target_movie : string) (similarity_threshold : R)
    (cooccurrence_threshold top_n : Z) : Result (list Similar.t) :=
  match find_target movies_df target_movie with
  | Raise e => Raise e
  | Ok target =>
      for_each (similar_result movies_df)
        (sorted_movies
           (movie_similarities ratings_df (m_movie_id target)
                               similarity_threshold cooccurrence_threshold)
           top_n)
  end.

Definition find_similar_movies (fs : FileSystem) (target_movie : string)
    (similarity_threshold : R) (cooccurrence_threshold top_n : Z)
    : M (list Similar.t) :=
  t <- ensure_loaded fs
         (fun t => is_none (ratings_df t) || is_none (movies_df t)) ;;
  movies_df <- lift (frame (movies_df t)) ;;
  ratings_df <- lift (frame (ratings_df t)) ;;
  lift (similar_movies ratings_df movies_df target_movie
          similarity_threshold cooccurrence_threshold top_n).
End Similarity.

(** *** The search in floating-point arithmetic

    The definitions above compute the correlation and the similarity score
    on exact real numbers, and take the title matcher to be a total test.
    The code computes in binary64, where every operation rounds its result
    and the sums inside [numpy.corrcoef] are taken in an order that depends
    on the build of numpy; and [str.contains] compiles its pattern as a
    regular expression, which fails for some patterns.  The search is
    defined here once more with these three things left open:
    - [compile pattern] is the test of a title against [pattern] compiled
      as a case-insensitive regular expression, and [None] for a pattern
      that does not compile, on which pandas raises [re.error];
    - [corr xs ys] is the entry [0, 1] of the matrix of [numpy.corrcoef]
      before numpy clips it to [-1, 1], whatever the rounding made of it;
    - [rnd x] is the number of the format that a real result [x] is
      rounded to.
    The exact search is the instance where every pattern compiles, [corr]
    is exact and [rnd] changes nothing. *)

Definition ReError : string := "re.error".

(** What the search guarantees of a record: a correlation in [-1, 1], a
    similarity score in [0, 1] that is the rounded [correlation + 1] halved
    and is not below the similarity threshold, a co-occurrence count not
    below its threshold. *)
Definition within_bounds (rnd : R -> R) (similarity_threshold : R)
    (cooccurrence_threshold : Z) (score corr : NP.float) (count : Z) : Prop :=
  exists s c : R,
    score = NP.Fin s /\ corr = NP.Fin c /\ s = (rnd (c + 1) / 2)%R /\
    (0 <= s <= 1)%R /\ (-1 <= c <= 1)%R /\
    (similarity_threshold <= s)%R /\ cooccurrence_threshold <= count.

Section FloatingPoint.
Variable compile : string -> option (string -> bool).
Variable corr : list Z -> list Z -> NP.float.
Variable rnd : R -> R.

(** [movies_df[movies_df['title'].str.contains(pattern, case=False,
    na=False)]]. *)
Definition title_match_re (movies_df : list Movie) (pattern : string)
    : Result (list Movie) :=
  match compile pattern with
  | None => Raise ReError
  | Some matches => Ok (filter (fun m => matches (m_title m)) movies_df)
  end.

Definition find_target_re (movies_df : list Movie) (target_movie : string)
    : Result Movie :=
  match title_match_re movies_df target_movie with
  | Raise e => Raise e
  | Ok (m :: _) => Ok m
  | Ok [] =>
      match title_match_re movies_df "Usual Suspects" with
      | Raise e => Raise e
      | Ok (m :: _) => Ok m
      | Ok [] => Raise MovieNotFound
      end
  end.

(** [numpy.corrcoef(xs, ys)[0, 1]], and the correlation the loop keeps. *)
Definition corrcoef_fl (xs ys : list Z) : NP.float :=
  NP.clip (-1) 1 (corr xs ys).

Definition correlation_fl (target_vals movie_vals : list Z) : NP.float :=
  let correlation := corrcoef_fl target_vals movie_vals in
  if NP.isnan correlation then NP.Fin 0 else correlation.

Definition round_fl (a : NP.float) : NP.float :=
  match a with NP.Fin x => NP.Fin (rnd x) | _ => a end.

(** [(correlation + 1) / 2]: the sum is rounded, the halving is exact. *)
Definition similarity_fl (correlation : NP.float) : NP.float :=
  NP.div (round_fl (NP.add correlation (NP.Fin 1))) (NP.Fin 2).

Definition score_movie_fl (target_movie_ratings : list Rating)
    (target_users : list Z) (similarity_threshold : R)
    (cooccurrence_threshold : Z)
    (movie_similarities : list (Z * similarity_data))
    (g : Z * list Rating) : list (Z * similarity_data) :=
  let (movie_id, movie_ratings) := g in
  let common_users :=
    Frame.inter (Frame.to_set (map r_user_id movie_ratings)) target_users in
  let cooccurrence_count := len common_users in
  if cooccurrence_count <? cooccurrence_threshold then movie_similarities
  else
    let merged := merged_ratings target_movie_ratings movie_ratings common_users in
    if len merged <? 2 then movie_similarities
    else
      let target_vals := map (fun p : Rating * Rating => rating (fst p)) merged in
      let movie_vals := map (fun p : Rating * Rating => rating (snd p)) merged in
      let correlation := correlation_fl target_vals movie_vals in
      let similarity_score := similarity_fl correlation in
      if NP.leb (NP.Fin similarity_threshold) similarity_score
      then dict_set movie_id
             {| sd_similarity_score := similarity_score;
                sd_cooccurrence_count := cooccurrence_count;
                sd_correlation := correlation |}
             movie_similarities
      else movie_similarities.

Definition movie_similarities_fl (ratings_df : list Rating) (target_movie_id : Z)
    (similarity_threshold : R) (cooccurrence_threshold : Z)
    : list (Z * similarity_data) :=
  let target_movie_ratings :=
    filter (fun r => r_movie_id r =? target_movie_id) ratings_df in
  let target_users := Frame.to_set (map r_user_id target_movie_ratings) in
  let corated_movies :=
    filter (fun r => negb (r_movie_id r =? target_movie_id))
      (filter (fun r => Frame.mem (r_user_id r) target_users) ratings_df) in
  fold_left
    (score_movie_fl target_movie_ratings target_users
                    similarity_threshold cooccurrence_threshold)
    (Frame.groupby r_movie_id corated_movies)
    [].

Definition similar_movies_fl (ratings_df : list Rating) (movies_df : list Movie)
    (target_movie : string) (similarity_threshold : R)
    (cooccurrence_threshold top_n : Z) : Result (list Similar.t) :=
  match find_target_re movies_df target_movie with
  | Raise e => Raise e
  | Ok target =>
      for_each (similar_result movies_df)
        (sorted_movies
           (movie_similarities_fl ratings_df (m_movie_id target)
                                  similarity_threshold cooccurrence_threshold)
           top_n)
  end.
End FloatingPoint.

(** ** A small dataset *)

Module Demo.

Definition lower_ascii (c : ascii) : ascii :=
  let n := nat_of_ascii c in
  if (Nat.leb 65 n && Nat.leb n 90)%bool then ascii_of_nat (n + 32) else c.

Fixpoint lower (s : string) : string :=
  match s with
  | EmptyString => EmptyString
  | String c t => String (lower_ascii c) (lower t)
  end.

Fixpoint substring_of (p s : string) : bool :=
  (String.prefix p s
   || match s with
      | EmptyString => false
      | String _ t => substring_of p t
      end)%bool.

(** A matcher for patterns without regular expression operators. *)
Definition icontains (pattern title : string) : bool :=
  substring_of (lower pattern) (lower title).

Definition user (id age : Z) (gender occupation : string) : User :=
  {| u_user_id := id; age := age; gender := gender;
     occupation := occupation; zip_code := "00000" |}.

Definition users : list User :=
  [ user 1 25 "M" "engineer"; user 2 35 "F" "engineer"; user 3 40 "M" "doctor" ].

Definition movies : list Movie :=
  [ {| m_movie_id := 1; m_title := "Usual Suspects, The (1995)";
       m_release_date := Some "14-Aug-1995"%string;
       flags := [0;0;0;0;0;0;1;0;0;0;0;0;0;0;0;0;1;0;0] |};
    {| m_movie_id := 2; m_title := "Toy Story (1995)";
       m_release_date := Some "01-Jan-1995"%string;
       flags := [0;0;0;1;1;1;0;0;0;0;0;0;0;0;0;0;0;0;0] |};
    {| m_movie_id := 3; m_title := "Untitled";
       m_release_date := None;
       flags := [1;0;0;0;0;0;0;0;0;0;0;0;0;0;0;0;0;0;0] |} ].

Definition rate (u m r : Z) : Rating :=
  {| r_user_id := u; r_movie_id := m; rating := r; timestamp := 0 |}.

Definition ratings : list Rating :=
  [ rate 1 1 1; rate 2 1 3; rate 3 1 5;
    rate 1 2 2; rate 2 2 3; rate 3 2 4;
    rate 1 3 4; rate 2 3 4 ].

Definition genres : list Genre :=
  [ {| g_genre := "unknown"; genre_id := 0 |};
    {| g_genre := "Action"; genre_id := 1 |} ].

Definition fs : FileSystem :=
  {| data_dir_exists := true;
     f_data := Content ratings;
     f_user := Content users;
     f_item := Content movies;
     f_genre := Content genres;
     f_occupation := Content ["doctor"; "engineer"]%string |}.

Definition movie_genres : list MovieGenre := get_movie_genres movies.

End Demo.


(** ** The display names of the genre columns ([get_movie_genres]) *)

Module GenreNames.

(** The genre indicator columns of the movies frame, in file order. *)
Definition genre_columns : list string :=
  [ "unknown"; "action"; "adventure"; "animation"; "childrens"; "comedy";
    "crime"; "documentary"; "drama"; "fantasy"; "film_noir"; "horror";
    "musical"; "mystery"; "romance"; "sci_fi"; "thriller"; "war";
    "western" ]%string.

Definition is_lower (c : ascii) : bool :=
  (Nat.leb 97 (nat_of_ascii c) && Nat.leb (nat_of_ascii c) 122)%bool.

Definition is_upper (c : ascii) : bool :=
  (Nat.leb 65 (nat_of_ascii c) && Nat.leb (nat_of_ascii c) 90)%bool.

Definition to_upper (c : ascii) : ascii :=
  if is_lower c then ascii_of_nat (nat_of_ascii c - 32) else c.

Definition to_lower (c : ascii) : ascii :=
  if is_upper c then ascii_of_nat (nat_of_ascii c + 32) else c.

(** [s.title()] on ASCII text: a letter that follows a letter is put in
    lower case, any other letter in upper case. *)
Fixpoint title_from (previous_is_cased : bool) (s : string) : string :=
  match s with
  | EmptyString => EmptyString
  | String c t =>
      if (is_lower c || is_upper c)%bool
      then String (if previous_is_cased then to_lower c else to_upper c)
                  (title_from true t)
      else String c (title_from false t)
  end.

Definition title (s : string) : string := title_from false s.

(** [s.replace(a, b)] for single characters. *)
Fixpoint replace (a b : ascii) (s : string) : string :=
  match s with
  | EmptyString => EmptyString
  | String c t => String (if Ascii.eqb c a then b else c) (replace a b t)
  end.

(** The genre name [get_movie_genres] derives from a column name. *)
Definition display_name (genre_col : string) : string :=
  let genre_name := title (replace "_" "-" genre_col) in
  if String.eqb genre_name "Sci-Fi" then "Sci-Fi"
  else if String.eqb genre_name "Film-Noir" then "Film-Noir"
  else if String.eqb genre_name "Childrens" then "Children's"
  else replace "-" " " genre_name.

End GenreNames.

(** ** The summary of the four analyses ([get_analysis_summary]) *)

Module Summary.
(** The summary dictionary, the three sub-dictionaries flattened.  The
    [avg_rating_range] entry, a string of two ratings formatted with two
    decimals, is left out. *)
Record t := {
  total_occupations : Z;
  highest_avg_age_occupation : option string;
  lowest_avg_age_occupation : option string;
  total_qualified_movies : Z;
  highest_rated_movie : option string;
  total_combinations : Z;
  unique_occupations : Z;
  unique_age_groups : Z;
  similar_movies_found : Z;
  target_movie : string;
  highest_similarity : option NP.float
}.
End Summary.

(** [len(set(...))] on strings. *)
Definition count_distinct (l : list string) : Z :=
  len (nodup string_dec l).

(** [l[0] if l else None] and [l[-1] if l else None], through a field. *)
Definition first_of {A B} (field : A -> B) (l : list A) : option B :=
  match l with [] => None | x :: _ => Some (field x) end.

Definition last_of {A B} (field : A -> B) (l : list A) : option B :=
  match l with [] => None | x :: t => Some (field (last t x)) end.

Definition summary_of (mean_age_results : list MeanAge.t)
    (top_movies_results : list TopMovie.t)
    (top_genres_results : list TopGenres.t)
    (similar_movies_results : list Similar.t) : Summary.t :=
  {| Summary.total_occupations := len mean_age_results;
     Summary.highest_avg_age_occupation :=
       first_of MeanAge.occupation mean_age_results;
     Summary.lowest_avg_age_occupation :=
       last_of MeanAge.occupation mean_age_results;
     Summary.total_qualified_movies := len top_movies_results;
     Summary.highest_rated_movie := first_of TopMovie.title top_movies_results;
     Summary.total_combinations := len top_genres_results;
     Summary.unique_occupations :=
       count_distinct (map TopGenres.occupation top_genres_results);
     Summary.unique_age_groups :=
       count_distinct (map TopGenres.age_group top_genres_results);
     Summary.similar_movies_found := len similar_movies_results;
     Summary.target_movie := "Usual Suspects, The (1995)";
     Summary.highest_similarity :=
       first_of Similar.similarity_score similar_movies_results |}.

Section AnalysisSummary.
Variable str_contains : string -> string -> bool.

(** The four analyses run in turn with their default arguments; the first
    that raises ends the summary. *)
Definition get_analysis_summary (fs : FileSystem) : M Summary.t :=
  mean_age_results <- analyze_mean_age_by_occupation fs ;;
  top_movies_results <- analyze_top_rated_movies fs 35 20 ;;
  top_genres_results <- analyze_top_genres_by_occupation_age fs ;;
  similar_movies_results <-
    find_similar_movies str_contains fs "Usual Suspects, The (1995)"
      (95 / 100)%R 50 10 ;;
  ret (summary_of mean_age_results top_movies_results top_genres_results
         similar_movies_results).
End AnalysisSummary.

(** The globals after a load of the given file contents. *)
Definition loaded_globals (r : list Rating) (u : list User) (m : list Movie)
    (gs : list Genre) (o : list string) : Globals :=
  {| RATINGS_DF := Some r; USERS_DF := Some u; MOVIES_DF := Some m;
     GENRES_DF := Some gs; OCCUPATIONS_DF := Some o;
     MOVIE_GENRES_DF := Some (get_movie_genres m) |}.

(** The data directory with all files in place. *)
Definition files (r : list Rating) (u : list User) (m : list Movie)
    (gs : list Genre) (o : list string) : FileSystem :=
  {| data_dir_exists := true; f_data := Content r; f_user := Content u;
     f_item := Content m; f_genre := Content gs; f_occupation := Content o |}.

(** The users who rated a movie, and the users who rated two movies. *)
Definition raters (ratings_df : list Rating) (movie_id : Z) : list Z :=
  Frame.to_set (map r_user_id (filter (fun x => r_movie_id x =? movie_id) ratings_df)).

Definition common_raters (ratings_df : list Rating) (movie_id target_movie_id : Z)
    : list Z :=
  Frame.inter (raters ratings_df movie_id) (raters ratings_df target_movie_id).

(** The result of the search on the small dataset, for the target
    "usual suspects", thresholds 0.5 and 2, and [top_n] 10. *)
Module Sample.
Definition similar : list Similar.t :=
  [ {| Similar.movie_id := 2; Similar.title := "Toy Story (1995)";
       Similar.similarity_score := NP.Fin 1;
       Similar.cooccurrence_count := 3;
       Similar.correlation := NP.Fin 1;
       Similar.release_date := "01-Jan-1995" |};
    {| Similar.movie_id := 3; Similar.title := "Untitled";
       Similar.similarity_score := NP.Fin (1 / 2);
       Similar.cooccurrence_count := 2;
       Similar.correlation := NP.Fin 0;
       Similar.release_date := "Unknown" |} ].
End Sample.

(** * Properties *)

(** ** Ordered keys *)

Lemma ascii_compare_refl (a : ascii) : Ascii.compare a a = Eq.
Proof. unfold Ascii.compare. apply N.compare_refl. Qed.

Lemma ascii_compare_lt_trans (a b c : ascii) :
  Ascii.compare a b = Lt -> Ascii.compare b c = Lt -> Ascii.compare a c = Lt.
Proof.
  unfold Ascii.compare. rewrite !N.compare_lt_iff. apply N.lt_trans.
Qed.

Lemma string_compare_lt_trans (a b c : string) :
  String.compare a b = Lt -> String.compare b c = Lt -> String.compare a c = Lt.
Proof.
  revert b c. induction a as [|x a IH]; intros [|y b] [|z c]; simpl; try congruence.
  destruct (Ascii.compare x y) eqn:Hxy; try discriminate;
    destruct (Ascii.compare y z) eqn:Hyz; try discriminate; intros H1 H2.
  - apply Ascii.compare_eq_iff in Hxy, Hyz. subst.
    rewrite ascii_compare_refl. eauto.
  - apply Ascii.compare_eq_iff in Hxy. subst. now rewrite Hyz.
  - apply Ascii.compare_eq_iff in Hyz. subst. now rewrite Hxy.
  - now rewrite (ascii_compare_lt_trans _ _ _ Hxy Hyz).
Qed.

Lemma string_compare_refl (a : string) : String.compare a a = Eq.
Proof.
  induction a as [|x a IH]; simpl; [reflexivity|].
  now rewrite ascii_compare_refl.
Qed.

#[global] Instance OrdLaws_Z : OrdLaws Z.
Proof.
  split; simpl.
  - apply Z.compare_eq_iff.
  - intros a b. apply Z.compare_antisym.
  - intros a b c. rewrite !Z.compare_lt_iff. apply Z.lt_trans.
Qed.

#[global] Instance OrdLaws_string : OrdLaws string.
Proof.
  split; simpl.
  - intros a b. split; [apply String.compare_eq_iff|].
    intros ->. apply string_compare_refl.
  - intros a b. apply String.compare_antisym.
  - apply string_compare_lt_trans.
Qed.

Section OrdFacts.
Context {K : Type} `{OrdLaws K}.

Lemma cmp_refl (a : K) : cmp a a = Eq.
Proof. now apply cmp_eq. Qed.

Lemma cmp_gt_lt (a b : K) : cmp a b = Gt <-> cmp b a = Lt.
Proof. rewrite (cmp_antisym a b). destruct (cmp a b); simpl; split; congruence. Qed.

Lemma key_eqb_eq (a b : K) : key_eqb a b = true <-> a = b.
Proof.
  unfold key_eqb. rewrite <- cmp_eq. destruct (cmp a b); split; congruence.
Qed.

Lemma key_lt_irrefl (a : K) : ~ key_lt a a.
Proof. unfold key_lt. rewrite cmp_refl. discriminate. Qed.

Lemma key_lt_trans (a b c : K) : key_lt a b -> key_lt b c -> key_lt a c.
Proof. apply cmp_trans. Qed.

Lemma key_ltb_false_le (a b : K) : key_ltb a b = false -> a = b \/ key_lt b a.
Proof.
  unfold key_ltb, key_lt. destruct (cmp a b) eqn:E; try discriminate; intros _.
  - left. now apply cmp_eq.
  - right. now apply cmp_gt_lt.
Qed.
End OrdFacts.

#[global] Instance OrdLaws_pair (A B : Type) `{OrdLaws A} `{OrdLaws B} : OrdLaws (A * B).
Proof.
  split; simpl.
  - intros [a1 b1] [a2 b2]; simpl. destruct (cmp a1 a2) eqn:E.
    + apply cmp_eq in E. subst. rewrite cmp_eq. split; congruence.
    + split; [discriminate|]. intros [= -> _]. rewrite cmp_refl in E. discriminate.
    + split; [discriminate|]. intros [= -> _]. rewrite cmp_refl in E. discriminate.
  - intros [a1 b1] [a2 b2]; simpl. rewrite (cmp_antisym a1 a2).
    destruct (cmp a1 a2); simpl; auto. apply cmp_antisym.
  - intros [a1 b1] [a2 b2] [a3 b3]; simpl.
    destruct (cmp a1 a2) eqn:E12; try discriminate;
      destruct (cmp a2 a3) eqn:E23; try discriminate; intros Hb1 Hb2.
    + apply cmp_eq in E12, E23. subst. rewrite cmp_refl. eapply cmp_trans; eauto.
    + apply cmp_eq in E12. subst. now rewrite E23.
    + apply cmp_eq in E23. subst. now rewrite E12.
    + now rewrite (cmp_trans _ _ _ E12 E23).
Qed.

(** ** Grouping *)

Section GroupbyFacts.
Context {K : Type} `{OrdLaws K}.

Lemma insert_key_In (k x : K) (ks : list K) :
  In x (Frame.insert_key k ks) <-> x = k \/ In x ks.
Proof.
  induction ks as [|k' t IH]; simpl.
  - intuition.
  - destruct (cmp k k') eqn:E; simpl.
    + apply cmp_eq in E. subst. intuition.
    + intuition.
    + rewrite IH. intuition.
Qed.

Lemma sorted_keys_In (x : K) (l : list K) :
  In x (Frame.sorted_keys l) <-> In x l.
Proof.
  induction l as [|k t IH]; simpl; [tauto|].
  rewrite insert_key_In, IH. intuition.
Qed.

Lemma insert_key_sorted (k : K) (ks : list K) :
  StronglySorted key_lt ks -> StronglySorted key_lt (Frame.insert_key k ks).
Proof.
  induction 1 as [|k' t Hs IH Hall]; simpl.
  - repeat constructor.
  - destruct (cmp k k') eqn:E.
    + now constructor.
    + constructor; [now constructor|]. constructor; [exact E|].
      eapply Forall_impl; [|exact Hall]. intros z Hz. eapply key_lt_trans; eauto.
    + constructor; [exact IH|]. apply Forall_forall. intros z Hz.
      apply insert_key_In in Hz. destruct Hz as [->|Hz].
      * now apply cmp_gt_lt.
      * rewrite Forall_forall in Hall. auto.
Qed.

Lemma sorted_keys_sorted (l : list K) : StronglySorted key_lt (Frame.sorted_keys l).
Proof.
  induction l; simpl; [constructor | now apply insert_key_sorted].
Qed.

Lemma strictly_sorted_NoDup (l : list K) : StronglySorted key_lt l -> NoDup l.
Proof.
  induction 1 as [|k t Hs IH Hall]; constructor; auto.
  intros Hin. rewrite Forall_forall in Hall. exact (key_lt_irrefl k (Hall _ Hin)).
Qed.

Lemma groupby_keys {A} (key : A -> K) (rows : list A) :
  map fst (Frame.groupby key rows) = Frame.sorted_keys (map key rows).
Proof.
  unfold Frame.groupby. rewrite map_map. simpl. apply map_id.
Qed.

Lemma groupby_In {A} (key : A -> K) (rows : list A) (k : K) (g : list A) :
  In (k, g) (Frame.groupby key rows) <->
  In k (map key rows) /\ g = filter (fun r => key_eqb (key r) k) rows.
Proof.
  unfold Frame.groupby. rewrite in_map_iff. split.
  - intros (k' & Heq & Hin). inversion Heq; subst.
    rewrite sorted_keys_In in Hin. auto.
  - intros (Hin & ->). exists k. split; [reflexivity|]. now rewrite sorted_keys_In.
Qed.

Lemma groupby_keys_sorted {A} (key : A -> K) (rows : list A) :
  StronglySorted key_lt (map fst (Frame.groupby key rows)).
Proof. rewrite groupby_keys. apply sorted_keys_sorted. Qed.

Lemma groupby_keys_NoDup {A} (key : A -> K) (rows : list A) :
  NoDup (map fst (Frame.groupby key rows)).
Proof. apply strictly_sorted_NoDup, groupby_keys_sorted. Qed.

Lemma groupby_group_nonempty {A} (key : A -> K) (rows : list A) (k : K) (g : list A) :
  In (k, g) (Frame.groupby key rows) -> g <> [].
Proof.
  rewrite groupby_In. intros (Hin & ->). apply in_map_iff in Hin.
  destruct Hin as (r & <- & Hr). intros Hnil.
  assert (Hf : In r (filter (fun r0 => key_eqb (key r0) (key r)) rows)).
  { apply filter_In. split; [exact Hr|]. now apply key_eqb_eq. }
  rewrite Hnil in Hf. exact Hf.
Qed.
End GroupbyFacts.

(** ** Sorting and truncation *)

Lemma StronglySorted_map {A B} (f : A -> B) (R : B -> B -> Prop) (l : list A) :
  StronglySorted R (map f l) <-> StronglySorted (fun x y => R (f x) (f y)) l.
Proof.
  induction l as [|x t IH]; simpl.
  - split; constructor.
  - split; intros Hs; inversion Hs; subst; constructor; try (now apply IH).
    + rewrite Forall_map in *. assumption.
    + now rewrite Forall_map.
Qed.

Lemma StronglySorted_impl {A} (R R' : A -> A -> Prop) (l : list A) :
  (forall x y, In x l -> In y l -> R x y -> R' x y) ->
  StronglySorted R l -> StronglySorted R' l.
Proof.
  intros Himp Hs. induction Hs as [|x t Hs IH Hall]; constructor.
  - apply IH. intros; apply Himp; simpl; auto.
  - rewrite Forall_forall in *. intros y Hy. apply Himp; simpl; auto.
Qed.

Lemma StronglySorted_app_l {A} (R : A -> A -> Prop) (l1 l2 : list A) :
  StronglySorted R (l1 ++ l2) -> StronglySorted R l1.
Proof.
  induction l1 as [|x t IH]; simpl; intros Hs; [constructor|].
  inversion Hs; subst. constructor; auto.
  rewrite Forall_app in *. tauto.
Qed.

Section SortFacts.
Context {A : Type} (le : A -> A -> bool).

Lemma insert_by_perm (x : A) (l : list A) :
  Permutation (Frame.insert_by le x l) (x :: l).
Proof.
  induction l as [|y t IH]; simpl; [reflexivity|].
  destruct (le x y); [reflexivity|].
  rewrite IH. apply perm_swap.
Qed.

Lemma sort_by_perm (l : list A) : Permutation (Frame.sort_by le l) l.
Proof.
  induction l as [|x t IH]; simpl; [reflexivity|].
  rewrite insert_by_perm. now constructor.
Qed.

Lemma sort_by_In (x : A) (l : list A) : In x (Frame.sort_by le l) <-> In x l.
Proof.
  split; apply Permutation_in; [|symmetry]; apply sort_by_perm.
Qed.

Hypothesis le_total : forall x y, le x y = false -> le y x = true.
Hypothesis le_trans : forall x y z, le x y = true -> le y z = true -> le x z = true.

Lemma insert_by_lex (R0 : A -> A -> Prop) (x : A) (l : list A) :
  StronglySorted (Frame.lex le R0) l -> Forall (R0 x) l ->
  StronglySorted (Frame.lex le R0) (Frame.insert_by le x l).
Proof.
  induction 1 as [|y t Hs IH Hall]; intros Hx; simpl.
  - repeat constructor.
  - inversion Hx as [|? ? Hxy Hxt]; subst.
    destruct (le x y) eqn:E.
    + constructor; [now constructor|].
      constructor; [split; auto|].
      rewrite Forall_forall in *. intros z Hz. split; [|auto].
      eapply le_trans; [exact E|]. apply (Hall z Hz).
    + constructor; [auto|].
      apply Forall_forall. intros z Hz.
      apply (Permutation_in _ (insert_by_perm x t)) in Hz.
      destruct Hz as [<-|Hz].
      * split; [now apply le_total|]. congruence.
      * rewrite Forall_forall in Hall. auto.
Qed.

Lemma sort_by_lex (R0 : A -> A -> Prop) (l : list A) :
  StronglySorted R0 l -> StronglySorted (Frame.lex le R0) (Frame.sort_by le l).
Proof.
  induction 1 as [|x t Hs IH Hall]; simpl; [constructor|].
  apply insert_by_lex; [exact IH|].
  rewrite Forall_forall in *. intros z Hz. apply Hall.
  rewrite sort_by_In in Hz. exact Hz.
Qed.

Lemma sort_by_sorted (l : list A) :
  StronglySorted (fun x y => le x y = true) (Frame.sort_by le l).
Proof.
  assert (Hs : StronglySorted (Frame.lex le (fun _ _ => True)) (Frame.sort_by le l)).
  { apply sort_by_lex. induction l; constructor; auto.
    apply Forall_forall. auto. }
  eapply StronglySorted_impl; [|exact Hs]. intros x y _ _ [Hle _]. exact Hle.
Qed.
End SortFacts.

Section HeadFacts.
Context {A : Type}.

Lemma head_prefix (n : Z) (l : list A) : exists rest, l = Frame.head n l ++ rest.
Proof.
  unfold Frame.head. destruct (0 <=? n); eexists; symmetry; apply firstn_skipn.
Qed.

Lemma head_length (n : Z) (l : list A) :
  0 <= n -> Z.of_nat (List.length (Frame.head n l)) <= n.
Proof.
  intros Hn. unfold Frame.head. apply Z.leb_le in Hn as Hb. rewrite Hb.
  pose proof (firstn_le_length (Z.to_nat n) l) as Hl.
  rewrite length_firstn. lia.
Qed.

Lemma head_In (n : Z) (l : list A) (x : A) : In x (Frame.head n l) -> In x l.
Proof.
  destruct (head_prefix n l) as [rest Hrest]. intros Hin.
  rewrite Hrest. apply in_or_app. now left.
Qed.

Lemma head_sorted (R : A -> A -> Prop) (n : Z) (l : list A) :
  StronglySorted R l -> StronglySorted R (Frame.head n l).
Proof.
  destruct (head_prefix n l) as [rest Hrest]. intros Hs.
  rewrite Hrest in Hs. now apply StronglySorted_app_l in Hs.
Qed.

Lemma head_NoDup_map {B} (f : A -> B) (n : Z) (l : list A) :
  NoDup (map f l) -> NoDup (map f (Frame.head n l)).
Proof.
  destruct (head_prefix n l) as [rest Hrest]. intros Hnd.
  rewrite Hrest, map_app in Hnd. now apply NoDup_app_remove_r in Hnd.
Qed.
End HeadFacts.

(** ** Loops that may raise *)

Lemma for_each_Ok {A B} (f : A -> Result B) (l : list A) (ys : list B) :
  for_each f l = Ok ys -> Forall2 (fun x y => f x = Ok y) l ys.
Proof.
  revert ys. induction l as [|x t IH]; simpl; intros ys.
  - intros [= <-]. constructor.
  - destruct (f x) as [y|e] eqn:E; [|discriminate].
    destruct (for_each f t) as [ys'|e]; [|discriminate].
    intros [= <-]. constructor; auto.
Qed.

Lemma Forall2_map_eq {A B C} (P : A -> B -> Prop) (f : A -> C) (g : B -> C)
    (l : list A) (ys : list B) :
  (forall x y, P x y -> g y = f x) -> Forall2 P l ys -> map g ys = map f l.
Proof.
  intros HP. induction 1; simpl; [reflexivity|]. f_equal; auto.
Qed.

(** ** Statistics *)

Lemma fold_min_spec (x : Z) (t : list Z) :
  In (fold_right Z.min x t) (x :: t) /\
  Forall (fun y => fold_right Z.min x t <= y) (x :: t).
Proof.
  induction t as [|y t [Hin Hall]]; simpl.
  - split; [auto|]. repeat constructor. lia.
  - split.
    + destruct (Z.min_spec y (fold_right Z.min x t)) as [[_ ->]|[_ ->]]; simpl in *; tauto.
    + inversion Hall as [|? ? Hx Ht]; subst.
      constructor; [lia|]. constructor; [lia|].
      eapply Forall_impl; [|exact Ht]. simpl. intros; lia.
Qed.

Lemma fold_max_spec (x : Z) (t : list Z) :
  In (fold_right Z.max x t) (x :: t) /\
  Forall (fun y => y <= fold_right Z.max x t) (x :: t).
Proof.
  induction t as [|y t [Hin Hall]]; simpl.
  - split; [auto|]. repeat constructor. lia.
  - split.
    + destruct (Z.max_spec y (fold_right Z.max x t)) as [[_ ->]|[_ ->]]; simpl in *; tauto.
    + inversion Hall as [|? ? Hx Ht]; subst.
      constructor; [lia|]. constructor; [lia|].
      eapply Forall_impl; [|exact Ht]. simpl. intros; lia.
Qed.

Lemma min_spec (l : list Z) :
  l <> [] -> In (Stats.min l) l /\ Forall (fun y => Stats.min l <= y) l.
Proof. destruct l as [|x t]; [congruence|]. intros _. apply fold_min_spec. Qed.

Lemma max_spec (l : list Z) :
  l <> [] -> In (Stats.max l) l /\ Forall (fun y => y <= Stats.max l) l.
Proof. destruct l as [|x t]; [congruence|]. intros _. apply fold_max_spec. Qed.

Lemma round_half_even_spec (q : Q) :
  (inject_Z (Stats.round_half_even q) - (1 # 2) <= q
   /\ q <= inject_Z (Stats.round_half_even q) + (1 # 2))%Q.
Proof.
  unfold Stats.round_half_even.
  pose proof (Qfloor_le q) as Hlo. pose proof (Qlt_floor q) as Hhi.
  rewrite inject_Z_plus in Hhi. change (inject_Z 1) with 1%Q in Hhi.
  destruct (Qcompare_spec (q - inject_Z (Qfloor q)) (1 # 2)) as [E|E|E];
    [destruct (Z.even (Qfloor q))| |];
    rewrite ?inject_Z_plus; change (inject_Z 1) with 1%Q;
    generalize dependent (inject_Z (Qfloor q)); intros f Hlo Hhi E; lra.
Qed.

Lemma pow10_pos (d : nat) : 0 < Stats.pow10 d.
Proof. unfold Stats.pow10. apply Z.pow_pos_nonneg; lia. Qed.

Lemma Qmake_pow10 (k : Z) (d : nat) :
  (Qmake k (Z.to_pos (Stats.pow10 d)) == inject_Z k / inject_Z (Stats.pow10 d))%Q.
Proof.
  rewrite Qmake_Qdiv. rewrite Z2Pos.id by apply pow10_pos. reflexivity.
Qed.

(** [round d q] is a multiple of [10^-d] at distance at most half a unit
    from [q]. *)
Lemma round_spec (d : nat) (q : Q) :
  exists k : Z,
    Stats.round d q = Qmake k (Z.to_pos (Stats.pow10 d)) /\
    (inject_Z k - (1 # 2) <= q * inject_Z (Stats.pow10 d)
     /\ q * inject_Z (Stats.pow10 d) <= inject_Z k + (1 # 2))%Q.
Proof.
  eexists. split; [reflexivity|]. apply round_half_even_spec.
Qed.

Lemma round2_near (q : Q) : (Qabs (Stats.round 2 q - q) <= 1 # 200)%Q.
Proof.
  destruct (round_spec 2 q) as (k & -> & Hlo & Hhi).
  change (Z.to_pos (Stats.pow10 2)) with 100%positive.
  change (inject_Z (Stats.pow10 2)) with (100 # 1)%Q in *.
  rewrite (Qmake_Qdiv k 100). change (inject_Z (Z.pos 100)) with (100 # 1)%Q.
  unfold Qdiv. change (/ (100 # 1))%Q with (1 # 100)%Q.
  apply Qabs_Qle_condition. split; lra.
Qed.

Lemma round3_near (q : Q) : (Qabs (Stats.round 3 q - q) <= 1 # 2000)%Q.
Proof.
  destruct (round_spec 3 q) as (k & -> & Hlo & Hhi).
  change (Z.to_pos (Stats.pow10 3)) with 1000%positive.
  change (inject_Z (Stats.pow10 3)) with (1000 # 1)%Q in *.
  rewrite (Qmake_Qdiv k 1000). change (inject_Z (Z.pos 1000)) with (1000 # 1)%Q.
  unfold Qdiv. change (/ (1000 # 1))%Q with (1 # 1000)%Q.
  apply Qabs_Qle_condition. split; lra.
Qed.

Lemma Qfloor_sqrt_bounds (s : Q) :
  (0 <= s)%Q ->
  let m := Z.sqrt (Qfloor s) in
  0 <= m /\ (inject_Z (m * m) <= s)%Q /\ (s < inject_Z ((m + 1) * (m + 1)))%Q.
Proof.
  intros Hs m.
  assert (Hf : 0 <= Qfloor s).
  { change 0 with (Qfloor 0). now apply Qfloor_resp_le. }
  pose proof (Z.sqrt_spec (Qfloor s) Hf) as [Hlo Hhi]. fold m in Hlo, Hhi.
  pose proof (Qfloor_le s) as Hfl. pose proof (Qlt_floor s) as Hfh.
  split; [apply Z.sqrt_nonneg|]. split.
  - eapply Qle_trans; [|exact Hfl]. rewrite <- Zle_Qle. exact Hlo.
  - eapply Qlt_le_trans; [exact Hfh|]. rewrite <- Zle_Qle.
    unfold Z.succ in Hhi. lia.
Qed.

(** [round_sqrt_units d v] is the integer [k] nearest to [10^d * sqrt v]:
    [(2k - 1)^2 <= 4 * 10^(2d) * v <= (2k + 1)^2]. *)
Lemma round_sqrt_units_spec (d : nat) (v : Q) :
  (0 <= v)%Q -> Stats.nearest_to_sqrt d (Stats.round_sqrt_units d v) v.
Proof.
  intros Hv. unfold Stats.nearest_to_sqrt.
  set (k := Stats.round_sqrt_units d v).
  set (s := (inject_Z (4 * Stats.pow10 d * Stats.pow10 d) * v)%Q).
  assert (Hs : (0 <= s)%Q).
  { unfold s. apply Qmult_le_0_compat; [|exact Hv].
    change 0%Q with (inject_Z 0). rewrite <- Zle_Qle.
    pose proof (pow10_pos d). nia. }
  destruct (Qfloor_sqrt_bounds s Hs) as (Hm & Hlo & Hhi).
  unfold k, Stats.round_sqrt_units. fold s.
  set (m := Z.sqrt (Qfloor s)) in *.
  pose proof (Z.div_mod m 2 ltac:(lia)) as Hdm.
  pose proof (Zmod_even m) as Hev.
  destruct (Z.even m) eqn:Em.
  - assert (Hm2 : m = 2 * (m / 2)) by lia.
    split; [lia|]. split.
    + apply Qlt_le_weak. eapply Qlt_le_trans; [exact Hhi|].
      rewrite <- Zle_Qle. nia.
    + intros Hk. eapply Qle_trans; [|exact Hlo]. rewrite <- Zle_Qle. nia.
  - assert (Hm2 : m = 2 * (m / 2) + 1) by lia.
    destruct (Qeq_bool s (inject_Z (m * m))) eqn:Etie.
    + apply Qeq_bool_eq in Etie. destruct (Z.even (m / 2)).
      * split; [lia|]. split.
        -- rewrite Etie. rewrite <- Zle_Qle. nia.
        -- intros Hk. rewrite Etie. rewrite <- Zle_Qle. nia.
      * split; [lia|]. split.
        -- rewrite Etie. rewrite <- Zle_Qle. nia.
        -- intros Hk. rewrite Etie. rewrite <- Zle_Qle. nia.
    + split; [lia|]. split.
      * apply Qlt_le_weak. eapply Qlt_le_trans; [exact Hhi|].
        rewrite <- Zle_Qle. nia.
      * intros Hk. eapply Qle_trans; [|exact Hlo]. rewrite <- Zle_Qle. nia.
Qed.

Lemma Qsum_squares_nonneg (l : list Q) :
  (0 <= Stats.Qsum (map (fun x => x * x) l))%Q.
Proof.
  induction l as [|x t IH]; simpl; [apply Qle_refl|].
  assert (0 <= x * x)%Q by nra. lra.
Qed.

Lemma sq_dev_nonneg (l : list Z) : (0 <= Stats.sq_dev l)%Q.
Proof.
  unfold Stats.sq_dev.
  rewrite <- (map_map (fun x => inject_Z x - Stats.mean l)%Q (fun y => y * y)%Q).
  apply Qsum_squares_nonneg.
Qed.

Lemma var_nonneg (l : list Z) (v : Q) : Stats.var l = Some v -> (0 <= v)%Q.
Proof.
  unfold Stats.var. destruct (Stats.count l <? 2) eqn:E; [discriminate|].
  intros [= <-]. apply Z.ltb_ge in E.
  apply Qle_shift_div_l.
  - change 0%Q with (inject_Z 0). rewrite <- Zlt_Qlt. lia.
  - rewrite Qmult_0_l. apply sq_dev_nonneg.
Qed.

(** ** Task 3: age groups *)

(** C8: [get_age_group] sends every age to exactly one of five labels, by
    disjoint ranges: [20,25) to "20-25", [25,35) to "25-35", [35,45) to
    "35-45", 45 and above to "45+", and every age below 20 to "Under 20". *)
Theorem get_age_group_ranges (age : Z) :
  (get_age_group age = "20-25"%string <-> 20 <= age < 25) /\
  (get_age_group age = "25-35"%string <-> 25 <= age < 35) /\
  (get_age_group age = "35-45"%string <-> 35 <= age < 45) /\
  (get_age_group age = "45+"%string <-> 45 <= age) /\
  (get_age_group age = "Under 20"%string <-> age < 20).
Proof.
  unfold get_age_group.
  destruct (20 <=? age) eqn:E20; destruct (age <? 25) eqn:E25;
    destruct (25 <=? age) eqn:E25'; destruct (age <? 35) eqn:E35;
    destruct (35 <=? age) eqn:E35'; destruct (age <? 45) eqn:E45;
    destruct (age >=? 45) eqn:E45'; simpl;
    repeat match goal with
           | H : (_ <=? _) = _ |- _ =>
               first [apply Z.leb_le in H | apply Z.leb_gt in H]
           | H : (_ <? _) = _ |- _ =>
               first [apply Z.ltb_lt in H | apply Z.ltb_ge in H]
           | H : (_ >=? _) = _ |- _ =>
               rewrite Z.geb_leb in H;
               first [apply Z.leb_le in H | apply Z.leb_gt in H]
           end;
    try lia;
    repeat split; intros; try lia; try discriminate; try reflexivity.
Qed.

(** ** Task 1: mean age by occupation *)

Lemma string_key_eqb (a b : string) : key_eqb a b = String.eqb a b.
Proof.
  destruct (String.eqb_spec a b) as [->|Hne].
  - now apply key_eqb_eq.
  - destruct (key_eqb a b) eqn:E; [|reflexivity].
    apply key_eqb_eq in E. contradiction.
Qed.

Lemma mean_age_by_occupation_eq (users_df : list User) :
  mean_age_by_occupation users_df =
  sort_desc MeanAge.mean_age (map mean_age_result (occupation_age_stats users_df)).
Proof. reflexivity. Qed.

Lemma dropna_In {A} (key : A -> string) (rows : list A) (x : A) :
  In x (Frame.dropna key rows) <-> In x rows /\ Frame.isna (key x) = false.
Proof.
  unfold Frame.dropna. rewrite filter_In, negb_true_iff. tauto.
Qed.

(** Leaving out the rows without a key does not change the rows of a key
    that is not missing. *)
Lemma dropna_group {A} (key : A -> string) (rows : list A) (k : string) :
  Frame.isna k = false ->
  filter (fun r => String.eqb (key r) k) (Frame.dropna key rows)
  = filter (fun r => String.eqb (key r) k) rows.
Proof.
  intros Hk. unfold Frame.dropna.
  induction rows as [|x t IH]; simpl; [reflexivity|].
  destruct (Frame.isna (key x)) eqn:Ena; simpl.
  - destruct (String.eqb (key x) k) eqn:Ek; [|exact IH].
    apply String.eqb_eq in Ek. congruence.
  - destruct (String.eqb (key x) k); now rewrite IH.
Qed.

Lemma occupation_age_stats_keys (users_df : list User) :
  map (fun r => MeanAge.occupation (mean_age_result r)) (occupation_age_stats users_df)
  = Frame.sorted_keys (map occupation (Frame.dropna occupation users_df)).
Proof.
  unfold occupation_age_stats. rewrite map_map. simpl.
  rewrite <- (groupby_keys occupation (Frame.dropna occupation users_df)).
  reflexivity.
Qed.

Lemma Qle_bool_total (x y : Q) : Qle_bool x y = false -> Qle_bool y x = true.
Proof.
  intros Hf. apply Qle_bool_iff. destruct (Qlt_le_dec y x) as [Hlt|Hle].
  - now apply Qlt_le_weak.
  - apply Qle_bool_iff in Hle. congruence.
Qed.

Lemma Qle_bool_trans (x y z : Q) :
  Qle_bool x y = true -> Qle_bool y z = true -> Qle_bool x z = true.
Proof. rewrite !Qle_bool_iff. apply Qle_trans. Qed.

(** What [sort_desc] makes of a list ordered by [R0]. *)
Lemma sort_desc_lex {A} (key : A -> Q) (R0 : A -> A -> Prop) (l : list A) :
  StronglySorted R0 l ->
  StronglySorted
    (fun a b => (key b < key a)%Q \/ ((key a == key b)%Q /\ R0 a b))
    (sort_desc key l).
Proof.
  intros Hs. unfold sort_desc.
  eapply StronglySorted_impl; [|apply sort_by_lex with (R0 := R0)]; auto.
  - intros a b _ _ [Hle Htie]. rewrite Qle_bool_iff in *.
    destruct (Qlt_le_dec (key b) (key a)) as [Hlt|Hge]; [now left|].
    right. split; [now apply Qle_antisym|]. apply Htie. exact Hge.
  - intros x y. apply Qle_bool_total.
  - intros x y z Hxy Hyz. eapply Qle_bool_trans; eauto.
Qed.

Lemma sort_desc_sorted {A} (key : A -> Q) (l : list A) :
  StronglySorted (fun a b => (key b <= key a)%Q) (sort_desc key l).
Proof.
  unfold sort_desc.
  eapply StronglySorted_impl; [|apply sort_by_sorted].
  - intros a b _ _ Hle. now apply Qle_bool_iff.
  - intros x y. apply Qle_bool_total.
  - intros x y z Hxy Hyz. eapply Qle_bool_trans; eauto.
Qed.

Lemma sort_desc_In {A} (key : A -> Q) (x : A) (l : list A) :
  In x (sort_desc key l) <-> In x l.
Proof. apply sort_by_In. Qed.

Lemma sort_desc_perm {A} (key : A -> Q) (l : list A) :
  Permutation (sort_desc key l) l.
Proof. apply sort_by_perm. Qed.

(** C5: the output is ordered by mean age, descending; occupations of equal
    mean age are in the iteration order of the grouping, which is ascending
    by occupation name. *)
Theorem mean_age_order (users_df : list User) :
  StronglySorted
    (fun a b =>
       (MeanAge.mean_age b < MeanAge.mean_age a)%Q \/
       ((MeanAge.mean_age a == MeanAge.mean_age b)%Q /\
        key_lt (MeanAge.occupation a) (MeanAge.occupation b)))
    (mean_age_by_occupation users_df).
Proof.
  rewrite mean_age_by_occupation_eq. apply sort_desc_lex.
  apply (StronglySorted_map MeanAge.occupation key_lt).
  rewrite map_map, occupation_age_stats_keys. apply sorted_keys_sorted.
Qed.

Lemma occupation_group (users_df : list User) (occ : string) :
  In occ (map occupation users_df) -> Frame.isna occ = false ->
  In (occ, agg 2 (map age (filter (fun u => String.eqb (occupation u) occ) users_df)))
     (occupation_age_stats users_df).
Proof.
  intros Hin Hna. unfold occupation_age_stats. apply in_map_iff.
  exists (occ, filter (fun u => String.eqb (occupation u) occ) users_df).
  split; [reflexivity|]. apply groupby_In. split.
  - apply in_map_iff in Hin. destruct Hin as (u & Hocc & Hu).
    apply in_map_iff. exists u. split; [exact Hocc|].
    apply dropna_In. split; [exact Hu|]. now rewrite Hocc.
  - rewrite <- (dropna_group occupation users_df occ Hna).
    apply filter_ext. intros u. symmetry. apply string_key_eqb.
Qed.

Lemma agg_statistics (occ : string) (ages : list Z) :
  ages <> [] -> age_statistics (mean_age_result (occ, agg 2 ages)) ages.
Proof.
  intros Hne. unfold age_statistics, mean_age_result, agg; simpl.
  split; [reflexivity|]. split; [eexists; reflexivity|].
  split; [apply round2_near|].
  split; [now apply min_spec|]. split; [now apply max_spec|].
  unfold Stats.std_round, Stats.var, Stats.count. split.
  - intros Hn. apply Z.ltb_lt in Hn. now rewrite Hn.
  - intros Hn. assert (Hb : (Z.of_nat (List.length ages) <? 2) = false)
      by now apply Z.ltb_ge.
    rewrite Hb. simpl. eexists. split; [reflexivity|].
    apply round_sqrt_units_spec.
    apply (var_nonneg ages). unfold Stats.var, Stats.count. now rewrite Hb.
Qed.

Lemma occupation_age_stats_In (users_df : list User) (row : string * AggRow) :
  In row (occupation_age_stats users_df) ->
  Frame.isna (fst row) = false /\
  In (fst row) (map occupation users_df) /\
  snd row = agg 2 (map age (filter (fun u => String.eqb (occupation u) (fst row))
                              users_df)).
Proof.
  unfold occupation_age_stats. rewrite in_map_iff.
  intros ([k g] & <- & Hg). simpl. apply groupby_In in Hg. destruct Hg as [Hk ->].
  apply in_map_iff in Hk. destruct Hk as (u & <- & Hu).
  apply dropna_In in Hu. destruct Hu as [Hu Hna].
  split; [exact Hna|]. split; [now apply in_map|].
  rewrite <- (dropna_group occupation users_df (occupation u) Hna).
  do 2 f_equal. apply filter_ext. intros u'. apply string_key_eqb.
Qed.

(** C7, as the code has it: for every occupation of the users frame that is
    not a missing value there is a record with the mean age rounded to 2
    decimals, the size of the group, its minimum and maximum age, and as
    [std_dev] 0 for a group of fewer than two members and else the sample
    standard deviation rounded to 2 decimals.  The rows whose occupation is
    missing are in no group: every record is that of an occupation that is
    not missing, with the statistics of the rows of that occupation. *)
Theorem mean_age_statistics (users_df : list User) :
  (forall occ : string,
     In occ (map occupation users_df) -> Frame.isna occ = false ->
     exists r : MeanAge.t,
       In r (mean_age_by_occupation users_df) /\
       MeanAge.occupation r = occ /\
       age_statistics r
         (map age (filter (fun u => String.eqb (occupation u) occ) users_df))) /\
  (forall r : MeanAge.t,
     In r (mean_age_by_occupation users_df) ->
     Frame.isna (MeanAge.occupation r) = false /\
     In (MeanAge.occupation r) (map occupation users_df) /\
     age_statistics r
       (map age (filter (fun u => String.eqb (occupation u) (MeanAge.occupation r))
                   users_df))).
Proof.
  assert (Hages : forall occ, In occ (map occupation users_df) ->
            map age (filter (fun u => String.eqb (occupation u) occ) users_df) <> []).
  { intros occ Hin. apply in_map_iff in Hin. destruct Hin as (u & Hocc & Hu).
    intros Hnil. apply map_eq_nil in Hnil.
    assert (Hf : In u (filter (fun u0 => String.eqb (occupation u0) occ) users_df)).
    { apply filter_In. split; [exact Hu|]. now apply String.eqb_eq. }
    rewrite Hnil in Hf. exact Hf. }
  split.
  - intros occ Hin Hna.
    set (ages := map age (filter (fun u => String.eqb (occupation u) occ) users_df)).
    exists (mean_age_result (occ, agg 2 ages)). split; [|split].
    + rewrite mean_age_by_occupation_eq. apply sort_desc_In.
      apply in_map. now apply occupation_group.
    + reflexivity.
    + apply agg_statistics. now apply Hages.
  - intros r Hr. rewrite mean_age_by_occupation_eq in Hr.
    apply sort_desc_In, in_map_iff in Hr. destruct Hr as ([occ row] & <- & Hrow).
    apply occupation_age_stats_In in Hrow. simpl in Hrow.
    destruct Hrow as (Hna & Hin & ->).
    split; [exact Hna|]. split; [exact Hin|].
    apply agg_statistics. now apply Hages.
Qed.

Lemma mean_age_statistics_witness :
  exists r : MeanAge.t,
    In r (mean_age_by_occupation Demo.users) /\
    MeanAge.occupation r = "engineer"%string /\
    MeanAge.user_count r = 2 /\
    MeanAge.mean_age r = (3000 # 100)%Q /\
    MeanAge.min_age r = 25 /\ MeanAge.max_age r = 35.
Proof.
  destruct (proj1 (mean_age_statistics Demo.users) "engineer"%string)
    as (r & Hin & Hocc & Hst).
  - simpl. auto.
  - reflexivity.
  - exists r. split; [exact Hin|]. split; [exact Hocc|].
    destruct Hst as (Hn & (k & Hk) & Hmean & (Hmin & Hle) & (Hmax & Hge) & _).
    split; [exact Hn|]. split.
    + rewrite Hk in Hmean |- *. apply Qabs_Qle_condition in Hmean.
      destruct Hmean as [Hlo Hhi].
      unfold Qle in Hlo, Hhi. simpl in Hlo, Hhi.
      assert (k = 3000) by lia. now subst k.
    + simpl in Hmin, Hmax, Hle, Hge.
      inversion Hle as [|? ? H25 _]; inversion Hge as [|? ? _ Hge']; subst.
      inversion Hge' as [|? ? H35 _]; subst.
      split; lia.
Defined.

(** C7 as stated fails on the standard deviation: for the two engineers of
    the demonstration frame, aged 25 and 35, the sample variance is 50 and
    the reported [std_dev] is 7.07, whose square is not 50. *)
Lemma std_dev_is_rounded :
  exists r : MeanAge.t,
    In r (mean_age_by_occupation Demo.users) /\
    MeanAge.occupation r = "engineer"%string /\
    MeanAge.std_dev r = (707 # 100)%Q /\
    (exists v : Q, Stats.var [25; 35] = Some v /\ (v == 50)%Q /\
                   ~ (MeanAge.std_dev r * MeanAge.std_dev r == v)%Q).
Proof.
  exists (mean_age_result ("engineer"%string, agg 2 [25; 35])).
  split; [vm_compute; auto|]. split; [reflexivity|]. split; [reflexivity|].
  eexists. split; [reflexivity|]. split; [reflexivity|].
  vm_compute. discriminate.
Qed.

(** ** Duplicate-free columns *)

Lemma NoDup_map_filter {A B} (key : A -> B) (keep : A -> bool) (rows : list A) :
  NoDup (map key rows) -> NoDup (map key (filter keep rows)).
Proof.
  intros Hnd. induction rows as [|x t IH]; simpl in *; [exact Hnd|].
  apply NoDup_cons_iff in Hnd. destruct Hnd as [Hnin Ht].
  destruct (keep x); simpl; [|auto].
  constructor; [|auto]. intros Hin. apply Hnin.
  apply in_map_iff in Hin. destruct Hin as (y & Hy & Hin).
  apply filter_In in Hin. apply in_map_iff. exists y. tauto.
Qed.

Lemma NoDup_map_sort_by {A B} (f : A -> B) (le : A -> A -> bool) (l : list A) :
  NoDup (map f l) -> NoDup (map f (Frame.sort_by le l)).
Proof.
  apply Permutation_NoDup, Permutation_map. symmetry. apply sort_by_perm.
Qed.

(** ** Task 2: top rated movies *)

Lemma top_movie_result_Ok (movies_df : list Movie) (row : Z * AggRow) (r : TopMovie.t) :
  top_movie_result movies_df row = Ok r ->
  TopMovie.movie_id r = fst row /\
  TopMovie.avg_rating r = agg_mean (snd row) /\
  TopMovie.rating_count r = agg_count (snd row) /\
  exists info,
    movie_info movies_df (fst row) = Ok info /\
    TopMovie.title r = m_title info /\
    TopMovie.release_date r = release_date_or_unknown (m_release_date info).
Proof.
  unfold top_movie_result. destruct (movie_info movies_df (fst row)) as [info|e];
    [|discriminate].
  intros [= <-]. simpl. repeat split. exists info. auto.
Qed.

Lemma movie_stats_In (ratings_df : list Rating) (row : Z * AggRow) :
  In row (movie_stats ratings_df) ->
  snd row = agg 3 (map rating (filter (fun x => r_movie_id x =? fst row) ratings_df)).
Proof.
  unfold movie_stats. rewrite in_map_iff. intros ([k g] & <- & Hin). simpl.
  apply groupby_In in Hin. destruct Hin as [_ ->].
  do 2 f_equal. apply filter_ext. intros x. unfold key_eqb. simpl.
  destruct (Z.compare_spec (r_movie_id x) k) as [->|Hlt|Hgt].
  - now rewrite Z.eqb_refl.
  - symmetry. apply Z.eqb_neq. lia.
  - symmetry. apply Z.eqb_neq. lia.
Qed.

Lemma movie_stats_keys (ratings_df : list Rating) :
  NoDup (map fst (movie_stats ratings_df)).
Proof.
  unfold movie_stats. rewrite map_map. simpl.
  apply (groupby_keys_NoDup r_movie_id ratings_df).
Qed.

Lemma top_movies_In (ratings_df : list Rating) (min_ratings top_n : Z) (row : Z * AggRow) :
  In row (top_movies ratings_df min_ratings top_n) ->
  In row (movie_stats ratings_df) /\ min_ratings <= agg_count (snd row).
Proof.
  unfold top_movies. intros Hin. apply head_In in Hin.
  apply sort_desc_In in Hin. apply filter_In in Hin.
  destruct Hin as [Hin Hc]. split; [exact Hin|]. now apply Z.leb_le.
Qed.

Lemma Forall2_In_r {A B} (P : A -> B -> Prop) (l : list A) (ys : list B) (y : B) :
  Forall2 P l ys -> In y ys -> exists x, In x l /\ P x y.
Proof.
  induction 1 as [|x y' l ys Hxy Hrest IH]; simpl; [tauto|].
  intros [<-|Hin]; [eauto|]. destruct (IH Hin) as (x' & Hx' & HP). eauto.
Qed.

(** C6: every record of the rating aggregation counts at least
    [min_ratings] ratings (and the count is that of the movie's rows); the
    records are in descending order of mean rating; there are at most
    [top_n] of them, [top_n] being a number of movies, that is, not
    negative; and the release date of a movie without one is reported as
    "Unknown". *)
Theorem top_rated_movies_spec (ratings_df : list Rating) (movies_df : list Movie)
    (min_ratings top_n : Z) (res : list TopMovie.t) :
  top_rated_movies ratings_df movies_df min_ratings top_n = Ok res ->
  Forall (fun r =>
            min_ratings <= TopMovie.rating_count r /\
            TopMovie.rating_count r =
              Z.of_nat (List.length
                (filter (fun x => r_movie_id x =? TopMovie.movie_id r) ratings_df)))
         res /\
  StronglySorted (fun a b => (TopMovie.avg_rating b <= TopMovie.avg_rating a)%Q) res /\
  (0 <= top_n -> Z.of_nat (List.length res) <= top_n) /\
  Forall (fun r =>
            exists info,
              movie_info movies_df (TopMovie.movie_id r) = Ok info /\
              (m_release_date info = None ->
               TopMovie.release_date r = "Unknown"%string) /\
              (forall d, m_release_date info = Some d -> TopMovie.release_date r = d))
         res.
Proof.
  intros Hres. unfold top_rated_movies in Hres. apply for_each_Ok in Hres.
  split; [|split; [|split]].
  - apply Forall_forall. intros r Hr.
    destruct (Forall2_In_r _ _ _ _ Hres Hr) as (row & Hrow & Hok).
    apply top_movie_result_Ok in Hok. destruct Hok as (Hid & _ & Hc & _).
    apply top_movies_In in Hrow. destruct Hrow as [Hin Hmin].
    rewrite Hc. split; [exact Hmin|].
    rewrite (movie_stats_In _ _ Hin), Hid. simpl. unfold Stats.count.
    now rewrite length_map.
  - apply (StronglySorted_map TopMovie.avg_rating (fun x y => (y <= x)%Q)).
    rewrite Forall2_map_eq
      with (f := fun row : Z * AggRow => agg_mean (snd row))
           (P := fun x y => top_movie_result movies_df x = Ok y)
           (l := top_movies ratings_df min_ratings top_n);
      [|intros x y Hxy; apply top_movie_result_Ok in Hxy; tauto|exact Hres].
    apply StronglySorted_map. unfold top_movies. apply head_sorted.
    apply (sort_desc_sorted (fun row : Z * AggRow => agg_mean (snd row))).
  - intros Hn. rewrite <- (Forall2_length Hres). unfold top_movies.
    now apply head_length.
  - apply Forall_forall. intros r Hr.
    destruct (Forall2_In_r _ _ _ _ Hres Hr) as (row & Hrow & Hok).
    apply top_movie_result_Ok in Hok.
    destruct Hok as (Hid & _ & _ & info & Hinfo & _ & Hdate).
    exists info. rewrite Hid. split; [exact Hinfo|].
    rewrite Hdate. split.
    + now intros ->.
    + now intros d ->.
Qed.

Lemma top_rated_movies_spec_witness :
  exists res : list TopMovie.t,
    top_rated_movies Demo.ratings Demo.movies 3 1 = Ok res /\
    Forall (fun r => 3 <= TopMovie.rating_count r) res /\
    Z.of_nat (List.length res) <= 1.
Proof.
  eexists. split; [vm_compute; reflexivity|].
  match goal with
  | |- context [Forall _ ?res] =>
      destruct (top_rated_movies_spec Demo.ratings Demo.movies 3 1 res)
        as (Hc & _ & Hn & _)
  end.
  - vm_compute. reflexivity.
  - split.
    + eapply Forall_impl; [|exact Hc]. simpl. tauto.
    + apply Hn. lia.
Defined.

(** ** Task 3: top genres by occupation and age group *)

Section SortAsc.
Context {A K : Type} `{OrdLaws K} (key : A -> K).

Lemma key_lt_asym (a b : K) : key_lt a b -> key_lt b a -> False.
Proof. intros Hab Hba. exact (key_lt_irrefl a (key_lt_trans _ _ _ Hab Hba)). Qed.

Lemma key_ltb_true (a b : K) : key_ltb a b = true <-> key_lt a b.
Proof. unfold key_ltb, key_lt. destruct (cmp a b); split; congruence. Qed.

Lemma key_ltb_false (a b : K) : key_ltb a b = false <-> (a = b \/ key_lt b a).
Proof.
  split; [apply key_ltb_false_le|].
  intros [->|Hlt]; destruct (key_ltb _ _) eqn:E; auto; apply key_ltb_true in E.
  - now apply key_lt_irrefl in E.
  - exfalso. eapply key_lt_asym; eauto.
Qed.

Lemma sort_asc_In (x : A) (l : list A) : In x (sort_asc key l) <-> In x l.
Proof. apply sort_by_In. Qed.

Lemma sort_asc_perm (l : list A) : Permutation (sort_asc key l) l.
Proof. apply sort_by_perm. Qed.

(** Sorting a list whose keys are already strictly ascending leaves them
    strictly ascending. *)
Lemma sort_asc_strict (l : list A) :
  StronglySorted (fun a b => key_lt (key a) (key b)) l ->
  StronglySorted (fun a b => key_lt (key a) (key b)) (sort_asc key l).
Proof.
  intros Hs. unfold sort_asc.
  eapply StronglySorted_impl;
    [|apply sort_by_lex with (R0 := fun a b => key_lt (key a) (key b))]; auto.
  - intros a b _ _ [Hle Htie]. apply negb_true_iff, key_ltb_false in Hle.
    destruct Hle as [Heq|Hlt]; [|exact Hlt].
    apply Htie. apply negb_true_iff, key_ltb_false. left. congruence.
  - intros x y Hf. apply negb_false_iff, key_ltb_true in Hf.
    apply negb_true_iff, key_ltb_false. now right.
  - intros x y z Hxy Hyz.
    apply negb_true_iff, key_ltb_false in Hxy, Hyz.
    apply negb_true_iff, key_ltb_false.
    destruct Hxy as [Hxy|Hxy], Hyz as [Hyz|Hyz].
    + left. congruence.
    + right. now rewrite Hxy in Hyz.
    + right. now rewrite Hyz.
    + right. eapply key_lt_trans; eauto.
Qed.
End SortAsc.

Lemma segments_sorted (users_df : list User)
    (stats : list (string * string * string * (Q * Z))) :
  StronglySorted
    (fun a b =>
       key_lt (TopGenres.occupation a, TopGenres.age_group a)
              (TopGenres.occupation b, TopGenres.age_group b))
    (map (segment_result users_df)
         (Frame.groupby
            (fun row : string * string * string * (Q * Z) => fst (fst row)) stats)).
Proof.
  apply (StronglySorted_map
           (fun r => (TopGenres.occupation r, TopGenres.age_group r)) key_lt).
  rewrite map_map. simpl.
  rewrite (map_ext _ fst) by (intros [[o a] g]; reflexivity).
  apply groupby_keys_sorted.
Qed.

Lemma segment_users_length (users_df : list User) (occ ag : string) :
  List.length (segment_users users_df occ ag) =
  List.length
    (filter (fun u => String.eqb (occupation u) occ
                      && String.eqb (get_age_group (age u)) ag)
            users_df).
Proof.
  unfold segment_users, users_with_age_group.
  rewrite filter_map_swap, length_map. reflexivity.
Qed.

(** C4: every (occupation, age_group) segment of the genre ranking carries
    at most 3 genre entries, in descending order of mean rating, and with
    them one count for the segment, the number of users of the users frame
    in the segment (which, user ids being unique, is the number of distinct
    users); the segments are in ascending lexicographic order of
    (occupation, age_group). *)
Theorem top_genres_spec (ratings_df : list Rating) (users_df : list User)
    (movie_genres_df : list MovieGenre) :
  let results := top_genres_by_occupation_age ratings_df users_df movie_genres_df in
  Forall
    (fun r =>
       let segment :=
         filter (fun u => String.eqb (occupation u) (TopGenres.occupation r)
                          && String.eqb (get_age_group (age u)) (TopGenres.age_group r))
                users_df in
       (List.length (TopGenres.top_genres r) <= 3)%nat /\
       StronglySorted
         (fun a b => (TopGenres.avg_rating b <= TopGenres.avg_rating a)%Q)
         (TopGenres.top_genres r) /\
       TopGenres.total_users r = Z.of_nat (List.length segment) /\
       (NoDup (map u_user_id users_df) ->
        TopGenres.total_users r =
          Z.of_nat (List.length (Frame.to_set (map u_user_id segment)))))
    results /\
  StronglySorted
    (fun a b =>
       key_lt (TopGenres.occupation a, TopGenres.age_group a)
              (TopGenres.occupation b, TopGenres.age_group b))
    results.
Proof.
  simpl. unfold top_genres_by_occupation_age. split.
  - apply Forall_forall. intros r Hr. apply sort_asc_In in Hr.
    apply in_map_iff in Hr. destruct Hr as (g & <- & _).
    unfold segment_result; simpl. split; [|split; [|split]].
    + rewrite length_map.
      pose proof (head_length 3 (sort_desc (fun row => fst (snd row)) (snd g))
                    ltac:(lia)).
      lia.
    + apply (StronglySorted_map TopGenres.avg_rating (fun x y => (y <= x)%Q)).
      rewrite map_map. simpl. apply StronglySorted_map, head_sorted.
      apply (sort_desc_sorted (fun row : string * string * string * (Q * Z) =>
                                 fst (snd row))).
    + unfold len. now rewrite segment_users_length.
    + intros Hnd. unfold len, Frame.to_set.
      rewrite segment_users_length, nodup_fixed_point, length_map; [reflexivity|].
      now apply NoDup_map_filter.
  - apply sort_asc_strict, segments_sorted.
Qed.

(** ** Loading on demand *)

Ltac run_analysis :=
  cbv [analyze_mean_age_by_occupation analyze_top_rated_movies
       analyze_top_genres_by_occupation_age find_similar_movies
       ensure_loaded try_except bind get_data download_and_load_data lift
       MovieLensDataLoader load put ret raise frame is_none exists_file
       initial_globals negb orb
       data_dir_exists f_data f_user f_item f_genre f_occupation
       RATINGS_DF USERS_DF MOVIES_DF GENRES_DF OCCUPATIONS_DF MOVIE_GENRES_DF
       ratings_df users_df movies_df genres_df movie_genres_df].

Lemma loader_errors_not_DataNotLoaded :
  DataDirectoryNotFound <> DataNotLoaded /\ RequiredFileNotFound <> DataNotLoaded /\
  ParserError <> DataNotLoaded /\ FileNotFoundError <> DataNotLoaded /\
  ZeroDivisionError <> DataNotLoaded.
Proof. repeat split; discriminate. Qed.

Lemma data_info_error (r : list Rating) (u : list User) (m : list Movie)
    (g : list Genre) (o : list string) (e : string) :
  data_info r u m g o = Raise e -> e = ZeroDivisionError.
Proof.
  unfold data_info. destruct (len u * len m =? 0); [|discriminate]. now intros [= <-].
Qed.

(** C1, as the code has it: an analysis invoked before a load loads the
    dataset itself.  When the load succeeds, each of the four analyses
    returns what it computes from the frames just loaded, and leaves them in
    the globals; when the load fails, each analysis raises the error of the
    load, which is never the "data not loaded" error. *)
Theorem analysis_before_load (str_contains : string -> string -> bool)
    (fs : FileSystem) (target_movie : string) (similarity_threshold : R)
    (cooccurrence_threshold min_ratings top_n : Z) :
  match download_and_load_data fs initial_globals with
  | (Raise e, g) =>
      e <> DataNotLoaded /\
      analyze_mean_age_by_occupation fs initial_globals = (Raise e, g) /\
      analyze_top_rated_movies fs min_ratings top_n initial_globals = (Raise e, g) /\
      analyze_top_genres_by_occupation_age fs initial_globals = (Raise e, g) /\
      find_similar_movies str_contains fs target_movie similarity_threshold
        cooccurrence_threshold top_n initial_globals = (Raise e, g)
  | (Ok _, g) =>
      exists ratings users movies,
        f_data fs = Content ratings /\ f_user fs = Content users /\
        f_item fs = Content movies /\
        RATINGS_DF g = Some ratings /\ USERS_DF g = Some users /\
        MOVIES_DF g = Some movies /\
        MOVIE_GENRES_DF g = Some (get_movie_genres movies) /\
        analyze_mean_age_by_occupation fs initial_globals
          = (Ok (mean_age_by_occupation users), g) /\
        analyze_top_rated_movies fs min_ratings top_n initial_globals
          = (top_rated_movies ratings movies min_ratings top_n, g) /\
        analyze_top_genres_by_occupation_age fs initial_globals
          = (match get_movie_genres movies with
             | [] => Raise KeyError
             | _ => Ok (top_genres_by_occupation_age ratings users
                          (get_movie_genres movies))
             end, g) /\
        find_similar_movies str_contains fs target_movie similarity_threshold
          cooccurrence_threshold top_n initial_globals
          = (similar_movies str_contains ratings movies target_movie
               similarity_threshold cooccurrence_threshold top_n, g)
  end.
Proof.
  destruct fs as [d fd fu fi fg fo].
  destruct d, fd as [| |r], fu as [| |u], fi as [| |m], fg as [| |g], fo as [| |o];
    run_analysis;
    try (split; [discriminate|repeat split; reflexivity]).
  destruct (data_info r u m g o) as [info|e] eqn:E.
  - exists r, u, m. repeat split; try reflexivity.
    destruct (get_movie_genres m); reflexivity.
  - apply data_info_error in E. subst e.
    split; [discriminate|]. repeat split; try reflexivity.
Qed.

(** C1 as stated fails: invoked on the initial globals, with the files of
    the demonstration dataset in place, the first three analyses return
    results, not an error, and the users frame is loaded afterwards. *)
Lemma unloaded_analysis_returns_results :
  fst (analyze_mean_age_by_occupation Demo.fs initial_globals)
    = Ok (mean_age_by_occupation Demo.users) /\
  mean_age_by_occupation Demo.users <> [] /\
  fst (analyze_mean_age_by_occupation Demo.fs initial_globals)
    <> Raise DataNotLoaded /\
  USERS_DF (snd (analyze_mean_age_by_occupation Demo.fs initial_globals))
    = Some Demo.users /\
  (exists res, fst (analyze_top_rated_movies Demo.fs 35 20 initial_globals) = Ok res) /\
  (exists res, fst (analyze_top_genres_by_occupation_age Demo.fs initial_globals)
               = Ok res /\ res <> []).
Proof.
  split; [vm_compute; reflexivity|].
  split; [vm_compute; discriminate|].
  split; [vm_compute; discriminate|].
  split; [vm_compute; reflexivity|].
  split; eexists; [vm_compute; reflexivity|].
  split; [vm_compute; reflexivity|discriminate].
Qed.

(** ** Task 4: the correlation *)

Open Scope R_scope.

Lemma Req_b_true (x y : R) : x = y -> NP.Req_b x y = true.
Proof. intros ->. unfold NP.Req_b. destruct (Req_dec_T y y); congruence. Qed.

Lemma Req_b_false (x y : R) : x <> y -> NP.Req_b x y = false.
Proof. intros Hne. unfold NP.Req_b. destruct (Req_dec_T x y); congruence. Qed.

Lemma Rlt_b_true (x y : R) : x < y -> NP.Rlt_b x y = true.
Proof. intros Hlt. unfold NP.Rlt_b. destruct (Rlt_dec x y); tauto. Qed.

Lemma Rlt_b_false (x y : R) : y <= x -> NP.Rlt_b x y = false.
Proof. intros Hle. unfold NP.Rlt_b. destruct (Rlt_dec x y); [lra|reflexivity]. Qed.

Lemma Rle_b_true (x y : R) : NP.Rle_b x y = true <-> x <= y.
Proof. unfold NP.Rle_b. destruct (Rle_dec x y); split; auto; discriminate. Qed.

Lemma Rle_b_false (x y : R) : NP.Rle_b x y = false <-> y < x.
Proof.
  unfold NP.Rle_b. destruct (Rle_dec x y); split; try discriminate; try lra; auto.
Qed.

Lemma Rsum_squares_zero (l : list R) :
  NP.Rsum (map (fun x => x * x) l) = 0 -> Forall (fun x => x = 0) l.
Proof.
  induction l as [|x t IH]; simpl; intros Hs; [constructor|].
  assert (Hx : 0 <= x * x) by nra.
  assert (Ht : 0 <= NP.Rsum (map (fun y => y * y) t)).
  { clear. induction t as [|y t IH]; simpl; [lra|]. nra. }
  constructor; [nra|]. apply IH. lra.
Qed.

Lemma dot_self (a : list R) : NP.dot a a = NP.Rsum (map (fun x => x * x) a).
Proof.
  unfold NP.dot. f_equal. induction a as [|x t IH]; simpl; [reflexivity|].
  now rewrite IH.
Qed.

Lemma dot_zero_l (a b : list R) : Forall (fun x => x = 0) a -> NP.dot a b = 0.
Proof.
  unfold NP.dot. intros Ha. revert b.
  induction Ha as [|x t Hx Ht IH]; intros [|y b]; simpl; try reflexivity.
  rewrite IH, Hx. lra.
Qed.

Lemma dot_zero_r (a b : list R) : Forall (fun x => x = 0) b -> NP.dot a b = 0.
Proof.
  unfold NP.dot. intros Hb. revert a.
  induction Hb as [|y t Hy Ht IH]; intros [|x a]; simpl; try reflexivity.
  rewrite IH, Hy. lra.
Qed.

(** A column of at least two values with zero variance does not deviate
    from its mean. *)
Lemma zero_variance_dev (xs : list Z) :
  (2 <= List.length xs)%nat -> NP.cov xs xs = 0 -> Forall (fun d => d = 0) (NP.dev xs).
Proof.
  intros Hn Hc. apply Rsum_squares_zero. rewrite <- dot_self.
  unfold NP.cov in Hc.
  assert (Hd : INR (List.length xs) - 1 <> 0).
  { apply le_INR in Hn. simpl in Hn. lra. }
  apply (Rmult_eq_compat_r (INR (List.length xs) - 1)) in Hc.
  unfold Rdiv in Hc. rewrite Rmult_assoc, Rinv_l, Rmult_1_r, Rmult_0_l in Hc; auto.
Qed.

Lemma cov_zero_l (xs ys : list Z) :
  (2 <= List.length xs)%nat -> NP.cov xs xs = 0 -> NP.cov xs ys = 0.
Proof.
  intros Hn Hc. unfold NP.cov. rewrite dot_zero_l by now apply zero_variance_dev.
  unfold Rdiv. apply Rmult_0_l.
Qed.

Lemma cov_zero_r (xs ys : list Z) :
  (2 <= List.length ys)%nat -> NP.cov ys ys = 0 -> NP.cov xs ys = 0.
Proof.
  intros Hn Hc. unfold NP.cov. rewrite dot_zero_r by now apply zero_variance_dev.
  unfold Rdiv. apply Rmult_0_l.
Qed.

Lemma div_zero_by_zero : NP.div (NP.Fin 0) (NP.Fin 0) = NP.NaN.
Proof. simpl. now rewrite Req_b_true. Qed.

Lemma corrcoef_zero_variance (xs ys : list Z) :
  List.length xs = List.length ys -> (2 <= List.length xs)%nat ->
  NP.cov xs xs = 0 \/ NP.cov ys ys = 0 ->
  NP.corrcoef xs ys = NP.NaN.
Proof.
  intros Hlen Hn [Hx|Hy]; unfold NP.corrcoef.
  - rewrite (cov_zero_l xs ys Hn Hx), Hx.
    unfold NP.sqrt at 1. rewrite Rlt_b_false by lra. rewrite sqrt_0.
    rewrite div_zero_by_zero. reflexivity.
  - rewrite Hlen in Hn. rewrite (cov_zero_r xs ys Hn Hy), Hy.
    unfold NP.sqrt at 2. rewrite Rlt_b_false by lra. rewrite sqrt_0.
    unfold NP.sqrt. destruct (NP.Rlt_b (NP.cov xs xs) 0); [reflexivity|].
    unfold NP.div at 2.
    destruct (NP.Req_b (R_sqrt.sqrt (NP.cov xs xs)) 0).
    + rewrite Req_b_true by reflexivity. reflexivity.
    + unfold NP.div. rewrite Req_b_true by reflexivity.
      rewrite Req_b_true; [reflexivity|]. unfold Rdiv. apply Rmult_0_l.
Qed.

Lemma similarity_of_Fin (c : R) :
  similarity_of (NP.Fin c) = NP.Fin ((c + 1) / 2).
Proof. unfold similarity_of. simpl. rewrite Req_b_false by lra. reflexivity. Qed.

Lemma similarity_of_zero : similarity_of (NP.Fin 0) = NP.Fin (1 / 2).
Proof. rewrite similarity_of_Fin. f_equal. lra. Qed.

Lemma correlation_zero_variance (xs ys : list Z) :
  List.length xs = List.length ys -> (2 <= List.length xs)%nat ->
  NP.cov xs xs = 0 \/ NP.cov ys ys = 0 ->
  correlation_of xs ys = NP.Fin 0.
Proof.
  intros Hlen Hn Hv. unfold correlation_of.
  now rewrite (corrcoef_zero_variance xs ys Hlen Hn Hv).
Qed.

(** C2: when the paired ratings of the common users have zero variance in
    either column, the correlation [numpy.corrcoef] yields is NaN, which the
    code replaces by 0, and the similarity score is 0.5, whatever the other
    column holds. *)
Theorem zero_variance_similarity (merged : list (Rating * Rating)) :
  let target_vals := map (fun p : Rating * Rating => rating (fst p)) merged in
  let movie_vals := map (fun p : Rating * Rating => rating (snd p)) merged in
  (2 <= List.length merged)%nat ->
  NP.cov target_vals target_vals = 0 \/ NP.cov movie_vals movie_vals = 0 ->
  NP.corrcoef target_vals movie_vals = NP.NaN /\
  correlation_of target_vals movie_vals = NP.Fin 0 /\
  similarity_of (correlation_of target_vals movie_vals) = NP.Fin (1 / 2).
Proof.
  intros target_vals movie_vals Hn Hv.
  assert (Hlen : List.length target_vals = List.length movie_vals)
    by (unfold target_vals, movie_vals; now rewrite !length_map).
  assert (Hn' : (2 <= List.length target_vals)%nat)
    by (unfold target_vals; now rewrite length_map).
  split; [now apply corrcoef_zero_variance|].
  rewrite (correlation_zero_variance _ _ Hlen Hn' Hv).
  split; [reflexivity|apply similarity_of_zero].
Qed.

Lemma Rsum_constant (c : Z) (xs : list Z) :
  Forall (fun x => x = c) xs ->
  NP.Rsum (map IZR xs) = INR (List.length xs) * IZR c.
Proof.
  induction 1 as [|x t Hx Ht IH].
  - simpl. lra.
  - cbn [map NP.Rsum fold_right List.length]. fold (NP.Rsum (map IZR t)).
    rewrite IH, Hx, S_INR. lra.
Qed.

(** A column whose values are all equal has zero variance. *)
Lemma constant_column_zero_variance (c : Z) (xs : list Z) :
  Forall (fun x => x = c) xs -> NP.cov xs xs = 0.
Proof.
  intros Hc. unfold NP.cov. rewrite dot_zero_l; [unfold Rdiv; apply Rmult_0_l|].
  destruct xs as [|x0 t]; [constructor|].
  assert (Hm : NP.mean (x0 :: t) = IZR c).
  { unfold NP.mean. rewrite (Rsum_constant c (x0 :: t) Hc).
    field. apply not_0_INR. discriminate. }
  unfold NP.dev. rewrite Hm. apply Forall_map.
  eapply Forall_impl; [|exact Hc]. simpl. intros x ->. lra.
Qed.

Lemma zero_variance_similarity_witness :
  similarity_of
    (correlation_of
       (map (fun p : Rating * Rating => rating (fst p))
            [(Demo.rate 1 1 5, Demo.rate 1 2 1); (Demo.rate 2 1 5, Demo.rate 2 2 3)])
       (map (fun p : Rating * Rating => rating (snd p))
            [(Demo.rate 1 1 5, Demo.rate 1 2 1); (Demo.rate 2 1 5, Demo.rate 2 2 3)]))
  = NP.Fin (1 / 2).
Proof.
  apply (zero_variance_similarity
           [(Demo.rate 1 1 5, Demo.rate 1 2 1); (Demo.rate 2 1 5, Demo.rate 2 2 3)]).
  - simpl. lia.
  - left. apply (constant_column_zero_variance 5). repeat constructor.
Defined.

Lemma correlation_of_range (xs ys : list Z) :
  exists c : R, correlation_of xs ys = NP.Fin c /\ -1 <= c <= 1.
Proof.
  unfold correlation_of, NP.corrcoef.
  destruct (NP.div _ _) as [|[|]|x]; simpl.
  - exists 0. split; [reflexivity|lra].
  - exists (-1). split; [reflexivity|lra].
  - exists 1. split; [reflexivity|lra].
  - eexists. split; [reflexivity|].
    split.
    + apply Rmin_glb; [lra|apply Rmax_l].
    + apply Rmin_l.
Qed.

Lemma leb_Fin (x y : R) : NP.leb (NP.Fin x) (NP.Fin y) = true <-> x <= y.
Proof. simpl. apply Rle_b_true. Qed.

Close Scope R_scope.

(** ** Task 4: the dictionary of similarities *)

Lemma dict_set_In {V} (k : Z) (v : V) (d : list (Z * V)) (e : Z * V) :
  In e (dict_set k v d) -> e = (k, v) \/ In e d.
Proof.
  induction d as [|[k' v'] t IH]; simpl.
  - intros [<-|[]]. now left.
  - destruct (k' =? k); simpl; intuition.
Qed.

Lemma dict_set_keys {V} (k : Z) (v : V) (d : list (Z * V)) (x : Z) :
  In x (map fst (dict_set k v d)) <-> x = k \/ In x (map fst d).
Proof.
  induction d as [|[k' v'] t IH]; simpl.
  - intuition.
  - destruct (Z.eqb_spec k' k) as [->|Hne]; simpl; [|rewrite IH]; intuition.
Qed.

Lemma dict_set_NoDup {V} (k : Z) (v : V) (d : list (Z * V)) :
  NoDup (map fst d) -> NoDup (map fst (dict_set k v d)).
Proof.
  induction d as [|[k' v'] t IH]; simpl; intros Hnd.
  - repeat constructor. auto.
  - inversion Hnd as [|? ? Hnin Ht]; subst.
    destruct (Z.eqb_spec k' k) as [->|Hne]; simpl.
    + now constructor.
    + constructor; [|auto]. rewrite dict_set_keys. intuition.
Qed.

Section SimilarityFacts.
Variable str_contains : string -> string -> bool.
Variables (similarity_threshold : R) (cooccurrence_threshold : Z).

Lemma score_movie_invariant (target_movie_ratings : list Rating)
    (target_users : list Z) (sims : list (Z * similarity_data))
    (g : Z * list Rating) :
  Forall (stored_within similarity_threshold cooccurrence_threshold) sims /\ NoDup (map fst sims) ->
  let sims' := score_movie target_movie_ratings target_users
                 similarity_threshold cooccurrence_threshold sims g in
  Forall (stored_within similarity_threshold cooccurrence_threshold) sims' /\ NoDup (map fst sims').
Proof.
  intros [Hall Hnd]. destruct g as [movie_id movie_ratings]. simpl.
  destruct (_ <? cooccurrence_threshold) eqn:Ec; [auto|].
  destruct (_ <? 2) eqn:En; [auto|].
  match goal with |- context [correlation_of ?xs ?ys] =>
    destruct (correlation_of_range xs ys) as (c & Hc & Hrange) end.
  rewrite Hc, similarity_of_Fin.
  destruct (NP.Rle_b _ _) eqn:Es; [|auto].
  split; [|now apply dict_set_NoDup].
  apply Forall_forall. intros e He. apply dict_set_In in He.
  destruct He as [->|He]; [|rewrite Forall_forall in Hall; auto].
  unfold stored_within, within_thresholds; simpl.
  exists ((c + 1) / 2)%R, c. apply Rle_b_true in Es. apply Z.ltb_ge in Ec.
  repeat split; auto; lra.
Qed.

Lemma movie_similarities_invariant (ratings_df : list Rating) (target_movie_id : Z) :
  let sims := movie_similarities ratings_df target_movie_id
                similarity_threshold cooccurrence_threshold in
  Forall (stored_within similarity_threshold cooccurrence_threshold) sims /\ NoDup (map fst sims).
Proof.
  unfold movie_similarities.
  match goal with |- context [fold_left ?f ?l []] =>
    generalize l; intros groups;
    assert (Hinit : Forall (stored_within similarity_threshold cooccurrence_threshold) (@nil (Z * similarity_data))
                    /\ NoDup (map fst (@nil (Z * similarity_data))))
      by (split; constructor);
    revert Hinit; generalize (@nil (Z * similarity_data))
  end.
  induction groups as [|g t IH]; intros sims Hinv; simpl; [exact Hinv|].
  apply IH. now apply score_movie_invariant.
Qed.

Lemma sorted_movies_In (sims : list (Z * similarity_data)) (top_n : Z)
    (e : Z * similarity_data) :
  In e (sorted_movies sims top_n) -> In e sims.
Proof.
  unfold sorted_movies. intros Hin. apply head_In in Hin.
  now apply sort_by_In in Hin.
Qed.

Lemma sorted_movies_NoDup (sims : list (Z * similarity_data)) (top_n : Z) :
  NoDup (map fst sims) -> NoDup (map fst (sorted_movies sims top_n)).
Proof.
  intros Hnd. unfold sorted_movies. now apply head_NoDup_map, NoDup_map_sort_by.
Qed.

Lemma similar_result_Ok (movies_df : list Movie) (item : Z * similarity_data)
    (r : Similar.t) :
  similar_result movies_df item = Ok r ->
  Similar.movie_id r = fst item /\
  Similar.similarity_score r = sd_similarity_score (snd item) /\
  Similar.cooccurrence_count r = sd_cooccurrence_count (snd item) /\
  Similar.correlation r = sd_correlation (snd item).
Proof.
  unfold similar_result. destruct (movie_info movies_df (fst item)); [|discriminate].
  intros [= <-]. simpl. auto.
Qed.

Lemma similar_movies_Ok (ratings_df : list Rating) (movies_df : list Movie)
    (target_movie : string) (top_n : Z) (res : list Similar.t) :
  similar_movies str_contains ratings_df movies_df target_movie
    similarity_threshold cooccurrence_threshold top_n = Ok res ->
  exists target,
    find_target str_contains movies_df target_movie = Ok target /\
    Forall2 (fun item r => similar_result movies_df item = Ok r)
      (sorted_movies
         (movie_similarities ratings_df (m_movie_id target)
            similarity_threshold cooccurrence_threshold) top_n)
      res.
Proof.
  unfold similar_movies.
  destruct (find_target str_contains movies_df target_movie) as [target|e];
    [|discriminate].
  intros Hres. exists target. split; [reflexivity|]. now apply for_each_Ok.
Qed.
End SimilarityFacts.

(** ** Task 4: the records returned *)

(** A turn of the loop that stores its movie. *)
Lemma score_movie_keep (target_movie_ratings : list Rating) (target_users : list Z)
    (similarity_threshold : R) (cooccurrence_threshold : Z)
    (sims : list (Z * similarity_data)) (movie_id : Z)
    (movie_ratings : list Rating) (s : R) :
  let common_users :=
    Frame.inter (Frame.to_set (map r_user_id movie_ratings)) target_users in
  let merged := merged_ratings target_movie_ratings movie_ratings common_users in
  let correlation :=
    correlation_of (map (fun p : Rating * Rating => rating (fst p)) merged)
                   (map (fun p : Rating * Rating => rating (snd p)) merged) in
  cooccurrence_threshold <= len common_users ->
  2 <= len merged ->
  similarity_of correlation = NP.Fin s ->
  (similarity_threshold <= s)%R ->
  score_movie target_movie_ratings target_users similarity_threshold
    cooccurrence_threshold sims (movie_id, movie_ratings)
  = dict_set movie_id
      {| sd_similarity_score := NP.Fin s;
         sd_cooccurrence_count := len common_users;
         sd_correlation := correlation |}
      sims.
Proof.
  intros common_users merged correlation Hc Hn Hs Hthr.
  unfold score_movie. fold common_users. fold merged. fold correlation.
  apply Z.ltb_ge in Hc, Hn. rewrite Hc, Hn, Hs.
  replace (NP.leb (NP.Fin similarity_threshold) (NP.Fin s)) with true
    by (symmetry; now apply leb_Fin).
  reflexivity.
Qed.

(** ** Task 4: the search in floating-point arithmetic *)

Lemma clip_range (a : NP.float) :
  NP.clip (-1) 1 a = NP.NaN \/
  exists c : R, NP.clip (-1) 1 a = NP.Fin c /\ (-1 <= c <= 1)%R.
Proof.
  destruct a as [|[|]|x]; simpl.
  - now left.
  - right. exists (-1)%R. split; [reflexivity|lra].
  - right. exists 1%R. split; [reflexivity|lra].
  - right. eexists. split; [reflexivity|].
    unfold Rmin, Rmax.
    destruct (Rle_dec (-1) x); destruct (Rle_dec 1 _); lra.
Qed.

Lemma correlation_fl_range (corr : list Z -> list Z -> NP.float) (xs ys : list Z) :
  exists c : R, correlation_fl corr xs ys = NP.Fin c /\ (-1 <= c <= 1)%R.
Proof.
  unfold correlation_fl, corrcoef_fl.
  destruct (clip_range (corr xs ys)) as [->|(c & -> & Hc)]; simpl.
  - exists 0%R. split; [reflexivity|lra].
  - exists c. auto.
Qed.

Lemma similarity_fl_Fin (rnd : R -> R) (c : R) :
  similarity_fl rnd (NP.Fin c) = NP.Fin (rnd (c + 1) / 2)%R.
Proof. unfold similarity_fl. simpl. rewrite Req_b_false by lra. reflexivity. Qed.

Section FloatingPointFacts.
Variable corr : list Z -> list Z -> NP.float.
Variable rnd : R -> R.
Variables (similarity_threshold : R) (cooccurrence_threshold : Z).
Hypothesis rnd_monotone : forall x y : R, (x <= y)%R -> (rnd x <= rnd y)%R.
Hypothesis rnd_0 : rnd 0 = 0%R.
Hypothesis rnd_2 : rnd 2 = 2%R.

Lemma similarity_fl_range (c : R) :
  (-1 <= c <= 1)%R -> (0 <= rnd (c + 1) / 2 <= 1)%R.
Proof.
  intros Hc.
  assert (Hlo : (rnd 0 <= rnd (c + 1))%R) by (apply rnd_monotone; lra).
  assert (Hhi : (rnd (c + 1) <= rnd 2)%R) by (apply rnd_monotone; lra).
  rewrite rnd_0 in Hlo. rewrite rnd_2 in Hhi. lra.
Qed.

Lemma score_movie_fl_invariant (target_movie_ratings : list Rating)
    (target_users : list Z) (sims : list (Z * similarity_data))
    (g : Z * list Rating) :
  Forall (fun e => within_bounds rnd similarity_threshold cooccurrence_threshold
                     (sd_similarity_score (snd e)) (sd_correlation (snd e))
                     (sd_cooccurrence_count (snd e))) sims ->
  Forall (fun e => within_bounds rnd similarity_threshold cooccurrence_threshold
                     (sd_similarity_score (snd e)) (sd_correlation (snd e))
                     (sd_cooccurrence_count (snd e)))
    (score_movie_fl corr rnd target_movie_ratings target_users
       similarity_threshold cooccurrence_threshold sims g).
Proof.
  intros Hall. destruct g as [movie_id movie_ratings]. simpl.
  destruct (_ <? cooccurrence_threshold) eqn:Ec; [auto|].
  destruct (_ <? 2) eqn:En; [auto|].
  match goal with |- context [correlation_fl corr ?xs ?ys] =>
    destruct (correlation_fl_range corr xs ys) as (c & Hc & Hrange) end.
  rewrite Hc, similarity_fl_Fin.
  destruct (NP.Rle_b _ _) eqn:Es; [|auto].
  apply Forall_forall. intros e He. apply dict_set_In in He.
  destruct He as [->|He]; [|rewrite Forall_forall in Hall; auto].
  unfold within_bounds; simpl.
  exists (rnd (c + 1) / 2)%R, c. apply Rle_b_true in Es. apply Z.ltb_ge in Ec.
  pose proof (similarity_fl_range c Hrange).
  repeat split; auto; lra.
Qed.

Lemma movie_similarities_fl_invariant (ratings_df : list Rating)
    (target_movie_id : Z) :
  Forall (fun e => within_bounds rnd similarity_threshold cooccurrence_threshold
                     (sd_similarity_score (snd e)) (sd_correlation (snd e))
                     (sd_cooccurrence_count (snd e)))
    (movie_similarities_fl corr rnd ratings_df target_movie_id
       similarity_threshold cooccurrence_threshold).
Proof.
  unfold movie_similarities_fl.
  match goal with |- context [fold_left ?f ?l []] =>
    generalize l; intros groups end.
  assert (Hinit : Forall (fun e : Z * similarity_data =>
                            within_bounds rnd similarity_threshold
                              cooccurrence_threshold
                              (sd_similarity_score (snd e)) (sd_correlation (snd e))
                              (sd_cooccurrence_count (snd e))) [])
    by constructor.
  revert Hinit. generalize (@nil (Z * similarity_data)).
  induction groups as [|g t IH]; intros sims Hinv; simpl; [exact Hinv|].
  apply IH. now apply score_movie_fl_invariant.
Qed.
End FloatingPointFacts.

Lemma similar_movies_fl_Ok (compile : string -> option (string -> bool))
    (corr : list Z -> list Z -> NP.float) (rnd : R -> R)
    (ratings_df : list Rating) (movies_df : list Movie) (target_movie : string)
    (similarity_threshold : R) (cooccurrence_threshold top_n : Z)
    (res : list Similar.t) :
  similar_movies_fl compile corr rnd ratings_df movies_df target_movie
    similarity_threshold cooccurrence_threshold top_n = Ok res ->
  exists target,
    find_target_re compile movies_df target_movie = Ok target /\
    Forall2 (fun item r => similar_result movies_df item = Ok r)
      (sorted_movies
         (movie_similarities_fl corr rnd ratings_df (m_movie_id target)
            similarity_threshold cooccurrence_threshold) top_n)
      res.
Proof.
  unfold similar_movies_fl.
  destruct (find_target_re compile movies_df target_movie) as [target|e];
    [|discriminate].
  intros Hres. exists target. split; [reflexivity|]. now apply for_each_Ok.
Qed.

(** C3: every record of the similarity search has a correlation in
    [-1, 1], a similarity score in [0, 1] that is at least
    [similarity_threshold], and a co-occurrence count that is at least
    [cooccurrence_threshold]; both thresholds are inclusive: a movie whose
    count equals the threshold passes the count test, and one whose computed
    score equals the threshold is stored.  This holds in the arithmetic of
    the code: for any value of the unclipped correlation, and any rounding
    that is monotone and leaves 0 and 2 as they are. *)
Theorem similar_movies_bounds (compile : string -> option (string -> bool))
    (corr : list Z -> list Z -> NP.float) (rnd : R -> R)
    (ratings_df : list Rating) (movies_df : list Movie) (target_movie : string)
    (similarity_threshold : R) (cooccurrence_threshold top_n : Z) :
  (forall x y : R, (x <= y)%R -> (rnd x <= rnd y)%R) ->
  rnd 0%R = 0%R -> rnd 2%R = 2%R ->
  (forall res : list Similar.t,
     similar_movies_fl compile corr rnd ratings_df movies_df target_movie
       similarity_threshold cooccurrence_threshold top_n = Ok res ->
     Forall (fun r =>
               within_bounds rnd similarity_threshold cooccurrence_threshold
                 (Similar.similarity_score r) (Similar.correlation r)
                 (Similar.cooccurrence_count r))
            res) /\
  (forall (target_movie_ratings : list Rating) (target_users : list Z)
          (sims : list (Z * similarity_data)) (movie_id : Z)
          (movie_ratings : list Rating) (s : R),
     let common_users :=
       Frame.inter (Frame.to_set (map r_user_id movie_ratings)) target_users in
     let merged := merged_ratings target_movie_ratings movie_ratings common_users in
     let correlation :=
       correlation_fl corr
         (map (fun p : Rating * Rating => rating (fst p)) merged)
         (map (fun p : Rating * Rating => rating (snd p)) merged) in
     cooccurrence_threshold <= len common_users ->
     2 <= len merged ->
     similarity_fl rnd correlation = NP.Fin s ->
     (similarity_threshold <= s)%R ->
     score_movie_fl corr rnd target_movie_ratings target_users
       similarity_threshold cooccurrence_threshold sims (movie_id, movie_ratings)
     = dict_set movie_id
         {| sd_similarity_score := NP.Fin s;
            sd_cooccurrence_count := len common_users;
            sd_correlation := correlation |}
         sims).
Proof.
  intros Hmono H0 H2. split.
  - intros res Hres. apply similar_movies_fl_Ok in Hres.
    destruct Hres as (target & _ & Hres).
    apply Forall_forall. intros r Hr.
    destruct (Forall2_In_r _ _ _ _ Hres Hr) as (item & Hitem & Hok).
    apply similar_result_Ok in Hok. destruct Hok as (_ & -> & -> & ->).
    apply sorted_movies_In in Hitem.
    pose proof (movie_similarities_fl_invariant corr rnd similarity_threshold
                  cooccurrence_threshold Hmono H0 H2 ratings_df
                  (m_movie_id target)) as Hall.
    rewrite Forall_forall in Hall. exact (Hall item Hitem).
  - intros trs tusers sims movie_id movie_ratings s common_users merged
      correlation Hc Hn Hs Hthr.
    unfold score_movie_fl. fold common_users. fold merged. fold correlation.
    apply Z.ltb_ge in Hc, Hn. rewrite Hc, Hn, Hs.
    replace (NP.leb (NP.Fin similarity_threshold) (NP.Fin s)) with true
      by (symmetry; now apply leb_Fin).
    reflexivity.
Qed.

(** ** Task 4: the target movie *)

Lemma filter_head_first {A} (p : A -> bool) (l : list A) (x : A) (rest : list A) :
  filter p l = x :: rest ->
  exists i : nat,
    nth_error l i = Some x /\ p x = true /\
    forall (j : nat) (y : A), (j < i)%nat -> nth_error l j = Some y -> p y = false.
Proof.
  induction l as [|a t IH]; simpl; [discriminate|].
  destruct (p a) eqn:Ea.
  - intros [= <- _]. exists 0%nat. split; [reflexivity|]. split; [exact Ea|].
    intros j y Hj. lia.
  - intros Hf. destruct (IH Hf) as (i & Hi & Hp & Hbefore).
    exists (S i). split; [exact Hi|]. split; [exact Hp|].
    intros [|j] y Hj; simpl.
    + now intros [= <-].
    + apply Hbefore. lia.
Qed.

Lemma filter_nil_existsb {A} (p : A -> bool) (l : list A) :
  filter p l = [] <-> existsb p l = false.
Proof.
  induction l as [|a t IH]; simpl; [tauto|].
  destruct (p a); simpl; [split; discriminate|exact IH].
Qed.

(** C9: the target of the similarity search is the first row of the movies
    frame, in load order, whose title matches: the given title when some row
    matches it, and the fixed alternative "Usual Suspects" otherwise. *)
Theorem find_target_first_match (str_contains : string -> string -> bool)
    (movies_df : list Movie) (target_movie : string) (target : Movie) :
  find_target str_contains movies_df target_movie = Ok target ->
  let pattern :=
    if existsb (fun m => str_contains target_movie (m_title m)) movies_df
    then target_movie else "Usual Suspects"%string in
  exists i : nat,
    nth_error movies_df i = Some target /\
    str_contains pattern (m_title target) = true /\
    forall (j : nat) (m : Movie),
      (j < i)%nat -> nth_error movies_df j = Some m ->
      str_contains pattern (m_title m) = false.
Proof.
  unfold find_target, title_match. intros Hfind.
  destruct (filter (fun m => str_contains target_movie (m_title m)) movies_df)
    as [|m rest] eqn:E1.
  - apply filter_nil_existsb in E1. simpl. rewrite E1.
    destruct (filter (fun m => str_contains "Usual Suspects"%string (m_title m)) movies_df)
      as [|m rest] eqn:E2; [discriminate|].
    injection Hfind as <-.
    exact (filter_head_first _ _ _ _ E2).
  - assert (Hex : existsb (fun m => str_contains target_movie (m_title m)) movies_df
                  = true).
    { destruct (existsb _ movies_df) eqn:Ex; [reflexivity|].
      apply filter_nil_existsb in Ex. congruence. }
    simpl. rewrite Hex. injection Hfind as <-.
    exact (filter_head_first _ _ _ _ E1).
Qed.

Lemma find_target_first_match_witness :
  (exists i : nat,
     nth_error Demo.movies i = Some (hd (Build_Movie 0 "" None []) Demo.movies) /\
     Demo.icontains "(1995)" (m_title (hd (Build_Movie 0 "" None []) Demo.movies))
       = true /\
     forall (j : nat) (m : Movie),
       (j < i)%nat -> nth_error Demo.movies j = Some m ->
       Demo.icontains "(1995)" (m_title m) = false) /\
  (exists i : nat,
     nth_error Demo.movies i = Some (hd (Build_Movie 0 "" None []) Demo.movies) /\
     Demo.icontains "Usual Suspects"
       (m_title (hd (Build_Movie 0 "" None []) Demo.movies)) = true /\
     forall (j : nat) (m : Movie),
       (j < i)%nat -> nth_error Demo.movies j = Some m ->
       Demo.icontains "Usual Suspects" (m_title m) = false).
Proof.
  split.
  - apply (find_target_first_match Demo.icontains Demo.movies "(1995)").
    vm_compute. reflexivity.
  - apply (find_target_first_match Demo.icontains Demo.movies "no such title").
    vm_compute. reflexivity.
Defined.

(** ** Natural keys *)

Lemma NoDup_flat_map_keyed {G L K} (H : G -> list L) (kG : G -> K) (kL : L -> K)
    (groups : list G) :
  NoDup (map kG groups) ->
  (forall g, In g groups -> NoDup (H g)) ->
  (forall g x, In g groups -> In x (H g) -> kL x = kG g) ->
  NoDup (flat_map H groups).
Proof.
  induction groups as [|g t IH]; simpl; intros Hk Hnd Hkey; [constructor|].
  inversion Hk as [|? ? Hnin Ht]; subst.
  apply NoDup_app; auto.
  intros x Hx Hx'. apply in_flat_map in Hx'. destruct Hx' as (g' & Hg' & Hx').
  apply Hnin. apply in_map_iff. exists g'. split; [|exact Hg'].
  rewrite <- (Hkey g' x), <- (Hkey g x); auto.
Qed.

Lemma genre_stats_keys (ratings_df : list Rating) (users_df : list User)
    (movie_genres_df : list MovieGenre) :
  NoDup (map fst (genre_stats ratings_df users_df movie_genres_df)).
Proof.
  unfold genre_stats. rewrite map_map. simpl.
  match goal with |- context [Frame.groupby ?k ?l] =>
    apply (groupby_keys_NoDup k l) end.
Qed.

Lemma segment_labels_NoDup (users_df : list User)
    (stats : list (string * string * string * (Q * Z))) :
  NoDup (map fst stats) ->
  NoDup (flat_map (fun r => map TopGenres.genre (TopGenres.top_genres r))
           (map (segment_result users_df)
              (Frame.groupby
                 (fun row : string * string * string * (Q * Z) => fst (fst row))
                 stats))).
Proof.
  intros Hnd. rewrite flat_map_concat_map, map_map, <- flat_map_concat_map.
  apply NoDup_flat_map_keyed
    with (kG := fun g : string * string * list (string * string * string * (Q * Z)) =>
                  fst g)
         (kL := fun label : string * string * string => fst label).
  - apply groupby_keys_NoDup.
  - intros [k rows] Hg. apply groupby_In in Hg. destruct Hg as [_ ->].
    unfold segment_result; simpl. rewrite map_map. simpl.
    apply head_NoDup_map. apply NoDup_map_sort_by. now apply NoDup_map_filter.
  - intros [k rows] x Hg Hx. apply groupby_In in Hg. destruct Hg as [_ ->].
    unfold segment_result in Hx; simpl in Hx. rewrite map_map in Hx. simpl in Hx.
    apply in_map_iff in Hx. destruct Hx as (row & <- & Hrow).
    apply head_In, sort_desc_In, filter_In in Hrow. destruct Hrow as [_ Hk].
    simpl. now apply key_eqb_eq in Hk.
Qed.

(** C10: no two records of an output share the natural key: an occupation
    in the demographic output, a movie id in the rating aggregation, an
    (occupation, age_group) segment and an (occupation, age_group, genre)
    label in the genre ranking, a movie id in the similarity output. *)
Theorem natural_keys_unique (str_contains : string -> string -> bool)
    (ratings_df : list Rating) (users_df : list User) (movies_df : list Movie)
    (movie_genres_df : list MovieGenre) (min_ratings top_n : Z)
    (target_movie : string) (similarity_threshold : R)
    (cooccurrence_threshold : Z) :
  NoDup (map MeanAge.occupation (mean_age_by_occupation users_df)) /\
  (forall res,
     top_rated_movies ratings_df movies_df min_ratings top_n = Ok res ->
     NoDup (map TopMovie.movie_id res)) /\
  (let results := top_genres_by_occupation_age ratings_df users_df movie_genres_df in
   NoDup (map (fun r => (TopGenres.occupation r, TopGenres.age_group r)) results) /\
   NoDup (flat_map (fun r => map TopGenres.genre (TopGenres.top_genres r)) results)) /\
  (forall res,
     similar_movies str_contains ratings_df movies_df target_movie
       similarity_threshold cooccurrence_threshold top_n = Ok res ->
     NoDup (map Similar.movie_id res)).
Proof.
  split; [|split; [|split]].
  - rewrite mean_age_by_occupation_eq.
    eapply Permutation_NoDup;
      [apply Permutation_map; symmetry; apply sort_desc_perm|].
    rewrite map_map, occupation_age_stats_keys.
    apply strictly_sorted_NoDup, sorted_keys_sorted.
  - intros res Hres. unfold top_rated_movies in Hres. apply for_each_Ok in Hres.
    rewrite Forall2_map_eq
      with (f := fun row : Z * AggRow => fst row)
           (P := fun x y => top_movie_result movies_df x = Ok y)
           (l := top_movies ratings_df min_ratings top_n);
      [|intros x y Hxy; apply top_movie_result_Ok in Hxy; tauto|exact Hres].
    unfold top_movies. apply head_NoDup_map. apply NoDup_map_sort_by.
    apply NoDup_map_filter, movie_stats_keys.
  - simpl. split.
    + apply strictly_sorted_NoDup.
      apply (StronglySorted_map
               (fun r => (TopGenres.occupation r, TopGenres.age_group r)) key_lt).
      unfold top_genres_by_occupation_age. apply sort_asc_strict, segments_sorted.
    + unfold top_genres_by_occupation_age.
      eapply Permutation_NoDup;
        [apply Permutation_flat_map; symmetry; apply sort_asc_perm|].
      apply segment_labels_NoDup, genre_stats_keys.
  - intros res Hres. apply similar_movies_Ok in Hres.
    destruct Hres as (target & _ & Hres).
    rewrite Forall2_map_eq
      with (f := fun item : Z * similarity_data => fst item)
           (P := fun x y => similar_result movies_df x = Ok y)
           (l := sorted_movies
                   (movie_similarities ratings_df (m_movie_id target)
                      similarity_threshold cooccurrence_threshold) top_n);
      [|intros x y Hxy; apply similar_result_Ok in Hxy; tauto|exact Hres].
    apply sorted_movies_NoDup.
    apply (movie_similarities_invariant similarity_threshold
             cooccurrence_threshold ratings_df (m_movie_id target)).
Qed.

Open Scope R_scope.

Lemma demo_correlation_2 : correlation_of [1; 3; 5]%Z [2; 3; 4]%Z = NP.Fin 1.
Proof.
  unfold correlation_of, NP.corrcoef.
  assert (Hxx : NP.cov [1; 3; 5]%Z [1; 3; 5]%Z = 2 * 2).
  { unfold NP.cov, NP.dot, NP.dev, NP.mean. simpl. field. }
  assert (Hyy : NP.cov [2; 3; 4]%Z [2; 3; 4]%Z = 1).
  { unfold NP.cov, NP.dot, NP.dev, NP.mean. simpl. field. }
  assert (Hxy : NP.cov [1; 3; 5]%Z [2; 3; 4]%Z = 2).
  { unfold NP.cov, NP.dot, NP.dev, NP.mean. simpl. field. }
  rewrite Hxx, Hyy, Hxy. unfold NP.sqrt.
  rewrite !Rlt_b_false by lra. rewrite sqrt_square by lra. rewrite sqrt_1.
  unfold NP.div. rewrite !Req_b_false by lra. simpl.
  rewrite Rmax_right, Rmin_right by (try rewrite Rmax_right; lra). 
  f_equal. field.
Qed.

Lemma demo_correlation_3 : correlation_of [1; 3]%Z [4; 4]%Z = NP.Fin 0.
Proof.
  apply correlation_zero_variance; [reflexivity|simpl; lia|].
  right. apply (constant_column_zero_variance 4). repeat constructor.
Qed.

Lemma demo_movie_similarities :
  movie_similarities Demo.ratings 1 (1 / 2) 2
  = [ (2%Z, {| sd_similarity_score := NP.Fin 1;
               sd_cooccurrence_count := 3;
               sd_correlation := NP.Fin 1 |});
      (3%Z, {| sd_similarity_score := NP.Fin (1 / 2);
               sd_cooccurrence_count := 2;
               sd_correlation := NP.Fin 0 |}) ].
Proof.
  unfold movie_similarities.
  cbv -[score_movie Rdiv IZR].
  rewrite (score_movie_keep _ _ _ _ [] 2 _ 1).
  - rewrite (score_movie_keep _ _ _ _ _ 3 _ (1 / 2)).
    + cbv -[correlation_of Rdiv IZR].
      now rewrite demo_correlation_2, demo_correlation_3.
    + vm_compute. discriminate.
    + vm_compute. discriminate.
    + cbv -[correlation_of similarity_of Rdiv IZR].
      rewrite demo_correlation_3. apply similarity_of_zero.
    + lra.
  - vm_compute. discriminate.
  - vm_compute. discriminate.
  - cbv -[correlation_of similarity_of Rdiv IZR].
    rewrite demo_correlation_2, similarity_of_Fin. f_equal. lra.
  - lra.
Qed.

Lemma demo_similar_movies :
  similar_movies Demo.icontains Demo.ratings Demo.movies "usual suspects"
    (1 / 2) 2 10
  = Ok [ {| Similar.movie_id := 2; Similar.title := "Toy Story (1995)";
            Similar.similarity_score := NP.Fin 1;
            Similar.cooccurrence_count := 3;
            Similar.correlation := NP.Fin 1;
            Similar.release_date := "01-Jan-1995" |};
         {| Similar.movie_id := 3; Similar.title := "Untitled";
            Similar.similarity_score := NP.Fin (1 / 2);
            Similar.cooccurrence_count := 2;
            Similar.correlation := NP.Fin 0;
            Similar.release_date := "Unknown" |} ].
Proof.
  unfold similar_movies.
  replace (find_target Demo.icontains Demo.movies "usual suspects")
    with (Ok (hd (Build_Movie 0 "" None []) Demo.movies))
    by (vm_compute; reflexivity).
  change (m_movie_id (hd (Build_Movie 0 "" None []) Demo.movies)) with 1%Z.
  rewrite demo_movie_similarities.
  unfold sorted_movies, Frame.sort_by. cbn [fold_right Frame.insert_by snd
    sd_similarity_score].
  replace (NP.leb (NP.Fin (1 / 2)) (NP.Fin 1)) with true
    by (symmetry; apply leb_Fin; lra).
  reflexivity.
Qed.

(** The exact search is the instance of the search in floating-point
    arithmetic in which every pattern compiles and nothing is rounded. *)
Lemma clip_idem (a : NP.float) :
  NP.clip (-1) 1 (NP.clip (-1) 1 a) = NP.clip (-1) 1 a.
Proof.
  destruct a as [|[|]|x]; simpl; try reflexivity; f_equal;
    unfold Rmin, Rmax; repeat destruct (Rle_dec _ _); lra.
Qed.

Lemma correlation_fl_exact (xs ys : list Z) :
  correlation_fl NP.corrcoef xs ys = correlation_of xs ys.
Proof.
  unfold correlation_fl, corrcoef_fl, correlation_of, NP.corrcoef.
  now rewrite clip_idem.
Qed.

Lemma similarity_fl_exact (c : NP.float) :
  similarity_fl (fun x => x) c = similarity_of c.
Proof.
  unfold similarity_fl, similarity_of. now destruct (NP.add c (NP.Fin 1)).
Qed.

Lemma score_movie_fl_exact (target_movie_ratings : list Rating)
    (target_users : list Z) (similarity_threshold : R)
    (cooccurrence_threshold : Z) (sims : list (Z * similarity_data))
    (g : Z * list Rating) :
  score_movie_fl NP.corrcoef (fun x => x) target_movie_ratings target_users
    similarity_threshold cooccurrence_threshold sims g
  = score_movie target_movie_ratings target_users similarity_threshold
      cooccurrence_threshold sims g.
Proof.
  destruct g as [movie_id movie_ratings]. unfold score_movie_fl, score_movie.
  now rewrite correlation_fl_exact, similarity_fl_exact.
Qed.

Lemma fold_left_pointwise {A B} (f g : A -> B -> A) (l : list B) (a : A) :
  (forall x y, f x y = g x y) -> fold_left f l a = fold_left g l a.
Proof.
  intros Hfg. revert a. induction l as [|y t IH]; intros a; simpl; [reflexivity|].
  now rewrite Hfg, IH.
Qed.

Lemma find_target_re_total (str_contains : string -> string -> bool)
    (movies_df : list Movie) (target_movie : string) :
  find_target_re (fun pattern => Some (str_contains pattern)) movies_df target_movie
  = find_target str_contains movies_df target_movie.
Proof.
  unfold find_target_re, title_match_re, find_target, title_match.
  destruct (filter _ movies_df); [|reflexivity].
  now destruct (filter _ movies_df).
Qed.

Lemma similar_movies_fl_exact (str_contains : string -> string -> bool)
    (ratings_df : list Rating) (movies_df : list Movie) (target_movie : string)
    (similarity_threshold : R) (cooccurrence_threshold top_n : Z) :
  similar_movies_fl (fun pattern => Some (str_contains pattern)) NP.corrcoef
    (fun x => x) ratings_df movies_df target_movie similarity_threshold
    cooccurrence_threshold top_n
  = similar_movies str_contains ratings_df movies_df target_movie
      similarity_threshold cooccurrence_threshold top_n.
Proof.
  unfold similar_movies_fl, similar_movies. rewrite find_target_re_total.
  destruct (find_target str_contains movies_df target_movie) as [target|e];
    [|reflexivity].
  unfold movie_similarities_fl, movie_similarities.
  rewrite (fold_left_pointwise _ _ _ _
             (score_movie_fl_exact _ _ similarity_threshold cooccurrence_threshold)).
  reflexivity.
Qed.

Lemma similar_movies_bounds_witness :
  Forall (fun r =>
            within_bounds (fun x => x) (1 / 2) 2
              (Similar.similarity_score r) (Similar.correlation r)
              (Similar.cooccurrence_count r))
    Sample.similar.
Proof.
  apply (proj1 (similar_movies_bounds
                  (fun pattern => Some (Demo.icontains pattern)) NP.corrcoef
                  (fun x => x) Demo.ratings Demo.movies "usual suspects"%string
                  (1 / 2) 2 10
                  (fun x y Hxy => Hxy) eq_refl eq_refl)).
  rewrite similar_movies_fl_exact. apply demo_similar_movies.
Defined.

Close Scope R_scope.

(** ** The analyses on the small dataset *)

Example demo_mean_age_order :
  map MeanAge.occupation (mean_age_by_occupation Demo.users)
  = ["doctor"; "engineer"]%string.
Proof. reflexivity. Qed.

(** Two occupations of equal mean age come out in ascending order of name,
    whatever their order in the users frame. *)
Example demo_mean_age_tie :
  map (fun r => (MeanAge.occupation r, MeanAge.mean_age r))
      (mean_age_by_occupation
         [ Demo.user 1 30 "M" "writer"; Demo.user 2 40 "F" "none";
           Demo.user 3 30 "F" "artist" ])
  = [ ("none"%string, (4000 # 100)%Q); ("artist"%string, (3000 # 100)%Q);
      ("writer"%string, (3000 # 100)%Q) ].
Proof. reflexivity. Qed.

(** The rows whose occupation is read as a missing value are in no group. *)
Example demo_missing_occupation :
  map (fun r => (MeanAge.occupation r, MeanAge.user_count r))
      (mean_age_by_occupation
         [ Demo.user 1 30 "M" "NA"; Demo.user 2 40 "F" "artist";
           Demo.user 3 20 "M" ""; Demo.user 4 50 "F" "None" ])
  = [ ("artist"%string, 1) ].
Proof. reflexivity. Qed.

Example demo_top_genres_segments :
  map (fun r => (TopGenres.occupation r, TopGenres.age_group r,
                 List.length (TopGenres.top_genres r), TopGenres.total_users r))
      (top_genres_by_occupation_age Demo.ratings Demo.users Demo.movie_genres)
  = [ ("doctor"%string, "35-45"%string, 3%nat, 1);
      ("engineer"%string, "25-35"%string, 3%nat, 1);
      ("engineer"%string, "35-45"%string, 3%nat, 1) ].
Proof. vm_compute. reflexivity. Qed.

Example demo_top_rated_unknown_date :
  match top_rated_movies Demo.ratings Demo.movies 2 1 with
  | Ok res => map (fun r => (TopMovie.movie_id r, TopMovie.release_date r)) res
  | Raise _ => []
  end = [ (3, "Unknown"%string) ].
Proof. vm_compute. reflexivity. Qed.

(** [head] with a negative count drops rows from the end, as pandas does. *)
Example demo_head_negative : Frame.head (-1) [1; 2; 3] = [1; 2].
Proof. reflexivity. Qed.

Example demo_get_movie_genres :
  map mg_genre (get_movie_genres Demo.movies)
  = ["Crime"; "Thriller"; "Animation"; "Children's"; "Comedy"; "Unknown"]%string.
Proof. reflexivity. Qed.


(** * Further properties of the loader and the analyses *)

(** ** The loader *)

Ltac run_loader :=
  cbv [download_and_load_data bind lift MovieLensDataLoader load put ret raise
       exists_file negb data_dir_exists f_data f_user f_item f_genre
       f_occupation].

(** X1: a load that raises because the directory or a required file is
    missing, because a file cannot be parsed, or because the occupations
    file cannot be opened, leaves the globals as they were; a load that
    raises [ZeroDivisionError] has read all the files and assigned the
    globals before computing the statistics of a dataset whose users or
    movies file has no rows. *)
Theorem failed_load_globals (fs : FileSystem) (g g' : Globals) (e : string) :
  download_and_load_data fs g = (Raise e, g') ->
  (In e [DataDirectoryNotFound; RequiredFileNotFound; ParserError;
         FileNotFoundError] -> g' = g) /\
  (e = ZeroDivisionError ->
   exists r u m gs o,
     fs = files r u m gs o /\ (u = [] \/ m = []) /\
     g' = loaded_globals r u m gs o).
Proof.
  intros Hload.
  assert (Hcases : (e <> ZeroDivisionError /\ g' = g) \/
                   (e = ZeroDivisionError /\
                    exists r u m gs o,
                      fs = files r u m gs o /\ (u = [] \/ m = []) /\
                      g' = loaded_globals r u m gs o)).
  { revert Hload. destruct fs as [d fd fu fi fg fo].
    destruct d, fd as [| |r], fu as [| |u], fi as [| |m], fg as [| |gs],
             fo as [| |o];
      run_loader;
      try (intros [= <- <-]; left; split; [discriminate|reflexivity]).
    unfold data_info.
    destruct (len u * len m =? 0) eqn:E; [|discriminate].
    intros [= <- <-]. right. split; [reflexivity|].
    exists r, u, m, gs, o. split; [reflexivity|]. split; [|reflexivity].
    apply Z.eqb_eq in E. unfold len in E.
    destruct u; [now left|]. destruct m; [now right|]. simpl in E. lia. }
  split.
  - intros Hin. destruct Hcases as [[_ Hg]|[-> _]]; [exact Hg|].
    simpl in Hin. destruct Hin as [H|[H|[H|[H|[]]]]]; discriminate.
  - intros He. destruct Hcases as [[Hne _]|[_ Hfiles]]; [contradiction|exact Hfiles].
Qed.

Lemma failed_load_globals_witness :
  exists r u m gs o,
    files Demo.ratings [] Demo.movies Demo.genres [] = files r u m gs o /\
    (u = [] \/ m = []) /\
    loaded_globals Demo.ratings [] Demo.movies Demo.genres []
    = loaded_globals r u m gs o.
Proof.
  apply (proj2 (failed_load_globals
                  (files Demo.ratings [] Demo.movies Demo.genres [])
                  initial_globals
                  (loaded_globals Demo.ratings [] Demo.movies Demo.genres [])
                  ZeroDivisionError eq_refl)).
  reflexivity.
Defined.

(** X2: after a load that returns, whatever the globals held before,
    [get_data] gives the rows of the four files and the genre frame derived
    from the movies; the users and the movies file have rows, and the
    statistics count the rows of the files. *)
Theorem load_then_get_data (fs : FileSystem) (g g' : Globals) (info : DataInfo) :
  download_and_load_data fs g = (Ok info, g') ->
  exists r u m gs o,
    fs = files r u m gs o /\ u <> [] /\ m <> [] /\
    g' = loaded_globals r u m gs o /\
    get_data g' =
      (Ok {| ratings_df := Some r; users_df := Some u; movies_df := Some m;
             genres_df := Some gs;
             movie_genres_df := Some (get_movie_genres m) |}, g') /\
    total_ratings info = len r /\ total_users info = len u /\
    total_movies info = len m.
Proof.
  destruct fs as [d fd fu fi fg fo].
  destruct d, fd as [| |r], fu as [| |u], fi as [| |m], fg as [| |gs], fo as [| |o];
    run_loader; try discriminate.
  unfold data_info.
  destruct (len u * len m =? 0) eqn:E; [discriminate|].
  intros [= <- <-]. exists r, u, m, gs, o.
  apply Z.eqb_neq in E.
  repeat split; try reflexivity; intros ->; apply E; unfold len; simpl; lia.
Qed.

Lemma load_then_get_data_witness :
  exists r u m gs o,
    Demo.fs = files r u m gs o /\ u <> [] /\ m <> [] /\
    loaded_globals Demo.ratings Demo.users Demo.movies Demo.genres
      ["doctor"; "engineer"]%string = loaded_globals r u m gs o.
Proof.
  destruct (load_then_get_data Demo.fs initial_globals
              (loaded_globals Demo.ratings Demo.users Demo.movies Demo.genres
                 ["doctor"; "engineer"]%string)
              {| total_ratings := 8; total_users := 3; total_movies := 3;
                 total_genres := 2; total_occupations := 2;
                 unique_users := 3; unique_movies := 3;
                 avg_rating := Some (325 # 100)%Q;
                 sparsity := (1111 # 10000)%Q |})
    as (r & u & m & gs & o & Hfs & Hu & Hm & Hg & _).
  - vm_compute. reflexivity.
  - exists r, u, m, gs, o. auto.
Defined.

(** X3: the constructor of the loader accepts a directory that holds the
    four required files but no [u.occupation]; the load then raises
    [FileNotFoundError] when it reads the occupations, and leaves the
    globals as they were. *)
Theorem missing_occupation_file (r : list Rating) (u : list User) (m : list Movie)
    (gs : list Genre) (g : Globals) :
  let fs :=
    {| data_dir_exists := true; f_data := Content r; f_user := Content u;
       f_item := Content m; f_genre := Content gs; f_occupation := Absent |} in
  MovieLensDataLoader fs = Ok tt /\
  download_and_load_data fs g = (Raise FileNotFoundError, g).
Proof. split; reflexivity. Qed.

(** ** The movie-genre frame *)

Lemma genre_names_display :
  map GenreNames.display_name GenreNames.genre_columns = genre_names.
Proof. reflexivity. Qed.

Lemma In_combine_nth_error {A B} (l : list A) (l' : list B) (a : A) (b : B) :
  In (a, b) (combine l l') <->
  exists i : nat, nth_error l i = Some a /\ nth_error l' i = Some b.
Proof.
  revert l'. induction l as [|x t IH]; intros [|y t']; simpl.
  - split; [tauto|]. intros ([|i] & Hi & _); discriminate.
  - split; [tauto|]. intros ([|i] & Hi & _); discriminate.
  - split; [tauto|]. intros ([|i] & _ & Hi); discriminate.
  - rewrite IH. split.
    + intros [[= -> ->]|(i & Ha & Hb)].
      * exists 0%nat. auto.
      * exists (S i). auto.
    + intros ([|i] & Ha & Hb); simpl in *.
      * left. congruence.
      * right. eauto.
Qed.

(** X4: the movie-genre frame has a row for a movie and a genre exactly when
    the movie's indicator in the genre's column is 1; the row carries the
    movie's id and title and the display name derived from the column
    name. *)
Theorem get_movie_genres_rows (movies_df : list Movie) (row : MovieGenre) :
  In row (get_movie_genres movies_df) <->
  exists (movie : Movie) (i : nat) (genre_col : string),
    In movie movies_df /\
    nth_error (flags movie) i = Some 1 /\
    nth_error GenreNames.genre_columns i = Some genre_col /\
    row = {| mg_movie_id := m_movie_id movie; mg_title := m_title movie;
             mg_genre := GenreNames.display_name genre_col |}.
Proof.
  unfold get_movie_genres. rewrite in_flat_map. split.
  - intros (movie & Hmovie & Hrow). apply in_flat_map in Hrow.
    destruct Hrow as ([flag name] & Hfg & Hrow). simpl in Hrow.
    destruct (Z.eqb_spec flag 1) as [->|Hne]; [|contradiction].
    destruct Hrow as [<-|[]].
    apply In_combine_nth_error in Hfg. destruct Hfg as (i & Hflag & Hname).
    rewrite <- genre_names_display, nth_error_map in Hname.
    destruct (nth_error GenreNames.genre_columns i) as [col|] eqn:Hcol;
      [|discriminate].
    injection Hname as <-. exists movie, i, col. auto.
  - intros (movie & i & col & Hmovie & Hflag & Hcol & ->).
    exists movie. split; [exact Hmovie|]. apply in_flat_map.
    exists (1, GenreNames.display_name col). split.
    + apply In_combine_nth_error. exists i. split; [exact Hflag|].
      rewrite <- genre_names_display, nth_error_map, Hcol. reflexivity.
    + simpl. now left.
Qed.

Lemma genre_rows_count (movie : Movie) (names : list string) (l : list Z) :
  List.length
    (flat_map
       (fun fg : Z * string =>
          if fst fg =? 1
          then [ {| mg_movie_id := m_movie_id movie; mg_title := m_title movie;
                    mg_genre := snd fg |} ]
          else [])
       (combine l names))
  = List.length (filter (fun flag => flag =? 1) (firstn (List.length names) l)).
Proof.
  revert names. induction l as [|flag t IH]; intros [|name names]; simpl;
    try reflexivity.
  rewrite length_app, IH. destruct (flag =? 1); reflexivity.
Qed.

Lemma flat_map_length {A B} (f : A -> list B) (l : list A) :
  List.length (flat_map f l) = list_sum (map (fun x => List.length (f x)) l).
Proof.
  induction l as [|x t IH]; simpl; [reflexivity|]. now rewrite length_app, IH.
Qed.

(** X5: the movie-genre frame has, for every movie, as many rows as the movie
    has indicators equal to 1 among its 19 genre columns; a movie without
    any genre contributes no row. *)
Theorem get_movie_genres_count (movies_df : list Movie) :
  List.length (get_movie_genres movies_df) =
  list_sum
    (map (fun movie =>
            List.length (filter (fun flag => flag =? 1) (firstn 19 (flags movie))))
         movies_df).
Proof.
  unfold get_movie_genres. rewrite flat_map_length. f_equal.
  apply map_ext. intros movie. apply (genre_rows_count movie genre_names).
Qed.

(** ** Analyses on a loaded dataset *)

(** X6: an analysis invoked when the globals hold the frames reads no file:
    for any state of the data directory it returns what it computes from the
    frames in the globals, and leaves the globals as they are. *)
Theorem loaded_analysis_reads_no_file (str_contains : string -> string -> bool)
    (fs : FileSystem) (g : Globals) (r : list Rating) (u : list User)
    (m : list Movie) (mg : list MovieGenre) (target_movie : string)
    (similarity_threshold : R) (cooccurrence_threshold min_ratings top_n : Z) :
  RATINGS_DF g = Some r -> USERS_DF g = Some u -> MOVIES_DF g = Some m ->
  MOVIE_GENRES_DF g = Some mg ->
  analyze_mean_age_by_occupation fs g = (Ok (mean_age_by_occupation u), g) /\
  analyze_top_rated_movies fs min_ratings top_n g
    = (top_rated_movies r m min_ratings top_n, g) /\
  analyze_top_genres_by_occupation_age fs g
    = (match mg with
       | [] => Raise KeyError
       | _ => Ok (top_genres_by_occupation_age r u mg)
       end, g) /\
  find_similar_movies str_contains fs target_movie similarity_threshold
    cooccurrence_threshold top_n g
    = (similar_movies str_contains r m target_movie similarity_threshold
         cooccurrence_threshold top_n, g).
Proof.
  intros Hr Hu Hm Hmg.
  unfold analyze_mean_age_by_occupation, analyze_top_rated_movies,
    analyze_top_genres_by_occupation_age, find_similar_movies, ensure_loaded,
    try_except, bind, get_data, ret, lift, raise.
  cbn [ratings_df users_df movies_df movie_genres_df].
  rewrite Hr, Hu, Hm, Hmg. cbn [is_none orb frame].
  repeat split. destruct mg; reflexivity.
Qed.

Lemma loaded_analysis_reads_no_file_witness :
  analyze_mean_age_by_occupation
    {| data_dir_exists := false; f_data := Absent; f_user := Absent;
       f_item := Absent; f_genre := Absent; f_occupation := Absent |}
    (loaded_globals Demo.ratings Demo.users Demo.movies Demo.genres [])
  = (Ok (mean_age_by_occupation Demo.users),
     loaded_globals Demo.ratings Demo.users Demo.movies Demo.genres []).
Proof.
  apply (loaded_analysis_reads_no_file Demo.icontains
           {| data_dir_exists := false; f_data := Absent; f_user := Absent;
              f_item := Absent; f_genre := Absent; f_occupation := Absent |}
           (loaded_globals Demo.ratings Demo.users Demo.movies Demo.genres [])
           Demo.ratings Demo.users Demo.movies (get_movie_genres Demo.movies)
           "x" 0%R 0 0 0); reflexivity.
Defined.

(** ** Rounding keeps integer bounds *)

Lemma round_half_even_ge (x : Q) (n : Z) :
  (inject_Z n <= x)%Q -> n <= Stats.round_half_even x.
Proof.
  intros Hn. assert (Hf : n <= Qfloor x).
  { rewrite <- (Qfloor_Z n). now apply Qfloor_resp_le. }
  unfold Stats.round_half_even.
  destruct (Qcompare _ _); [destruct (Z.even _)| |]; lia.
Qed.

Lemma round_half_even_le (x : Q) (n : Z) :
  (x <= inject_Z n)%Q -> Stats.round_half_even x <= n.
Proof.
  intros Hn. assert (Hf : Qfloor x <= n).
  { rewrite <- (Qfloor_Z n). now apply Qfloor_resp_le. }
  unfold Stats.round_half_even.
  destruct (Z.eq_dec (Qfloor x) n) as [Heq|Hne].
  - pose proof (Qfloor_le x) as Hlo. rewrite Heq in *.
    destruct (Qcompare_spec (x - inject_Z n) (1 # 2)) as [E|E|E].
    + generalize dependent (inject_Z n). intros; lra.
    + lia.
    + generalize dependent (inject_Z n). intros; lra.
  - destruct (Qcompare _ _); [destruct (Z.even _)| |]; lia.
Qed.

(** A value between two integers is rounded to a value between them. *)
Lemma round_between (d : nat) (q : Q) (lo hi : Z) :
  (inject_Z lo <= q)%Q -> (q <= inject_Z hi)%Q ->
  (inject_Z lo <= Stats.round d q)%Q /\ (Stats.round d q <= inject_Z hi)%Q.
Proof.
  intros Hlo Hhi. pose proof (pow10_pos d) as Hp.
  assert (HP : (0 <= inject_Z (Stats.pow10 d))%Q).
  { change 0%Q with (inject_Z 0). rewrite <- Zle_Qle. lia. }
  unfold Stats.round, Qle. simpl. rewrite !Z2Pos.id by exact Hp. split.
  - rewrite Z.mul_1_r. apply round_half_even_ge.
    rewrite inject_Z_mult. now apply Qmult_le_compat_r.
  - rewrite Z.mul_1_r. apply round_half_even_le.
    rewrite inject_Z_mult. now apply Qmult_le_compat_r.
Qed.

Lemma sum_bounds (lo hi : Z) (l : list Z) :
  Forall (fun x => lo <= x <= hi) l ->
  lo * Stats.count l <= Stats.sum l <= hi * Stats.count l.
Proof.
  unfold Stats.count. induction 1 as [|x t Hx Ht IH].
  - simpl. lia.
  - cbn [Stats.sum fold_right List.length]. fold (Stats.sum t). lia.
Qed.

(** The mean of a non-empty column lies between any bounds of its values. *)
Lemma mean_bounds (lo hi : Z) (l : list Z) :
  l <> [] -> Forall (fun x => lo <= x <= hi) l ->
  (inject_Z lo <= Stats.mean l)%Q /\ (Stats.mean l <= inject_Z hi)%Q.
Proof.
  intros Hne Hall. pose proof (sum_bounds lo hi l Hall) as [Hlo Hhi].
  assert (Hn : 0 < Stats.count l).
  { unfold Stats.count. destruct l; [congruence|]. simpl. lia. }
  assert (HnQ : (0 < inject_Z (Stats.count l))%Q).
  { change 0%Q with (inject_Z 0). now rewrite <- Zlt_Qlt. }
  unfold Stats.mean. split.
  - apply Qle_shift_div_l; [exact HnQ|].
    rewrite <- inject_Z_mult, <- Zle_Qle. exact Hlo.
  - apply Qle_shift_div_r; [exact HnQ|].
    rewrite <- inject_Z_mult, <- Zle_Qle. exact Hhi.
Qed.

Lemma agg_mean_bounds (d : nat) (lo hi : Z) (col : list Z) :
  col <> [] -> Forall (fun x => lo <= x <= hi) col ->
  (inject_Z lo <= agg_mean (agg d col))%Q /\ (agg_mean (agg d col) <= inject_Z hi)%Q.
Proof.
  intros Hne Hall. destruct (mean_bounds lo hi col Hne Hall).
  now apply round_between.
Qed.

(** ** Task 1: what the records add up to *)

Lemma occupation_ages_nonempty (users_df : list User) (occ : string) :
  In occ (map occupation users_df) ->
  map age (filter (fun u => String.eqb (occupation u) occ) users_df) <> [].
Proof.
  intros Hin Hnil. apply in_map_iff in Hin. destruct Hin as (u & Hocc & Hu).
  apply map_eq_nil in Hnil.
  assert (Hf : In u (filter (fun u0 => String.eqb (occupation u0) occ) users_df)).
  { apply filter_In. split; [exact Hu|]. now apply String.eqb_eq. }
  rewrite Hnil in Hf. exact Hf.
Qed.

(** X7: every record of the demographic output belongs to an occupation of
    the users frame, counts at least one user, has a mean age between its
    minimum and its maximum age, and a standard deviation that is not
    negative. *)
Theorem mean_age_record_sound (users_df : list User) (r : MeanAge.t) :
  In r (mean_age_by_occupation users_df) ->
  In (MeanAge.occupation r) (map occupation users_df) /\
  1 <= MeanAge.user_count r /\
  (inject_Z (MeanAge.min_age r) <= MeanAge.mean_age r)%Q /\
  (MeanAge.mean_age r <= inject_Z (MeanAge.max_age r))%Q /\
  (0 <= MeanAge.std_dev r)%Q.
Proof.
  rewrite mean_age_by_occupation_eq. intros Hr. apply sort_desc_In in Hr.
  apply in_map_iff in Hr. destruct Hr as (row & <- & Hrow).
  apply occupation_age_stats_In in Hrow. destruct Hrow as (_ & Hocc & Hstats).
  pose proof (occupation_ages_nonempty users_df (fst row) Hocc) as Hne.
  unfold mean_age_result; simpl. rewrite Hstats.
  set (ages := map age _) in *.
  destruct (min_spec ages Hne) as [_ Hmin].
  destruct (max_spec ages Hne) as [_ Hmax].
  split; [exact Hocc|]. split; [|split; [|split]].
  - simpl. unfold Stats.count. destruct ages; [congruence|]. simpl. lia.
  - apply (agg_mean_bounds 2 (Stats.min ages) (Stats.max ages) ages Hne).
    rewrite Forall_forall in *. intros x Hx. split; auto.
  - apply (agg_mean_bounds 2 (Stats.min ages) (Stats.max ages) ages Hne).
    rewrite Forall_forall in *. intros x Hx. split; auto.
  - simpl. unfold Stats.std_round.
    destruct (Stats.var ages) as [v|] eqn:Hv; simpl; [|apply Qle_refl].
    destruct (round_sqrt_units_spec 2 v (var_nonneg ages v Hv)) as [Hk _].
    unfold Stats.round_sqrt, Qle. simpl. lia.
Qed.

Lemma mean_age_record_sound_witness :
  (inject_Z 25 <= (3000 # 100))%Q /\ ((3000 # 100) <= inject_Z 35)%Q.
Proof.
  pose proof (mean_age_record_sound Demo.users
                (mean_age_result ("engineer"%string, agg 2 [25; 35]))) as H.
  destruct H as (_ & _ & Hlo & Hhi & _).
  - vm_compute. auto.
  - split; [exact Hlo|exact Hhi].
Defined.

Lemma count_in_NoDup {K} `{OrdLaws K} (x : K) (ks : list K) :
  NoDup ks -> In x ks ->
  list_sum (map (fun k => if key_eqb x k then 1%nat else 0%nat) ks) = 1%nat.
Proof.
  induction 1 as [|k t Hnin Hnd IH]; simpl; [tauto|].
  intros [->|Hin].
  - replace (key_eqb x x) with true by (symmetry; now apply key_eqb_eq).
    assert (Hz : list_sum (map (fun k => if key_eqb x k then 1%nat else 0%nat) t)
                 = 0%nat).
    { clear IH Hnd. induction t as [|k t IHt]; simpl; [reflexivity|].
      destruct (key_eqb x k) eqn:E.
      - apply key_eqb_eq in E. subst. exfalso. apply Hnin. now left.
      - apply IHt. intros Hin. apply Hnin. now right. }
    now rewrite Hz.
  - destruct (key_eqb x k) eqn:E.
    + apply key_eqb_eq in E. subst. contradiction.
    + now rewrite IH.
Qed.

(** The groups of a [groupby] share out the rows: their sizes add up to the
    number of rows. *)
Lemma groups_share_rows {K A} `{OrdLaws K} (key : A -> K) (ks : list K)
    (rows : list A) :
  NoDup ks -> (forall r, In r rows -> In (key r) ks) ->
  list_sum (map (fun k => List.length (filter (fun r => key_eqb (key r) k) rows)) ks)
  = List.length rows.
Proof.
  intros Hnd. induction rows as [|r t IH]; intros Hin; simpl.
  - clear. induction ks as [|k ks IHks]; simpl; [reflexivity|exact IHks].
  - assert (Hsplit :
      list_sum (map (fun k => List.length
                               (if key_eqb (key r) k
                                then r :: filter (fun r0 => key_eqb (key r0) k) t
                                else filter (fun r0 => key_eqb (key r0) k) t)) ks)
      = (list_sum (map (fun k => if key_eqb (key r) k then 1%nat else 0%nat) ks)
         + list_sum (map (fun k => List.length
                                     (filter (fun r0 => key_eqb (key r0) k) t)) ks))%nat).
    { clear. induction ks as [|k ks IHks]; simpl; [reflexivity|].
      rewrite IHks. destruct (key_eqb (key r) k); simpl; lia. }
    rewrite Hsplit, (count_in_NoDup (key r) ks Hnd (Hin r (or_introl eq_refl))).
    rewrite IH by (intros; apply Hin; now right). reflexivity.
Qed.

Lemma groupby_sizes {K A} `{OrdLaws K} (key : A -> K) (rows : list A) :
  list_sum (map (fun g => List.length (snd g)) (Frame.groupby key rows))
  = List.length rows.
Proof.
  unfold Frame.groupby. rewrite map_map. simpl.
  apply groups_share_rows.
  - apply strictly_sorted_NoDup, sorted_keys_sorted.
  - intros r Hr. apply sorted_keys_In. now apply in_map.
Qed.

Lemma sum_perm (l l' : list Z) : Permutation l l' -> Stats.sum l = Stats.sum l'.
Proof.
  unfold Stats.sum. induction 1; simpl; try lia.
Qed.

Lemma sum_of_lengths {A} (f : A -> nat) (l : list A) :
  Stats.sum (map (fun x => Z.of_nat (f x)) l) = Z.of_nat (list_sum (map f l)).
Proof.
  unfold Stats.sum. induction l as [|x t IH]; simpl; [reflexivity|].
  rewrite IH. lia.
Qed.

(** X8: the user counts of the demographic output add up to the number of
    rows of the users frame whose occupation is not missing, and there is
    one record per distinct occupation that is not missing; a frame without
    such a row gives no record. *)
Theorem user_counts_total (users_df : list User) :
  Stats.sum (map MeanAge.user_count (mean_age_by_occupation users_df))
    = len (Frame.dropna occupation users_df) /\
  len (mean_age_by_occupation users_df)
    = count_distinct (map occupation (Frame.dropna occupation users_df)).
Proof.
  rewrite mean_age_by_occupation_eq. split.
  - rewrite (sum_perm _ _ (Permutation_map MeanAge.user_count
                             (sort_desc_perm MeanAge.mean_age _))).
    unfold occupation_age_stats. rewrite !map_map. simpl.
    unfold Stats.count.
    rewrite (map_ext _ (fun g : string * list User =>
                          Z.of_nat (List.length (snd g))))
      by (intros g; now rewrite length_map).
    rewrite sum_of_lengths, groupby_sizes. reflexivity.
  - unfold len, count_distinct, len.
    rewrite (Permutation_length (sort_desc_perm MeanAge.mean_age _)).
    rewrite length_map. unfold occupation_age_stats. rewrite length_map.
    rewrite <- (length_map fst), groupby_keys. f_equal.
    apply Permutation_length, NoDup_Permutation.
    + apply strictly_sorted_NoDup, sorted_keys_sorted.
    + apply NoDup_nodup.
    + intros x. rewrite sorted_keys_In, nodup_In. tauto.
Qed.

(** ** Task 2: errors and selection *)

Lemma for_each_total {A B} (f : A -> Result B) (l : list A) :
  (forall x, In x l -> exists y, f x = Ok y) ->
  exists ys, for_each f l = Ok ys /\ List.length ys = List.length l.
Proof.
  induction l as [|x t IH]; simpl; intros Hall.
  - exists []. auto.
  - destruct (Hall x (or_introl eq_refl)) as [y Hy]. rewrite Hy.
    destruct IH as (ys & Hys & Hlen); [intros; apply Hall; now right|].
    rewrite Hys. exists (y :: ys). simpl. auto.
Qed.

Lemma for_each_Raise {A B} (f : A -> Result B) (l : list A) (e : string) :
  for_each f l = Raise e -> exists x, In x l /\ f x = Raise e.
Proof.
  induction l as [|x t IH]; simpl; [discriminate|].
  destruct (f x) as [y|e'] eqn:E.
  - destruct (for_each f t) as [ys|e'']; [discriminate|].
    intros [= <-]. destruct (IH eq_refl) as (x' & Hin & Hx'). eauto.
  - intros [= <-]. eauto.
Qed.

Lemma movie_info_Ok (movies_df : list Movie) (movie_id : Z) :
  (exists m, In m movies_df /\ m_movie_id m = movie_id) ->
  exists info, movie_info movies_df movie_id = Ok info /\ m_movie_id info = movie_id.
Proof.
  intros (m & Hm & Hid). unfold movie_info.
  destruct (filter (fun m0 => m_movie_id m0 =? movie_id) movies_df) as [|x rest] eqn:E.
  - assert (Hin : In m (filter (fun m0 => m_movie_id m0 =? movie_id) movies_df)).
    { apply filter_In. split; [exact Hm|]. now apply Z.eqb_eq. }
    rewrite E in Hin. destruct Hin.
  - exists x. split; [reflexivity|].
    assert (Hin : In x (filter (fun m0 => m_movie_id m0 =? movie_id) movies_df))
      by (rewrite E; now left).
    apply filter_In in Hin. now apply Z.eqb_eq.
Qed.

Lemma movie_info_Raise (movies_df : list Movie) (movie_id : Z) (e : string) :
  movie_info movies_df movie_id = Raise e ->
  e = IndexError /\ forall m, In m movies_df -> m_movie_id m <> movie_id.
Proof.
  unfold movie_info.
  destruct (filter (fun m0 => m_movie_id m0 =? movie_id) movies_df) as [|x rest] eqn:E;
    [|discriminate].
  intros [= <-]. split; [reflexivity|]. intros m Hm Hid.
  assert (Hin : In m (filter (fun m0 => m_movie_id m0 =? movie_id) movies_df)).
  { apply filter_In. split; [exact Hm|]. now apply Z.eqb_eq. }
  rewrite E in Hin. exact Hin.
Qed.

Lemma movie_stats_rated (ratings_df : list Rating) (row : Z * AggRow) :
  In row (movie_stats ratings_df) -> In (fst row) (map r_movie_id ratings_df).
Proof.
  unfold movie_stats. rewrite in_map_iff. intros ([k g] & <- & Hin). simpl.
  apply groupby_In in Hin. tauto.
Qed.

Lemma head_length_min {A} (n : Z) (l : list A) :
  0 <= n -> len (Frame.head n l) = Z.min n (len l).
Proof.
  intros Hn. unfold Frame.head, len. apply Z.leb_le in Hn as Hb. rewrite Hb.
  rewrite length_firstn. lia.
Qed.

(** X9: when every rated movie is in the movies frame, the rating
    aggregation does not raise, and for a [top_n] that is not negative it
    returns [top_n] records, or all movies with [min_ratings] ratings when
    there are fewer. *)
Theorem top_rated_movies_total (ratings_df : list Rating) (movies_df : list Movie)
    (min_ratings top_n : Z) :
  (forall x, In x ratings_df ->
             exists m, In m movies_df /\ m_movie_id m = r_movie_id x) ->
  exists res,
    top_rated_movies ratings_df movies_df min_ratings top_n = Ok res /\
    (0 <= top_n ->
     len res =
       Z.min top_n
         (len (filter (fun row => min_ratings <=? agg_count (snd row))
                 (movie_stats ratings_df)))).
Proof.
  intros Hint. unfold top_rated_movies.
  destruct (for_each_total (top_movie_result movies_df)
              (top_movies ratings_df min_ratings top_n)) as (res & Hres & Hlen).
  - intros row Hrow. apply top_movies_In in Hrow. destruct Hrow as [Hrow _].
    apply movie_stats_rated, in_map_iff in Hrow.
    destruct Hrow as (x & Hx & Hin).
    destruct (movie_info_Ok movies_df (fst row)) as (info & Hinfo & _).
    { destruct (Hint x Hin) as (m & Hm & Hid). exists m. split; congruence. }
    unfold top_movie_result. rewrite Hinfo. eauto.
  - exists res. split; [exact Hres|]. intros Hn.
    unfold len at 1. rewrite Hlen. fold (len (top_movies ratings_df min_ratings top_n)).
    unfold top_movies. rewrite head_length_min by exact Hn. f_equal.
    unfold len. now rewrite (Permutation_length (sort_desc_perm _ _)).
Qed.

Lemma top_rated_movies_total_witness :
  exists res,
    top_rated_movies Demo.ratings Demo.movies 3 5 = Ok res /\
    (0 <= 5 ->
     len res =
       Z.min 5
         (len (filter (fun row => 3 <=? agg_count (snd row))
                 (movie_stats Demo.ratings)))).
Proof.
  apply (top_rated_movies_total Demo.ratings Demo.movies 3 5).
  intros x Hx.
  assert (Hall : forallb (fun y => existsb (fun m => m_movie_id m =? r_movie_id y)
                                     Demo.movies) Demo.ratings = true)
    by reflexivity.
  rewrite forallb_forall in Hall. specialize (Hall x Hx).
  apply existsb_exists in Hall. destruct Hall as (m & Hm & Hid).
  exists m. split; [exact Hm|]. now apply Z.eqb_eq.
Defined.

(** X10: the only error of the rating aggregation is [IndexError], raised
    when one of the selected movies has no row in the movies frame. *)
Theorem top_rated_movies_error (ratings_df : list Rating) (movies_df : list Movie)
    (min_ratings top_n : Z) (e : string) :
  top_rated_movies ratings_df movies_df min_ratings top_n = Raise e ->
  e = IndexError /\
  exists row,
    In row (top_movies ratings_df min_ratings top_n) /\
    In (fst row) (map r_movie_id ratings_df) /\
    forall m, In m movies_df -> m_movie_id m <> fst row.
Proof.
  unfold top_rated_movies. intros He. apply for_each_Raise in He.
  destruct He as (row & Hrow & He). unfold top_movie_result in He.
  destruct (movie_info movies_df (fst row)) as [info|e'] eqn:Einfo; [discriminate|].
  injection He as <-. apply movie_info_Raise in Einfo. destruct Einfo as [-> Hno].
  split; [reflexivity|]. exists row. split; [exact Hrow|]. split; [|exact Hno].
  apply top_movies_In in Hrow. now apply movie_stats_rated.
Qed.

Lemma top_rated_movies_error_witness :
  IndexError = IndexError /\
  exists row,
    In row (top_movies [Demo.rate 1 9 5] 1 20) /\
    In (fst row) (map r_movie_id [Demo.rate 1 9 5]) /\
    forall m, In m Demo.movies -> m_movie_id m <> fst row.
Proof.
  apply (top_rated_movies_error [Demo.rate 1 9 5] Demo.movies 1 20 IndexError).
  vm_compute. reflexivity.
Defined.

Lemma StronglySorted_app_cross {A} (R : A -> A -> Prop) (l1 l2 : list A) (x y : A) :
  StronglySorted R (l1 ++ l2) -> In x l1 -> In y l2 -> R x y.
Proof.
  induction l1 as [|a t IH]; simpl; [tauto|].
  intros Hs [->|Hx] Hy; inversion Hs as [|? ? Hs' Hall]; subst.
  - rewrite Forall_forall in Hall. apply Hall, in_or_app. now right.
  - now apply IH.
Qed.

(** X11: the records returned are the best: a movie with [min_ratings]
    ratings that is left out has a mean rating not above that of any movie
    returned. *)
Theorem top_rated_movies_best (ratings_df : list Rating) (movies_df : list Movie)
    (min_ratings top_n : Z) (res : list TopMovie.t) (row : Z * AggRow)
    (r : TopMovie.t) :
  top_rated_movies ratings_df movies_df min_ratings top_n = Ok res ->
  In row (movie_stats ratings_df) ->
  min_ratings <= agg_count (snd row) ->
  ~ In (fst row) (map TopMovie.movie_id res) ->
  In r res ->
  (agg_mean (snd row) <= TopMovie.avg_rating r)%Q.
Proof.
  intros Hres Hrow Hmin Hout Hr. unfold top_rated_movies in Hres.
  apply for_each_Ok in Hres.
  destruct (Forall2_In_r _ _ _ _ Hres Hr) as (row' & Hrow' & Hok).
  apply top_movie_result_Ok in Hok. destruct Hok as (_ & -> & _).
  assert (Hids : map TopMovie.movie_id res
                 = map fst (top_movies ratings_df min_ratings top_n)).
  { apply Forall2_map_eq with (P := fun x y => top_movie_result movies_df x = Ok y);
      [|exact Hres].
    intros x y Hxy. apply top_movie_result_Ok in Hxy. tauto. }
  rewrite Hids in Hout. unfold top_movies in *.
  set (qualified := filter (fun row0 => min_ratings <=? agg_count (snd row0))
                      (movie_stats ratings_df)) in *.
  set (sorted := sort_desc (fun row0 : Z * AggRow => agg_mean (snd row0)) qualified) in *.
  destruct (head_prefix top_n sorted) as [rest Hrest].
  assert (Hin : In row sorted).
  { apply sort_desc_In, filter_In. split; [exact Hrow|]. now apply Z.leb_le. }
  rewrite Hrest in Hin. apply in_app_or in Hin. destruct Hin as [Hin|Hin].
  - exfalso. apply Hout. now apply in_map.
  - pose proof (sort_desc_sorted (fun row0 : Z * AggRow => agg_mean (snd row0))
                  qualified) as Hs.
    fold sorted in Hs. rewrite Hrest in Hs.
    exact (StronglySorted_app_cross _ _ _ _ _ Hs Hrow' Hin).
Qed.

Lemma top_rated_movies_best_witness :
  (agg_mean (agg 3 [2; 3; 4]%Z) <= (4000 # 1000))%Q.
Proof.
  apply (top_rated_movies_best Demo.ratings Demo.movies 2 1
           [ {| TopMovie.movie_id := 3; TopMovie.title := "Untitled";
                TopMovie.avg_rating := (4000 # 1000)%Q;
                TopMovie.rating_count := 2; TopMovie.rating_std := (0 # 1000)%Q;
                TopMovie.release_date := "Unknown" |} ]
           (2, agg 3 [2; 3; 4])
           {| TopMovie.movie_id := 3; TopMovie.title := "Untitled";
              TopMovie.avg_rating := (4000 # 1000)%Q;
              TopMovie.rating_count := 2; TopMovie.rating_std := (0 # 1000)%Q;
              TopMovie.release_date := "Unknown" |}).
  - vm_compute. reflexivity.
  - vm_compute. auto.
  - vm_compute. discriminate.
  - vm_compute. intros [H|[]]. discriminate.
  - now left.
Defined.

(** X12: when every rating lies between two integers, so does the mean
    rating of every record returned (between 1 and 5 on the scale of the
    dataset); the reported standard deviation is never negative. *)
Theorem top_rated_movies_range (ratings_df : list Rating) (movies_df : list Movie)
    (min_ratings top_n lo hi : Z) (res : list TopMovie.t) :
  Forall (fun x => lo <= rating x <= hi) ratings_df ->
  top_rated_movies ratings_df movies_df min_ratings top_n = Ok res ->
  Forall (fun r =>
            (inject_Z lo <= TopMovie.avg_rating r)%Q /\
            (TopMovie.avg_rating r <= inject_Z hi)%Q /\
            (0 <= TopMovie.rating_std r)%Q)
         res.
Proof.
  intros Hrange Hres. unfold top_rated_movies in Hres. apply for_each_Ok in Hres.
  apply Forall_forall. intros r Hr.
  destruct (Forall2_In_r _ _ _ _ Hres Hr) as (row & Hrow & Hok).
  unfold top_movie_result in Hok.
  destruct (movie_info movies_df (fst row)); [|discriminate].
  injection Hok as <-. simpl.
  apply top_movies_In in Hrow. destruct Hrow as [Hrow _].
  pose proof (movie_stats_rated _ _ Hrow) as Hrated.
  rewrite (movie_stats_In _ _ Hrow).
  set (col := map rating _).
  assert (Hne : col <> []).
  { unfold col. apply in_map_iff in Hrated. destruct Hrated as (x & Hid & Hx).
    intros Hnil. apply map_eq_nil in Hnil.
    assert (Hf : In x (filter (fun x0 => r_movie_id x0 =? fst row) ratings_df)).
    { apply filter_In. split; [exact Hx|]. now apply Z.eqb_eq. }
    rewrite Hnil in Hf. exact Hf. }
  assert (Hcol : Forall (fun x => lo <= x <= hi) col).
  { unfold col. apply Forall_map. apply Forall_forall. intros x Hx.
    apply filter_In in Hx. rewrite Forall_forall in Hrange. now apply Hrange. }
  destruct (agg_mean_bounds 3 lo hi col Hne Hcol) as [Hlo Hhi].
  split; [exact Hlo|]. split; [exact Hhi|].
  simpl. unfold Stats.std_round.
  destruct (Stats.var col) as [v|] eqn:Hv; simpl; [|apply Qle_refl].
  destruct (round_sqrt_units_spec 3 v (var_nonneg col v Hv)) as [Hk _].
  unfold Stats.round_sqrt, Qle. simpl. lia.
Qed.

Lemma top_rated_movies_range_witness :
  exists res,
    top_rated_movies Demo.ratings Demo.movies 2 20 = Ok res /\ res <> [] /\
    Forall (fun r =>
              (inject_Z 1 <= TopMovie.avg_rating r)%Q /\
              (TopMovie.avg_rating r <= inject_Z 5)%Q /\
              (0 <= TopMovie.rating_std r)%Q)
           res.
Proof.
  eexists. split; [vm_compute; reflexivity|]. split; [discriminate|].
  apply (top_rated_movies_range Demo.ratings Demo.movies 2 20 1 5).
  - repeat constructor; simpl; lia.
  - vm_compute. reflexivity.
Defined.

(** ** Task 3: where the segments come from *)

Lemma merge_In {K A B} `{OrdLaws K} (lkey : A -> K) (rkey : B -> K)
    (left : list A) (right : list B) (a : A) (b : B) :
  In (a, b) (Frame.merge lkey rkey left right) <->
  In a left /\ In b right /\ lkey a = rkey b.
Proof.
  unfold Frame.merge. rewrite in_flat_map. split.
  - intros (a' & Ha' & Hab). apply in_map_iff in Hab.
    destruct Hab as (b' & [= -> ->] & Hb). apply filter_In in Hb.
    destruct Hb as [Hb Hk]. apply key_eqb_eq in Hk. auto.
  - intros (Ha & Hb & Hk). exists a. split; [exact Ha|].
    apply in_map, filter_In. split; [exact Hb|]. now apply key_eqb_eq.
Qed.

Lemma ratings_with_genres_In (ratings_df : list Rating) (users_df : list User)
    (movie_genres_df : list MovieGenre) (x : Rating) (u : User) (ag : string)
    (mg : MovieGenre) :
  In (x, (u, ag), mg) (ratings_with_genres ratings_df users_df movie_genres_df) <->
  In x ratings_df /\ In u users_df /\ In mg movie_genres_df /\
  ag = get_age_group (age u) /\
  r_user_id x = u_user_id u /\ r_movie_id x = mg_movie_id mg.
Proof.
  unfold ratings_with_genres, users_with_age_group.
  rewrite merge_In, merge_In, in_map_iff. simpl. split.
  - intros ((Hx & (u' & [= -> <-] & Hu) & Huid) & Hmg & Hmid). auto 10.
  - intros (Hx & Hu & Hmg & -> & Huid & Hmid). repeat split; auto.
    exists u. auto.
Qed.

Lemma genre_stats_In (ratings_df : list Rating) (users_df : list User)
    (movie_genres_df : list MovieGenre) (srow : string * string * string * (Q * Z)) :
  In srow (genre_stats ratings_df users_df movie_genres_df) ->
  1 <= snd (snd srow) /\
  exists (x : Rating) (u : User) (mg : MovieGenre),
    In x ratings_df /\ In u users_df /\ In mg movie_genres_df /\
    r_user_id x = u_user_id u /\ r_movie_id x = mg_movie_id mg /\
    fst srow = (occupation u, get_age_group (age u), mg_genre mg).
Proof.
  unfold genre_stats. rewrite in_map_iff. intros ([k rows] & <- & Hg). simpl.
  pose proof (groupby_group_nonempty _ _ _ _ Hg) as Hne.
  apply groupby_In in Hg. destruct Hg as [Hk _]. split.
  - unfold Stats.count. rewrite length_map. destruct rows; [congruence|].
    simpl. lia.
  - apply in_map_iff in Hk. destruct Hk as ([[x [u ag]] mg] & <- & Hrow).
    apply dropna_In in Hrow. destruct Hrow as [Hrow _].
    apply ratings_with_genres_In in Hrow.
    destruct Hrow as (Hx & Hu & Hmg & -> & Huid & Hmid).
    exists x, u, mg. simpl. auto 10.
Qed.

Lemma head_nonempty {A} (l : list A) : l <> [] -> Frame.head 3 l <> [].
Proof. destruct l; [congruence|]. discriminate. Qed.

Lemma sort_desc_nonempty {A} (key : A -> Q) (l : list A) :
  l <> [] -> sort_desc key l <> [].
Proof.
  intros Hne Hnil. apply Hne.
  pose proof (Permutation_length (sort_desc_perm key l)) as Hlen.
  rewrite Hnil in Hlen. destruct l; [reflexivity|discriminate].
Qed.

Lemma segment_origin (ratings_df : list Rating) (users_df : list User)
    (movie_genres_df : list MovieGenre) (r : TopGenres.t) :
  In r (top_genres_by_occupation_age ratings_df users_df movie_genres_df) ->
  exists (x : Rating) (u : User) (mg : MovieGenre),
    In x ratings_df /\ In u users_df /\ In mg movie_genres_df /\
    r_user_id x = u_user_id u /\ r_movie_id x = mg_movie_id mg /\
    TopGenres.occupation r = occupation u /\
    TopGenres.age_group r = get_age_group (age u).
Proof.
  unfold top_genres_by_occupation_age. intros Hr. apply sort_asc_In in Hr.
  apply in_map_iff in Hr. destruct Hr as ([k rows] & <- & Hg).
  apply groupby_In in Hg. destruct Hg as [Hk _].
  apply in_map_iff in Hk. destruct Hk as (srow & Hkey & Hsrow).
  destruct (genre_stats_In _ _ _ _ Hsrow)
    as (_ & x & u & mg & Hx & Hu & Hmg & Huid & Hmid & Hlabel).
  assert (Hseg : k = (occupation u, get_age_group (age u))).
  { rewrite <- Hkey, Hlabel. reflexivity. }
  exists x, u, mg. unfold segment_result; simpl. rewrite Hseg. simpl. auto 10.
Qed.

(** X13: every segment of the genre ranking comes from a rating, by a user
    of the users frame, of a movie with a genre: the segment is that user's
    occupation and age group, it has at least one genre entry and counts at
    least one user; every entry is labelled with the segment and a genre of
    the movie-genre frame, and counts at least one rating.  Without ratings
    there is no segment. *)
Theorem segment_provenance (ratings_df : list Rating) (users_df : list User)
    (movie_genres_df : list MovieGenre) (r : TopGenres.t) :
  In r (top_genres_by_occupation_age ratings_df users_df movie_genres_df) ->
  (exists (x : Rating) (u : User) (mg : MovieGenre),
     In x ratings_df /\ In u users_df /\ In mg movie_genres_df /\
     r_user_id x = u_user_id u /\ r_movie_id x = mg_movie_id mg /\
     TopGenres.occupation r = occupation u /\
     TopGenres.age_group r = get_age_group (age u)) /\
  TopGenres.top_genres r <> [] /\
  1 <= TopGenres.total_users r /\
  Forall (fun e =>
            fst (TopGenres.genre e) = (TopGenres.occupation r, TopGenres.age_group r) /\
            In (snd (TopGenres.genre e)) (map mg_genre movie_genres_df) /\
            1 <= TopGenres.rating_count e)
         (TopGenres.top_genres r).
Proof.
  unfold top_genres_by_occupation_age. intros Hr. apply sort_asc_In in Hr.
  apply in_map_iff in Hr. destruct Hr as ([k rows] & <- & Hg).
  pose proof (groupby_group_nonempty _ _ _ _ Hg) as Hne.
  apply groupby_In in Hg. destruct Hg as [Hk Hrows].
  apply in_map_iff in Hk. destruct Hk as (srow & Hkey & Hsrow).
  destruct (genre_stats_In _ _ _ _ Hsrow)
    as (_ & x & u & mg & Hx & Hu & Hmg & Huid & Hmid & Hlabel).
  assert (Hseg : k = (occupation u, get_age_group (age u))).
  { rewrite <- Hkey, Hlabel. reflexivity. }
  unfold segment_result; simpl. split; [|split; [|split]].
  - exists x, u, mg. rewrite Hseg. simpl. auto 10.
  - intros Hnil. apply map_eq_nil in Hnil.
    apply (sort_desc_nonempty
             (fun row : string * string * string * (Q * Z) => fst (snd row))) in Hne.
    apply head_nonempty in Hne. contradiction.
  - assert (Hin : In (u, get_age_group (age u))
                    (segment_users users_df (fst k) (snd k))).
    { unfold segment_users, users_with_age_group. apply filter_In. split.
      - now apply (in_map (fun u0 => (u0, get_age_group (age u0)))).
      - rewrite Hseg. simpl. now rewrite !String.eqb_refl. }
    destruct (segment_users users_df (fst k) (snd k)); [destruct Hin|].
    unfold len. simpl. lia.
  - apply Forall_forall. intros e He. apply in_map_iff in He.
    destruct He as (srow' & <- & Hin). apply head_In, sort_desc_In in Hin.
    rewrite Hrows in Hin. apply filter_In in Hin. destruct Hin as [Hin Hk'].
    apply key_eqb_eq in Hk'.
    destruct (genre_stats_In _ _ _ _ Hin)
      as (Hcount & x' & u' & mg' & _ & _ & Hmg' & _ & _ & Hlabel').
    unfold genre_entry_of; simpl. split; [destruct k; exact Hk'|].
    split; [|exact Hcount]. rewrite Hlabel'. simpl. now apply in_map.
Qed.

Lemma segment_provenance_witness :
  exists r,
    In r (top_genres_by_occupation_age Demo.ratings Demo.users Demo.movie_genres) /\
    TopGenres.top_genres r <> [] /\ 1 <= TopGenres.total_users r.
Proof.
  exists (hd (TopGenres.Build_t "" "" [] 0)
            (top_genres_by_occupation_age Demo.ratings Demo.users Demo.movie_genres)).
  assert (Hin : In (hd (TopGenres.Build_t "" "" [] 0)
                      (top_genres_by_occupation_age Demo.ratings Demo.users
                         Demo.movie_genres))
                   (top_genres_by_occupation_age Demo.ratings Demo.users
                      Demo.movie_genres))
    by (vm_compute; auto).
  split; [exact Hin|].
  destruct (segment_provenance Demo.ratings Demo.users Demo.movie_genres _ Hin)
    as (_ & Hne & Hn & _).
  split; [exact Hne|exact Hn].
Defined.

Lemma nodup_length_incl (l allowed : list string) :
  incl l allowed -> (List.length (nodup string_dec l) <= List.length allowed)%nat.
Proof.
  intros Hincl. apply NoDup_incl_length; [apply NoDup_nodup|].
  intros x Hx. apply nodup_In in Hx. auto.
Qed.

Lemma prod_incl_length (pairs : list (string * string)) (l1 l2 : list string) :
  NoDup pairs -> incl (map fst pairs) l1 -> incl (map snd pairs) l2 ->
  (List.length pairs <= List.length (nodup string_dec l1) * List.length l2)%nat.
Proof.
  intros Hnd H1 H2. rewrite <- length_prod. apply NoDup_incl_length; [exact Hnd|].
  intros [a b] Hab. apply in_prod.
  - apply nodup_In, H1. now apply (in_map fst) in Hab.
  - apply H2. now apply (in_map snd) in Hab.
Qed.

(** X14: the age group of a segment is one of the five labels of
    [get_age_group], so an output of the genre ranking has at most five
    distinct age groups, and at most five segments per occupation. *)
Theorem age_groups_at_most_five (ratings_df : list Rating) (users_df : list User)
    (movie_genres_df : list MovieGenre) :
  let results := top_genres_by_occupation_age ratings_df users_df movie_genres_df in
  Forall (fun r =>
            In (TopGenres.age_group r)
               ["20-25"; "25-35"; "35-45"; "45+"; "Under 20"]%string)
         results /\
  count_distinct (map TopGenres.age_group results) <= 5 /\
  len results <= 5 * count_distinct (map TopGenres.occupation results).
Proof.
  intros results.
  assert (Hall : Forall (fun r =>
                    In (TopGenres.age_group r)
                       ["20-25"; "25-35"; "35-45"; "45+"; "Under 20"]%string)
                   results).
  { apply Forall_forall. intros r Hr.
    destruct (segment_origin ratings_df users_df movie_genres_df r Hr)
      as (_ & u & _ & _ & _ & _ & _ & _ & _ & ->).
    unfold get_age_group.
    destruct (_ && _)%bool; [simpl; tauto|].
    destruct (_ && _)%bool; [simpl; tauto|].
    destruct (_ && _)%bool; [simpl; tauto|].
    destruct (_ >=? _); simpl; tauto. }
  assert (Hincl : incl (map TopGenres.age_group results)
                    ["20-25"; "25-35"; "35-45"; "45+"; "Under 20"]%string).
  { intros x Hx. apply in_map_iff in Hx. destruct Hx as (r & <- & Hr).
    rewrite Forall_forall in Hall. now apply Hall. }
  split; [exact Hall|]. split.
  - unfold count_distinct, len.
    pose proof (nodup_length_incl _ _ Hincl) as Hlen. simpl in Hlen. lia.
  - unfold count_distinct, len.
    pose proof (prod_incl_length
                  (map (fun r => (TopGenres.occupation r, TopGenres.age_group r)) results)
                  (map TopGenres.occupation results)
                  ["20-25"; "25-35"; "35-45"; "45+"; "Under 20"]%string) as Hlen.
    rewrite !map_map, length_map in Hlen. simpl in Hlen.
    assert (Hnd : NoDup (map (fun r => (TopGenres.occupation r, TopGenres.age_group r))
                           results)).
    { apply strictly_sorted_NoDup.
      apply (StronglySorted_map
               (fun r => (TopGenres.occupation r, TopGenres.age_group r)) key_lt).
      unfold results, top_genres_by_occupation_age.
      apply sort_asc_strict, segments_sorted. }
    specialize (Hlen Hnd (incl_refl _) Hincl). lia.
Qed.

(** ** Task 4: where the similar movies come from *)

Lemma score_movie_origin (target_movie_ratings : list Rating) (target_users : list Z)
    (similarity_threshold : R) (cooccurrence_threshold : Z)
    (sims : list (Z * similarity_data)) (g : Z * list Rating)
    (e : Z * similarity_data) :
  In e (score_movie target_movie_ratings target_users similarity_threshold
          cooccurrence_threshold sims g) ->
  In e sims \/
  (fst e = fst g /\
   sd_cooccurrence_count (snd e) =
     len (Frame.inter (Frame.to_set (map r_user_id (snd g))) target_users)).
Proof.
  destruct g as [movie_id movie_ratings]. unfold score_movie.
  destruct (_ <? cooccurrence_threshold); [tauto|].
  destruct (_ <? 2); [tauto|].
  destruct (NP.leb _ _); [|tauto].
  intros He. apply dict_set_In in He. destruct He as [->|He]; [|tauto].
  right. split; reflexivity.
Qed.

Lemma fold_score_origin (target_movie_ratings : list Rating) (target_users : list Z)
    (similarity_threshold : R) (cooccurrence_threshold : Z)
    (groups : list (Z * list Rating)) (sims : list (Z * similarity_data))
    (e : Z * similarity_data) :
  In e (fold_left (score_movie target_movie_ratings target_users
                     similarity_threshold cooccurrence_threshold) groups sims) ->
  In e sims \/
  exists g, In g groups /\ fst e = fst g /\
    sd_cooccurrence_count (snd e) =
      len (Frame.inter (Frame.to_set (map r_user_id (snd g))) target_users).
Proof.
  revert sims. induction groups as [|g t IH]; intros sims; simpl; [tauto|].
  intros He. apply IH in He. destruct He as [He|(g' & Hg' & Hk)].
  - apply score_movie_origin in He. destruct He as [He|He]; [tauto|].
    right. exists g. tauto.
  - right. exists g'. tauto.
Qed.

Lemma mem_In (x : Z) (s : list Z) : Frame.mem x s = true <-> In x s.
Proof.
  unfold Frame.mem. rewrite existsb_exists. split.
  - intros (y & Hy & Heq). apply Z.eqb_eq in Heq. now subst.
  - intros Hin. exists x. split; [exact Hin|apply Z.eqb_refl].
Qed.

Lemma Z_key_eqb (a b : Z) : key_eqb a b = (a =? b).
Proof.
  unfold key_eqb. simpl. rewrite Z.eqb_compare. reflexivity.
Qed.

Lemma nodup_filter (p : Z -> bool) (l : list Z) :
  nodup Z.eq_dec (filter p l) = filter p (nodup Z.eq_dec l).
Proof.
  induction l as [|x t IH]; simpl; [reflexivity|].
  destruct (p x) eqn:Ep; simpl.
  - destruct (in_dec Z.eq_dec x (filter p t)) as [Hin|Hnin];
      destruct (in_dec Z.eq_dec x t) as [Hin'|Hnin']; simpl; rewrite ?Ep.
    + exact IH.
    + apply filter_In in Hin. tauto.
    + exfalso. apply Hnin. apply filter_In. tauto.
    + now rewrite IH.
  - destruct (in_dec Z.eq_dec x t); simpl; rewrite ?Ep; exact IH.
Qed.

Lemma filter_and {A} (p q : A -> bool) (l : list A) :
  filter p (filter q l) = filter (fun x => (q x && p x)%bool) l.
Proof.
  induction l as [|x t IH]; simpl; [reflexivity|].
  destruct (q x); simpl; [destruct (p x)|]; now rewrite IH.
Qed.

Lemma corated_group (ratings_df : list Rating) (target_users : list Z)
    (target_movie_id k : Z) :
  k <> target_movie_id ->
  Frame.inter
    (Frame.to_set
       (map r_user_id
          (filter (fun r => key_eqb (r_movie_id r) k)
             (filter (fun r => negb (r_movie_id r =? target_movie_id))
                (filter (fun r => Frame.mem (r_user_id r) target_users) ratings_df)))))
    target_users
  = Frame.inter (raters ratings_df k) target_users.
Proof.
  intros Hk. unfold Frame.inter, raters, Frame.to_set.
  rewrite !filter_and.
  rewrite (filter_ext _ (fun r => ((r_movie_id r =? k)
                                   && Frame.mem (r_user_id r) target_users)%bool)).
  2:{ intros r. rewrite Z_key_eqb. destruct (Z.eqb_spec (r_movie_id r) k) as [->|Hne].
      - replace (k =? target_movie_id) with false by (symmetry; now apply Z.eqb_neq).
        simpl. now rewrite andb_true_r.
      - now rewrite !andb_false_r. }
  rewrite <- (filter_and (fun r => Frame.mem (r_user_id r) target_users)
                (fun r => r_movie_id r =? k)).
  rewrite <- (filter_map_swap (fun u => Frame.mem u target_users) r_user_id).
  rewrite nodup_filter, filter_and.
  apply filter_ext. intros u. now rewrite andb_diag.
Qed.

Lemma movie_similarities_entry (ratings_df : list Rating) (target_movie_id : Z)
    (similarity_threshold : R) (cooccurrence_threshold : Z)
    (e : Z * similarity_data) :
  In e (movie_similarities ratings_df target_movie_id similarity_threshold
          cooccurrence_threshold) ->
  fst e <> target_movie_id /\
  sd_cooccurrence_count (snd e)
    = len (common_raters ratings_df (fst e) target_movie_id) /\
  exists x y,
    In x ratings_df /\ In y ratings_df /\ r_movie_id x = fst e /\
    r_movie_id y = target_movie_id /\ r_user_id x = r_user_id y.
Proof.
  unfold movie_similarities. intros He. apply fold_score_origin in He.
  destruct He as [[]|([k rows] & Hg & Hkey & Hcount)]. simpl in Hkey, Hcount.
  apply groupby_In in Hg. destruct Hg as [Hk Hrows].
  apply in_map_iff in Hk. destruct Hk as (x & Hxk & Hx).
  apply filter_In in Hx. destruct Hx as [Hx Hne].
  apply filter_In in Hx. destruct Hx as [Hx Hmem].
  apply negb_true_iff, Z.eqb_neq in Hne.
  assert (Hk : k <> target_movie_id) by congruence.
  rewrite Hkey. split; [exact Hk|]. split.
  - rewrite Hcount, Hrows. unfold common_raters.
    now rewrite (corated_group ratings_df _ target_movie_id k Hk).
  - apply mem_In in Hmem. unfold Frame.to_set in Hmem.
    apply nodup_In, in_map_iff in Hmem. destruct Hmem as (y & Hu & Hy).
    apply filter_In in Hy. destruct Hy as [Hy Hty]. apply Z.eqb_eq in Hty.
    exists x, y. auto 10.
Qed.

(** X15: the similarity search never returns its target; every movie it
    returns was rated by a user who also rated the target, and its
    [cooccurrence_count] is the number of distinct users who rated both. *)
Theorem similar_movies_corated (str_contains : string -> string -> bool)
    (ratings_df : list Rating) (movies_df : list Movie) (target_movie : string)
    (similarity_threshold : R) (cooccurrence_threshold top_n : Z)
    (res : list Similar.t) :
  similar_movies str_contains ratings_df movies_df target_movie
    similarity_threshold cooccurrence_threshold top_n = Ok res ->
  exists target,
    find_target str_contains movies_df target_movie = Ok target /\
    Forall (fun r =>
              Similar.movie_id r <> m_movie_id target /\
              Similar.cooccurrence_count r =
                len (common_raters ratings_df (Similar.movie_id r)
                       (m_movie_id target)) /\
              exists x y,
                In x ratings_df /\ In y ratings_df /\
                r_movie_id x = Similar.movie_id r /\
                r_movie_id y = m_movie_id target /\
                r_user_id x = r_user_id y)
           res.
Proof.
  intros Hres. apply similar_movies_Ok in Hres.
  destruct Hres as (target & Htarget & Hres). exists target.
  split; [exact Htarget|]. apply Forall_forall. intros r Hr.
  destruct (Forall2_In_r _ _ _ _ Hres Hr) as (item & Hitem & Hok).
  apply similar_result_Ok in Hok. destruct Hok as (-> & _ & -> & _).
  apply sorted_movies_In in Hitem.
  now apply movie_similarities_entry in Hitem.
Qed.

Lemma sample_similar_movies :
  similar_movies Demo.icontains Demo.ratings Demo.movies "usual suspects"
    (1 / 2) 2 10 = Ok Sample.similar.
Proof. exact demo_similar_movies. Qed.

Lemma similar_movies_corated_witness :
  exists target,
    find_target Demo.icontains Demo.movies "usual suspects" = Ok target /\
    Forall (fun r => Similar.movie_id r <> m_movie_id target) Sample.similar.
Proof.
  destruct (similar_movies_corated Demo.icontains Demo.ratings Demo.movies
              "usual suspects" (1 / 2) 2 10 Sample.similar sample_similar_movies)
    as (target & Htarget & Hall).
  exists target. split; [exact Htarget|].
  eapply Forall_impl; [|exact Hall]. simpl. tauto.
Defined.

(** ** Task 4: the order of the similar movies *)

Section SortOn.
Context {A : Type} (le : A -> A -> bool) (P : A -> Prop).
Hypothesis le_total_on : forall x y, P x -> P y -> le x y = false -> le y x = true.
Hypothesis le_trans_on :
  forall x y z, P x -> P y -> P z -> le x y = true -> le y z = true -> le x z = true.

Lemma insert_by_sorted_on (x : A) (l : list A) :
  P x -> Forall P l ->
  StronglySorted (fun a b => le a b = true) l ->
  StronglySorted (fun a b => le a b = true) (Frame.insert_by le x l).
Proof.
  intros Hx HP Hs. induction Hs as [|y t Hs IH Hall]; simpl.
  - repeat constructor.
  - inversion HP as [|? ? Hy Ht]; subst.
    destruct (le x y) eqn:E.
    + constructor; [now constructor|]. constructor; [exact E|].
      rewrite Forall_forall in *. intros z Hz.
      apply (le_trans_on x y z); auto.
    + constructor; [auto|]. apply Forall_forall. intros z Hz.
      apply (Permutation_in _ (insert_by_perm le x t)) in Hz.
      destruct Hz as [<-|Hz]; [now apply le_total_on|].
      rewrite Forall_forall in Hall. auto.
Qed.

Lemma sort_by_sorted_on (l : list A) :
  Forall P l -> StronglySorted (fun a b => le a b = true) (Frame.sort_by le l).
Proof.
  induction 1 as [|x t Hx Ht IH]; simpl; [constructor|].
  apply insert_by_sorted_on; auto.
  rewrite Forall_forall in *. intros z Hz. apply Ht.
  rewrite sort_by_In in Hz. exact Hz.
Qed.
End SortOn.

Lemma stored_score_finite (similarity_threshold : R) (cooccurrence_threshold : Z)
    (e : Z * similarity_data) :
  stored_within similarity_threshold cooccurrence_threshold e ->
  exists s : R, sd_similarity_score (snd e) = NP.Fin s.
Proof. intros (s & c & Hs & _). eauto. Qed.

Lemma sorted_movies_sorted (similarity_threshold : R) (cooccurrence_threshold : Z)
    (sims : list (Z * similarity_data)) (top_n : Z) :
  Forall (stored_within similarity_threshold cooccurrence_threshold) sims ->
  StronglySorted
    (fun a b => NP.leb (sd_similarity_score (snd b)) (sd_similarity_score (snd a)) = true)
    (sorted_movies sims top_n).
Proof.
  intros Hall. unfold sorted_movies. apply head_sorted.
  apply sort_by_sorted_on
    with (P := fun e => exists s : R, sd_similarity_score (snd e) = NP.Fin s).
  - intros x y (sx & Hx) (sy & Hy). rewrite Hx, Hy. simpl.
    rewrite Rle_b_false, Rle_b_true. lra.
  - intros x y z (sx & Hx) (sy & Hy) (sz & Hz). rewrite Hx, Hy, Hz. simpl.
    rewrite !Rle_b_true. lra.
  - eapply Forall_impl; [|exact Hall]. intros e. apply stored_score_finite.
Qed.

(** X16: the similar movies are returned in descending order of similarity
    score, and there are at most [top_n] of them when [top_n] is not
    negative. *)
Theorem similar_movies_order (str_contains : string -> string -> bool)
    (ratings_df : list Rating) (movies_df : list Movie) (target_movie : string)
    (similarity_threshold : R) (cooccurrence_threshold top_n : Z)
    (res : list Similar.t) :
  similar_movies str_contains ratings_df movies_df target_movie
    similarity_threshold cooccurrence_threshold top_n = Ok res ->
  StronglySorted
    (fun a b =>
       exists sa sb : R,
         Similar.similarity_score a = NP.Fin sa /\
         Similar.similarity_score b = NP.Fin sb /\ (sb <= sa)%R)
    res /\
  (0 <= top_n -> len res <= top_n).
Proof.
  intros Hres. apply similar_movies_Ok in Hres.
  destruct Hres as (target & _ & Hres).
  pose proof (movie_similarities_invariant similarity_threshold
                cooccurrence_threshold ratings_df (m_movie_id target)) as [Hall _].
  set (sims := movie_similarities _ _ _ _) in *.
  assert (Hscores : map Similar.similarity_score res
                    = map (fun e : Z * similarity_data => sd_similarity_score (snd e))
                        (sorted_movies sims top_n)).
  { apply Forall2_map_eq with (P := fun x y => similar_result movies_df x = Ok y);
      [|exact Hres].
    intros x y Hxy. apply similar_result_Ok in Hxy. tauto. }
  split.
  - apply (StronglySorted_map Similar.similarity_score
             (fun x y => exists sa sb : R,
                           x = NP.Fin sa /\ y = NP.Fin sb /\ (sb <= sa)%R)).
    rewrite Hscores. apply StronglySorted_map.
    eapply StronglySorted_impl;
      [|exact (sorted_movies_sorted similarity_threshold cooccurrence_threshold
                 sims top_n Hall)].
    intros a b Ha Hb Hle. apply sorted_movies_In in Ha, Hb.
    rewrite Forall_forall in Hall.
    destruct (stored_score_finite _ _ _ (Hall a Ha)) as (sa & Hsa).
    destruct (stored_score_finite _ _ _ (Hall b Hb)) as (sb & Hsb).
    exists sa, sb. cbv beta in Hle. rewrite Hsa, Hsb in Hle.
    apply leb_Fin in Hle. auto.
  - intros Hn. unfold len. rewrite <- (Forall2_length Hres).
    unfold sorted_movies. now apply head_length.
Qed.

Lemma similar_movies_order_witness :
  StronglySorted
    (fun a b =>
       exists sa sb : R,
         Similar.similarity_score a = NP.Fin sa /\
         Similar.similarity_score b = NP.Fin sb /\ (sb <= sa)%R)
    Sample.similar.
Proof.
  apply (similar_movies_order Demo.icontains Demo.ratings Demo.movies
           "usual suspects" (1 / 2) 2 10 Sample.similar sample_similar_movies).
Defined.

(** ** Task 4: the errors of the similarity search *)

Lemma find_target_re_Raise (compile : string -> option (string -> bool))
    (movies_df : list Movie) (target_movie : string) (e : string) :
  find_target_re compile movies_df target_movie = Raise e ->
  (e = ReError /\
   (compile target_movie = None \/
    exists matches,
      compile target_movie = Some matches /\
      (forall m, In m movies_df -> matches (m_title m) = false) /\
      compile "Usual Suspects"%string = None)) \/
  (e = MovieNotFound /\
   exists matches fallback,
     compile target_movie = Some matches /\
     compile "Usual Suspects"%string = Some fallback /\
     forall m, In m movies_df ->
               matches (m_title m) = false /\ fallback (m_title m) = false).
Proof.
  unfold find_target_re, title_match_re.
  destruct (compile target_movie) as [matches|] eqn:Ec;
    [|intros [= <-]; left; auto].
  destruct (filter (fun m => matches (m_title m)) movies_df) as [|m1 rest1] eqn:E1;
    [|discriminate].
  assert (H1 : forall m, In m movies_df -> matches (m_title m) = false).
  { intros m Hm. destruct (matches (m_title m)) eqn:E; [|reflexivity].
    assert (Hin : In m (filter (fun m => matches (m_title m)) movies_df))
      by (apply filter_In; auto).
    rewrite E1 in Hin. destruct Hin. }
  destruct (compile "Usual Suspects"%string) as [fallback|] eqn:Ef.
  - destruct (filter (fun m => fallback (m_title m)) movies_df)
      as [|m2 rest2] eqn:E2; [|discriminate].
    intros [= <-]. right. split; [reflexivity|].
    exists matches, fallback. split; [reflexivity|]. split; [reflexivity|].
    intros m Hm. split; [auto|].
    destruct (fallback (m_title m)) eqn:E; [|reflexivity].
    assert (Hin : In m (filter (fun m => fallback (m_title m)) movies_df))
      by (apply filter_In; auto).
    rewrite E2 in Hin. destruct Hin.
  - intros [= <-]. left. split; [reflexivity|]. right. exists matches. auto.
Qed.

Lemma find_target_re_Ok (compile : string -> option (string -> bool))
    (movies_df : list Movie) (target_movie : string)
    (matches fallback : string -> bool) (m : Movie) :
  compile target_movie = Some matches ->
  compile "Usual Suspects"%string = Some fallback ->
  In m movies_df ->
  matches (m_title m) = true \/ fallback (m_title m) = true ->
  exists target, find_target_re compile movies_df target_movie = Ok target.
Proof.
  intros Hc Hf Hm Hmatch.
  destruct (find_target_re compile movies_df target_movie) as [target|e] eqn:E;
    [eauto|].
  apply find_target_re_Raise in E.
  destruct E as [(_ & [Hnone|(f & _ & _ & Hnone)])|(_ & f & f' & Hf1 & Hf2 & Hall)];
    try congruence.
  rewrite Hc in Hf1. rewrite Hf in Hf2.
  injection Hf1 as <-. injection Hf2 as <-.
  destruct (Hall m Hm) as [H1 H2]. destruct Hmatch; congruence.
Qed.

Lemma score_movie_fl_origin (corr : list Z -> list Z -> NP.float) (rnd : R -> R)
    (target_movie_ratings : list Rating) (target_users : list Z)
    (similarity_threshold : R) (cooccurrence_threshold : Z)
    (sims : list (Z * similarity_data)) (g : Z * list Rating)
    (e : Z * similarity_data) :
  In e (score_movie_fl corr rnd target_movie_ratings target_users
          similarity_threshold cooccurrence_threshold sims g) ->
  In e sims \/ fst e = fst g.
Proof.
  destruct g as [movie_id movie_ratings]. unfold score_movie_fl.
  destruct (_ <? cooccurrence_threshold); [tauto|].
  destruct (_ <? 2); [tauto|].
  destruct (NP.leb _ _); [|tauto].
  intros He. apply dict_set_In in He. destruct He as [->|He]; [|tauto].
  now right.
Qed.

Lemma fold_score_fl_origin (corr : list Z -> list Z -> NP.float) (rnd : R -> R)
    (target_movie_ratings : list Rating) (target_users : list Z)
    (similarity_threshold : R) (cooccurrence_threshold : Z)
    (groups : list (Z * list Rating)) (sims : list (Z * similarity_data))
    (e : Z * similarity_data) :
  In e (fold_left (score_movie_fl corr rnd target_movie_ratings target_users
                     similarity_threshold cooccurrence_threshold) groups sims) ->
  In e sims \/ exists g, In g groups /\ fst e = fst g.
Proof.
  revert sims. induction groups as [|g t IH]; intros sims; simpl; [tauto|].
  intros He. apply IH in He. destruct He as [He|(g' & Hg' & Hk)].
  - apply score_movie_fl_origin in He. destruct He as [He|He]; [tauto|].
    right. exists g. tauto.
  - right. exists g'. tauto.
Qed.

Lemma movie_similarities_fl_entry (corr : list Z -> list Z -> NP.float)
    (rnd : R -> R) (ratings_df : list Rating) (target_movie_id : Z)
    (similarity_threshold : R) (cooccurrence_threshold : Z)
    (e : Z * similarity_data) :
  In e (movie_similarities_fl corr rnd ratings_df target_movie_id
          similarity_threshold cooccurrence_threshold) ->
  fst e <> target_movie_id /\
  exists x y,
    In x ratings_df /\ In y ratings_df /\ r_movie_id x = fst e /\
    r_movie_id y = target_movie_id /\ r_user_id x = r_user_id y.
Proof.
  unfold movie_similarities_fl. intros He. apply fold_score_fl_origin in He.
  destruct He as [[]|([k rows] & Hg & Hkey)]. simpl in Hkey.
  apply groupby_In in Hg. destruct Hg as [Hk _].
  apply in_map_iff in Hk. destruct Hk as (x & Hxk & Hx).
  apply filter_In in Hx. destruct Hx as [Hx Hne].
  apply filter_In in Hx. destruct Hx as [Hx Hmem].
  apply negb_true_iff, Z.eqb_neq in Hne.
  rewrite Hkey. split; [congruence|].
  apply mem_In in Hmem. unfold Frame.to_set in Hmem.
  apply nodup_In, in_map_iff in Hmem. destruct Hmem as (y & Hu & Hy).
  apply filter_In in Hy. destruct Hy as [Hy Hty]. apply Z.eqb_eq in Hty.
  exists x, y. auto 10.
Qed.



(** X18: when the pattern and the fixed alternative compile, some title
    matches one of them, and every rated movie has a row in the movies
    frame, the similarity search returns a list, whatever the arithmetic. *)
Theorem similar_movies_total (compile : string -> option (string -> bool))
    (corr : list Z -> list Z -> NP.float) (rnd : R -> R)
    (ratings_df : list Rating) (movies_df : list Movie) (target_movie : string)
    (similarity_threshold : R) (cooccurrence_threshold top_n : Z)
    (matches fallback : string -> bool) :
  compile target_movie = Some matches ->
  compile "Usual Suspects"%string = Some fallback ->
  (exists m, In m movies_df /\
             (matches (m_title m) = true \/ fallback (m_title m) = true)) ->
  (forall x, In x ratings_df ->
             exists m, In m movies_df /\ m_movie_id m = r_movie_id x) ->
  exists res,
    similar_movies_fl compile corr rnd ratings_df movies_df target_movie
      similarity_threshold cooccurrence_threshold top_n = Ok res.
Proof.
  intros Hc Hf (m & Hm & Hmatch) Hint.
  destruct (find_target_re_Ok compile movies_df target_movie matches fallback m
              Hc Hf Hm Hmatch) as [target Ht].
  unfold similar_movies_fl. rewrite Ht.
  destruct (for_each_total (similar_result movies_df)
              (sorted_movies
                 (movie_similarities_fl corr rnd ratings_df (m_movie_id target)
                    similarity_threshold cooccurrence_threshold) top_n))
    as (res & Hres & _); [|eauto].
  intros item Hitem. apply sorted_movies_In, movie_similarities_fl_entry in Hitem.
  destruct Hitem as (_ & x & _ & Hx & _ & Hxm & _).
  destruct (Hint x Hx) as (m' & Hm' & Hid).
  destruct (movie_info_Ok movies_df (fst item)) as (info & Hinfo & _);
    [exists m'; split; [exact Hm'|congruence]|].
  unfold similar_result. rewrite Hinfo. eauto.
Qed.

Lemma similar_movies_total_witness :
  exists res,
    similar_movies_fl (fun pattern => Some (Demo.icontains pattern)) NP.corrcoef
      (fun x => x) Demo.ratings Demo.movies "toy story" (95 / 100) 50 10 = Ok res.
Proof.
  apply (similar_movies_total (fun pattern => Some (Demo.icontains pattern))
           NP.corrcoef (fun x => x) Demo.ratings Demo.movies "toy story"
           (95 / 100) 50 10 (Demo.icontains "toy story")
           (Demo.icontains "Usual Suspects")).
  - reflexivity.
  - reflexivity.
  - exists (nth 1 Demo.movies (Build_Movie 0 "" None [])).
    split; [simpl; auto|]. left. reflexivity.
  - intros x Hx.
    assert (Hall : forallb (fun y => existsb (fun m => m_movie_id m =? r_movie_id y)
                                       Demo.movies) Demo.ratings = true)
      by reflexivity.
    rewrite forallb_forall in Hall. specialize (Hall x Hx).
    apply existsb_exists in Hall. destruct Hall as (m & Hm & Hid).
    exists m. split; [exact Hm|]. now apply Z.eqb_eq.
Defined.

(** ** The summary of the four analyses *)

Lemma download_Ok (fs : FileSystem) (g g' : Globals) (info : DataInfo) :
  download_and_load_data fs g = (Ok info, g') ->
  exists r u m gs o, fs = files r u m gs o /\ g' = loaded_globals r u m gs o.
Proof.
  destruct fs as [d fd fu fi fg fo].
  destruct d, fd as [| |r], fu as [| |u], fi as [| |m], fg as [| |gs], fo as [| |o];
    run_loader; try discriminate.
  destruct (data_info r u m gs o); [|discriminate].
  intros [= _ <-]. exists r, u, m, gs, o. split; reflexivity.
Qed.

(** The outcome of a load does not depend on the globals it starts from. *)
Lemma download_Raise_again (fs : FileSystem) (g g' : Globals) (e : string) :
  download_and_load_data fs g = (Raise e, g') ->
  download_and_load_data fs g' = (Raise e, g').
Proof.
  destruct fs as [d fd fu fi fg fo].
  destruct d, fd as [| |r], fu as [| |u], fi as [| |m], fg as [| |gs], fo as [| |o];
    run_loader; intros H; first [exact H | injection H as <- <-; reflexivity].
Qed.

Lemma mean_age_loads (fs : FileSystem) (g g' : Globals) (res : list MeanAge.t) :
  USERS_DF g = None ->
  analyze_mean_age_by_occupation fs g = (Ok res, g') ->
  exists r u m gs o,
    fs = files r u m gs o /\ g' = loaded_globals r u m gs o /\
    res = mean_age_by_occupation u.
Proof.
  intros Hnone.
  unfold analyze_mean_age_by_occupation, ensure_loaded, try_except, bind, get_data.
  cbn [users_df]. rewrite Hnone. cbn [is_none].
  destruct (download_and_load_data fs g) as [[info|e] g1] eqn:E.
  - apply download_Ok in E. destruct E as (r & u & m & gs & o & -> & ->).
    cbv [loaded_globals lift ret frame USERS_DF users_df].
    intros [= <- <-]. exists r, u, m, gs, o. auto.
  - apply download_Raise_again in E. rewrite E. discriminate.
Qed.

Ltac run_summary :=
  cbv [analyze_top_rated_movies analyze_top_genres_by_occupation_age
       find_similar_movies ensure_loaded try_except bind get_data lift ret raise
       frame is_none orb loaded_globals
       RATINGS_DF USERS_DF MOVIES_DF GENRES_DF OCCUPATIONS_DF MOVIE_GENRES_DF
       ratings_df users_df movies_df genres_df movie_genres_df].

(** X19: a summary requested while the users frame is not loaded loads the
    dataset in its first analysis, and the four analyses then work on the
    same frames: when it returns, the files were all in place, the globals
    hold their rows, and the summary is that of the four results computed
    from these rows with the default arguments. *)
Theorem summary_from_unloaded (str_contains : string -> string -> bool)
    (fs : FileSystem) (g g' : Globals) (s : Summary.t) :
  USERS_DF g = None ->
  get_analysis_summary str_contains fs g = (Ok s, g') ->
  exists r u m gs o top_movies_results similar_movies_results,
    fs = files r u m gs o /\ g' = loaded_globals r u m gs o /\
    top_rated_movies r m 35 20 = Ok top_movies_results /\
    get_movie_genres m <> [] /\
    similar_movies str_contains r m "Usual Suspects, The (1995)" (95 / 100) 50 10
      = Ok similar_movies_results /\
    s = summary_of (mean_age_by_occupation u) top_movies_results
          (top_genres_by_occupation_age r u (get_movie_genres m))
          similar_movies_results.
Proof.
  intros Hnone. unfold get_analysis_summary. unfold bind at 1.
  destruct (analyze_mean_age_by_occupation fs g) as [[a|e] g1] eqn:E1;
    [|discriminate].
  apply mean_age_loads in E1; [|exact Hnone].
  destruct E1 as (r & u & m & gs & o & -> & -> & ->).
  run_summary.
  destruct (top_rated_movies r m 35 20) as [b|e] eqn:Eb; [|discriminate].
  destruct (get_movie_genres m) as [|mg mgs] eqn:Emg; [discriminate|].
  run_summary.
  destruct (similar_movies str_contains r m "Usual Suspects, The (1995)"
              (95 / 100) 50 10) as [d|e] eqn:Ed; [|discriminate].
  intros [= <- <-]. exists r, u, m, gs, o, b, d.
  rewrite Emg. repeat split; try reflexivity; try assumption. discriminate.
Qed.

Lemma summary_from_unloaded_witness :
  exists r u m gs o top_movies_results similar_movies_results,
    Demo.fs = files r u m gs o /\
    top_rated_movies r m 35 20 = Ok top_movies_results /\
    similar_movies Demo.icontains r m "Usual Suspects, The (1995)" (95 / 100) 50 10
      = Ok similar_movies_results.
Proof.
  destruct (summary_from_unloaded Demo.icontains Demo.fs initial_globals
              (snd (get_analysis_summary Demo.icontains Demo.fs initial_globals))
              (summary_of (mean_age_by_occupation Demo.users) []
                 (top_genres_by_occupation_age Demo.ratings Demo.users
                    Demo.movie_genres) []))
    as (r & u & m & gs & o & b & d & Hfs & _ & Hb & _ & Hd & _).
  - reflexivity.
  - lazy. reflexivity.
  - exists r, u, m, gs, o, b, d. auto.
Defined.








(** X21: a summary requested while the users frame is not loaded, when the
    load raises, raises the error of the load: the first analysis tries the
    load a second time, which raises again, and the other three analyses
    are not run.  The globals are as the failed load left them. *)
Theorem summary_load_error (str_contains : string -> string -> bool)
    (fs : FileSystem) (g g' : Globals) (e : string) :
  USERS_DF g = None ->
  download_and_load_data fs g = (Raise e, g') ->
  analyze_mean_age_by_occupation fs g = (Raise e, g') /\
  get_analysis_summary str_contains fs g = (Raise e, g').
Proof.
  intros Hnone Hload.
  assert (Hfirst : analyze_mean_age_by_occupation fs g = (Raise e, g')).
  { unfold analyze_mean_age_by_occupation, ensure_loaded, try_except, bind, get_data.
    cbn [users_df]. rewrite Hnone. cbn [is_none]. rewrite Hload.
    apply download_Raise_again in Hload. rewrite Hload. reflexivity. }
  split; [exact Hfirst|].
  unfold get_analysis_summary. unfold bind at 1. rewrite Hfirst. reflexivity.
Qed.

Lemma summary_load_error_witness :
  get_analysis_summary Demo.icontains
    {| data_dir_exists := false; f_data := Absent; f_user := Absent;
       f_item := Absent; f_genre := Absent; f_occupation := Absent |}
    initial_globals
  = (Raise DataDirectoryNotFound, initial_globals).
Proof.
  apply (summary_load_error Demo.icontains
           {| data_dir_exists := false; f_data := Absent; f_user := Absent;
              f_item := Absent; f_genre := Absent; f_occupation := Absent |}
           initial_globals initial_globals DataDirectoryNotFound);
    reflexivity.
Defined.
